(** * Movie-Booking-System: the catalog, cache and booking flow of [app.py]

    A shallow embedding of [src/app.py] and [src/models.py].

    - Python values that [r.json()] can produce are the type [pyval]; the
      dynamic operations the source applies to them ([in], [x[k]], [.get],
      iteration, truthiness, [==]) are functions that return an [outcome],
      so that a [TypeError] or [AttributeError] of the source is a [Raised]
      result of the model.
    - The cache directory is a finite map from file names to file states.
    - The relational store is the list of rows of each table.
    - Handlers are state-passing functions in a small state-and-exception
      monad; everything the environment decides (what the server answers,
      whether a disk write succeeds, the clock) is an explicit argument.

    Conventions. Strings are byte strings, a text being its UTF-8 bytes;
    [int] and [strip] are modelled on ASCII text, and the statements that
    depend on how they read other text say so ([is_ascii]). An integer that
    arrives with a request ([movie_id] and [booking_id] of the URL, [seats]
    of the form) is checked against the 64-bit range of the SQLite driver
    when it is bound to a statement; the identifiers that the store itself
    assigns are mathematical integers, a table being far from 2^63 rows.
    Requests are handled one after the other. Templates are left out (a
    route returns the arguments it renders with); so are time-outs and
    TLS. *)

From Stdlib Require Import ZArith List String Ascii Bool Lia QArith.
From Stdlib Require Import DecimalString DecimalZ DecimalPos.
From stdpp Require Import base option gmap strings.

Import ListNotations.
Set Warnings "-register-all".
Local Open Scope string_scope.
Local Open Scope list_scope.
Local Open Scope Z_scope.

(* ===================================================================== *)
(** ** Python values and the dynamic operations the source uses *)
(* ===================================================================== *)

(** A Python float: not-a-number, an infinity, or the dyadic [m * 2^e]. *)
Inductive pyfloat : Type :=
| Fnan
| Finf (negative : bool)
| Ffin (m e : Z).

(** What [json.loads] (hence [r.json()] and [cache_read]) can return.
    [VNone] is also the [None] with which the source signals failure. *)
Inductive pyval : Type :=
| VNone
| VBool (b : bool)
| VInt (n : Z)
| VFloat (f : pyfloat)
| VStr (s : string)
| VList (xs : list pyval)
| VDict (kvs : list (string * pyval)).

(** The exception classes that occur. *)
Inductive exn : Type :=
| TypeError
| AttributeError
| KeyError
| ValueError
| OverflowError
| OSError
| BadRequestKeyError
| ConnectionError
| RetryError
| HTTPError
| JSONDecodeError.

(** [isinstance(e, requests.exceptions.RequestException)] *)
Definition is_RequestException (e : exn) : bool :=
  match e with
  | ConnectionError | RetryError | HTTPError | JSONDecodeError => true
  | _ => false
  end.

(** [isinstance(e, Exception)]: every class above derives from it. *)
Definition is_Exception (e : exn) : bool := true.

Inductive outcome (A : Type) : Type :=
| Returned (a : A)
| Raised (e : exn).
Arguments Returned {A} a.
Arguments Raised {A} e.

(** [bool(v)] *)
Definition truthy (v : pyval) : bool :=
  match v with
  | VNone => false
  | VBool b => b
  | VInt n => negb (n =? 0)
  | VFloat Fnan => true
  | VFloat (Finf _) => true
  | VFloat (Ffin m _) => negb (m =? 0)
  | VStr s => negb (String.eqb s "")
  | VList xs => match xs with [] => false | _ => true end
  | VDict kvs => match kvs with [] => false | _ => true end
  end.

(** Dictionary lookup: the value bound to [k], if any. *)
Fixpoint dict_lookup (k : string) (kvs : list (string * pyval)) : option pyval :=
  match kvs with
  | [] => None
  | (k', v) :: rest => if String.eqb k' k then Some v else dict_lookup k rest
  end.

(** [needle in s] on strings. *)
Fixpoint str_contains (needle s : string) : bool :=
  String.prefix needle s ||
  match s with
  | EmptyString => false
  | String _ s' => str_contains needle s'
  end.

Definition is_str (k : string) (v : pyval) : bool :=
  match v with
  | VStr s => String.eqb s k
  | _ => false
  end.

(** [k in v] for a string [k]. *)
Definition py_in (k : string) (v : pyval) : outcome bool :=
  match v with
  | VDict kvs => Returned (match dict_lookup k kvs with Some _ => true | None => false end)
  | VList xs => Returned (existsb (is_str k) xs)
  | VStr s => Returned (str_contains k s)
  | VNone | VBool _ | VInt _ | VFloat _ => Raised TypeError
  end.

(** [v[k]] for a string [k]. *)
Definition py_getitem (v : pyval) (k : string) : outcome pyval :=
  match v with
  | VDict kvs => match dict_lookup k kvs with
                 | Some x => Returned x
                 | None => Raised KeyError
                 end
  | _ => Raised TypeError
  end.

(** [v.get(k)] *)
Definition py_get (v : pyval) (k : string) : outcome pyval :=
  match v with
  | VDict kvs => Returned (match dict_lookup k kvs with Some x => x | None => VNone end)
  | _ => Raised AttributeError
  end.

Fixpoint str_chars (s : string) : list pyval :=
  match s with
  | EmptyString => []
  | String c s' => VStr (String c EmptyString) :: str_chars s'
  end.

(** The items [for m in v] runs through. *)
Definition py_iter (v : pyval) : outcome (list pyval) :=
  match v with
  | VList xs => Returned xs
  | VStr s => Returned (str_chars s)
  | VDict kvs => Returned (map (fun kv => VStr (fst kv)) kvs)
  | VNone | VBool _ | VInt _ | VFloat _ => Raised TypeError
  end.

(** [v == n] for an integer [n]: Python compares numbers by value across
    [bool], [int] and [float]; any other value is unequal to an integer. *)
Definition py_eq_int (v : pyval) (n : Z) : bool :=
  match v with
  | VInt k => k =? n
  | VBool b => (if b then 1 else 0) =? n
  | VFloat (Ffin m e) =>
      if 0 <=? e then m * 2 ^ e =? n else m =? n * 2 ^ (- e)
  | _ => false
  end.

(** [a or b] on optional strings, as in [form.get(k) or "Unknown"]. *)
Definition str_or (a : option string) (b : string) : string :=
  match a with
  | Some s => if String.eqb s "" then b else s
  | None => b
  end.

(** Truthiness of [form.get(k)]. *)
Definition field_truthy (a : option string) : bool :=
  match a with
  | Some s => negb (String.eqb s "")
  | None => false
  end.

(* ===================================================================== *)
(** ** State and exceptions *)
(* ===================================================================== *)

(** A computation over a state [S] that returns or raises. A raise keeps
    the state reached so far: what was committed stays committed. *)
Definition M (S A : Type) : Type := S -> outcome A * S.

Definition ret {S A} (a : A) : M S A := fun s => (Returned a, s).
Definition raise {S A} (e : exn) : M S A := fun s => (Raised e, s).
Definition bind {S A B} (c : M S A) (k : A -> M S B) : M S B :=
  fun s => match c s with
           | (Returned a, s') => k a s'
           | (Raised e, s') => (Raised e, s')
           end.
Definition lift_outcome {S A} (o : outcome A) : M S A := fun s => (o, s).
Definition get_state {S} : M S S := fun s => (Returned s, s).
Definition put_state {S} (s' : S) : M S unit := fun _ => (Returned tt, s').

(** [try: c  except <class>: h] *)
Definition try_except {S A} (c : M S A) (catches : exn -> bool) (h : M S A) : M S A :=
  fun s => match c s with
           | (Raised e, s') => if catches e then h s' else (Raised e, s')
           | r => r
           end.

Notation "'let*' x ':=' c 'in' k" := (bind c (fun x => k))
  (at level 10, x name, c at level 100, k at level 200).
Notation "c ';;' k" := (bind c (fun _ => k))
  (at level 100, k at level 200, right associativity).

(* ===================================================================== *)
(** ** The metadata client: [session], [retries], [tmdb_get] *)
(* ===================================================================== *)

(** How one HTTP attempt ends. [body] is the JSON value of the response
    body, [None] when the body is not JSON; [retry_after] tells whether the
    response carries a [Retry-After] header. *)
Inductive attempt : Type :=
| ConnectFailed
| ReadFailed
| Response (status : Z) (retry_after : bool) (body : option pyval).

(** The network seen from the client: the end of the [n]-th attempt
    (counted from 0) of a GET on a path. *)
Definition network : Type := string -> nat -> attempt.

(** The arguments the source passes to [Retry(...)]. *)
Record Retry : Type := {
  total : Z;
  backoff_factor : Q;
  status_forcelist : list Z;
  allowed_methods : list string
}.

Definition retries : Retry := {|
  total := 4;
  backoff_factor := (6 # 10)%Q;
  status_forcelist := [429; 500; 502; 503; 504];
  allowed_methods := ["GET"]
|}.

Record response : Type := {
  status_code : Z;
  json_body : option pyval
}.

(** Library model: the retry loop of urllib3 that [HTTPAdapter] runs with
    [max_retries=retries], for the fields the source sets (every other
    counter of [Retry] keeps its default [None], [raise_on_status] and
    [respect_retry_after_header] their default [True]). Redirects, which
    the session follows by sending a new request, are not part of it. *)
Module Urllib3.

Definition RETRY_AFTER_STATUS_CODES : list Z := [413; 429; 503].

Definition mem (x : Z) (l : list Z) : bool := existsb (Z.eqb x) l.

(** [Retry.increment]: one retry less. *)
Definition increment (r : Retry) : Retry :=
  {| total := total r - 1;
     backoff_factor := backoff_factor r;
     status_forcelist := status_forcelist r;
     allowed_methods := allowed_methods r |}.

(** [Retry.is_exhausted]: a counter went below zero (a counter equal to
    zero is dropped by [filter(None, ...)]). *)
Definition is_exhausted (r : Retry) : bool := total r <? 0.

(** [Retry._is_method_retryable]: an empty [allowed_methods] allows all. *)
Definition is_method_retryable (r : Retry) (method : string) : bool :=
  match allowed_methods r with
  | [] => true
  | allowed => existsb (String.eqb method) allowed
  end.

Definition forcelist_empty (r : Retry) : bool :=
  match status_forcelist r with [] => true | _ :: _ => false end.

(** [Retry.is_retry(method, status_code, has_retry_after)] *)
Definition is_retry (r : Retry) (method : string) (status : Z) (has_retry_after : bool) : bool :=
  if negb (is_method_retryable r method) then false
  else if negb (forcelist_empty r) && mem status (status_forcelist r) then true
  else negb (total r =? 0) && has_retry_after && mem status RETRY_AFTER_STATUS_CODES.

(** [HTTPConnectionPool.urlopen]: attempt number [n] and, when it is to
    be retried, the call to itself with the incremented [Retry]. The
    result carries the number of attempts made. *)
Fixpoint urlopen (fuel : nat) (r : Retry) (method path : string) (net : network) (n : nat)
  : option (outcome response * nat) :=
  match fuel with
  | O => None
  | S fuel' =>
      match net path n with
      | ConnectFailed =>
          let r' := increment r in
          if is_exhausted r' then Some (Raised ConnectionError, S n)
          else urlopen fuel' r' method path net (S n)
      | ReadFailed =>
          if negb (is_method_retryable r method) then Some (Raised ConnectionError, S n)
          else
            let r' := increment r in
            if is_exhausted r' then Some (Raised ConnectionError, S n)
            else urlopen fuel' r' method path net (S n)
      | Response st ra body =>
          if is_retry r method st ra then
            let r' := increment r in
            if is_exhausted r' then Some (Raised RetryError, S n)
            else urlopen fuel' r' method path net (S n)
          else Some (Returned {| status_code := st; json_body := body |}, S n)
      end
  end.

(** Fuel that always suffices: one attempt per remaining retry, and one. *)
Definition enough (r : Retry) : nat := S (S (Z.to_nat (total r))).

End Urllib3.

(** [session.get(url, ...)] through the mounted adapter, with the number of
    HTTP attempts it made. *)
Definition session_get_counted (path : string) (net : network) : outcome response * nat :=
  match Urllib3.urlopen (Urllib3.enough retries) retries "GET" path net 0 with
  | Some res => res
  | None => (Raised ConnectionError, O)
  end.

Definition session_get (path : string) (net : network) : outcome response :=
  fst (session_get_counted path net).

(** [r.raise_for_status()] *)
Definition raise_for_status (r : response) : outcome unit :=
  if (400 <=? status_code r) && (status_code r <? 600) then Raised HTTPError
  else Returned tt.

(** [r.json()]: a body that is not JSON raises [JSONDecodeError], which is
    a [RequestException] (requests 2.27 and later). *)
Definition response_json (r : response) : outcome pyval :=
  match json_body r with
  | Some v => Returned v
  | None => Raised JSONDecodeError
  end.

Definition obind {A B} (o : outcome A) (k : A -> outcome B) : outcome B :=
  match o with
  | Returned a => k a
  | Raised e => Raised e
  end.

(** [tmdb_get(path, params)]: the JSON value of the answer, or [None]
    ([VNone]) after a [RequestException]. The query parameters only select
    what the server answers, which [net] decides. *)
Definition tmdb_get {S} (path : string) (net : network) : M S pyval :=
  try_except
    (let* r := lift_outcome (session_get path net) in
     lift_outcome (raise_for_status r) ;;
     lift_outcome (response_json r))
    is_RequestException
    (ret VNone).

(* ===================================================================== *)
(** ** The snapshot cache: [cache_read], [cache_write] *)
(* ===================================================================== *)

(** A file of the cache directory either holds the JSON text of a value
    ([json.loads] of [json.dumps v] is [v]) or text that does not parse. A
    name that is not bound is a file that does not exist. *)
Inductive file_state : Type :=
| Unreadable
| Holds (v : pyval).

Abbreviation cache := (gmap string file_state).

(** What the disk does with one [write_text(json.dumps(data))]: it works;
    it fails before the file is touched (the value does not serialize, the
    file cannot be opened); or it fails after the file was truncated. *)
Inductive disk : Type :=
| DiskOk
| DiskFailsUntouched
| DiskFailsTruncated.

(** [CACHE_DIR / name] *)
Definition CACHE_DIR : string := "cache".
Definition cache_path (name : string) : string := CACHE_DIR ++ "/" ++ name.

(** [str(n)] *)
Definition str_of_int (n : Z) : string := NilZero.string_of_int (Z.to_int n).

(** [file.write_text(json.dumps(data), encoding="utf-8")] *)
Definition write_text_dumps (file : string) (data : pyval) (d : disk) : M cache unit :=
  fun fs => match d with
            | DiskOk => (Returned tt, <[file := Holds data]> fs)
            | DiskFailsUntouched => (Raised OSError, fs)
            | DiskFailsTruncated => (Raised OSError, <[file := Unreadable]> fs)
            end.

(** [json.loads(file.read_text(encoding="utf-8"))] of an existing file *)
Definition loads_read_text (st : file_state) : M cache pyval :=
  match st with
  | Holds v => ret v
  | Unreadable => raise ValueError
  end.

Definition cache_read (file : string) : M cache pyval :=
  let* fs := get_state in
  match fs !! file with
  | Some st => try_except (loads_read_text st) is_Exception (ret VNone)
  | None => ret VNone
  end.

Definition cache_write (file : string) (data : pyval) (d : disk) : M cache unit :=
  try_except (write_text_dumps file data d) is_Exception (ret tt).

(* ===================================================================== *)
(** ** The catalog: [get_recent_movies], [get_movie_details] *)
(* ===================================================================== *)

(** [m.get("id") and m.get("title") and m.get("poster_path")], as the
    condition of the comprehension. *)
Definition is_complete (m : pyval) : outcome bool :=
  obind (py_get m "id") (fun i =>
  if truthy i then
    obind (py_get m "title") (fun t =>
    if truthy t then
      obind (py_get m "poster_path") (fun p => Returned (truthy p))
    else Returned false)
  else Returned false).

(** [[m for m in items if <is_complete m>]] *)
Fixpoint keep_complete (items : list pyval) : outcome (list pyval) :=
  match items with
  | [] => Returned []
  | m :: rest =>
      obind (is_complete m) (fun keep =>
      obind (keep_complete rest) (fun ms =>
      Returned (if keep then m :: ms else ms)))
  end.

(** One of the two identical blocks of [get_recent_movies]:
    [if data and "results" in data: movies = [...]; if movies: cache_write;
    return movies], and [otherwise] for what follows the block. *)
Definition live_block (data : pyval) (cache_file : string) (d : disk)
    (otherwise : M cache pyval) : M cache pyval :=
  let* has := (if truthy data then lift_outcome (py_in "results" data) else ret false) in
  if has then
    let* rs := lift_outcome (py_getitem data "results") in
    let* items := lift_outcome (py_iter rs) in
    let* movies := lift_outcome (keep_complete items) in
    if truthy (VList movies) then
      (cache_write cache_file (VList movies) d ;; ret (VList movies))
    else otherwise
  else otherwise.

(** [cached or []] *)
Definition or_empty_list (cached : pyval) : pyval :=
  if truthy cached then cached else VList [].

Definition get_recent_movies (net : network) (d : disk) : M cache pyval :=
  let cache_file := cache_path "recent.json" in
  let* data := tmdb_get "/discover/movie" net in
  live_block data cache_file d (
    let* trend := tmdb_get "/trending/movie/week" net in
    live_block trend cache_file d (
      let* cached := cache_read cache_file in
      ret (or_empty_list cached))).

Definition get_movie_details (movie_id : Z) (net : network) (d : disk) : M cache pyval :=
  let cache_file := cache_path ("movie_" ++ str_of_int movie_id ++ ".json") in
  let* data := tmdb_get ("/movie/" ++ str_of_int movie_id) net in
  let* same := (if truthy data
                then let* i := lift_outcome (py_get data "id") in ret (py_eq_int i movie_id)
                else ret false) in
  if same then (cache_write cache_file data d ;; ret data)
  else cache_read cache_file.

(* ===================================================================== *)
(** ** The relational store: [models.py] *)
(* ===================================================================== *)

Module User.
Record row : Type := {
  id : Z;
  name : string;
  email : string;
  password : string
}.
End User.

Module Booking.
Record row : Type := {
  id : Z;
  user_id : Z;
  movie_id : Z;
  movie_title : string;
  name : string;
  email : string;
  seats : Z;
  showtime : string;
  date : string;
  created_at : Z
}.
End Booking.

(** The state the handlers work on: both tables and the cache directory. *)
Record world : Type := {
  users : list User.row;
  bookings : list Booking.row;
  files : cache
}.

(** The primary key SQLite gives a new row of an [INTEGER PRIMARY KEY]
    table: one more than the largest in use, 1 in an empty table. *)
Definition fresh_id (ids : list Z) : Z := 1 + fold_right Z.max 0 ids.

(** Run a cache computation on the cache directory of the world. *)
Definition on_cache {A} (c : M cache A) : M world A :=
  fun w => match c (files w) with
           | (r, fs') => (r, {| users := users w; bookings := bookings w; files := fs' |})
           end.

(** The integers that the SQLite driver can bind to a statement are the
    64-bit ones. *)
Definition in_int64 (n : Z) : bool := (- 2 ^ 63 <=? n) && (n <? 2 ^ 63).

(** Binding the integers [params] that came with the request: one outside
    the range is an [OverflowError] of the driver, and the statement is not
    run. *)
Definition bind_params {S} (params : list Z) : M S unit :=
  if forallb in_int64 params then ret tt else raise OverflowError.

(** [Booking.query.filter_by(...).first()] for a row filter; [params] are
    the integers of the request that the filter compares with. *)
Definition booking_first (params : list Z) (p : Booking.row -> bool)
  : M world (option Booking.row) :=
  bind_params params ;;
  fun w => (Returned (find p (bookings w)), w).

(** [User.query.filter_by(...).first()] *)
Definition user_first (p : User.row -> bool) : M world (option User.row) :=
  fun w => (Returned (find p (users w)), w).

(** [db.session.add(Booking(...)); db.session.commit()]: the row gets its
    primary key on insertion. The [INSERT] binds [movie_id] and [seats],
    which came with the request; when the driver refuses one of them the
    commit raises and no row is written. *)
Definition add_booking (mk : Z -> Booking.row) : M world unit :=
  fun w =>
    let row := mk (fresh_id (map Booking.id (bookings w))) in
    match bind_params [Booking.movie_id row; Booking.seats row] w with
    | (Returned _, _) =>
        (Returned tt,
         {| users := users w; bookings := bookings w ++ [row]; files := files w |})
    | (Raised e, _) => (Raised e, w)
    end.

Definition add_user (mk : Z -> User.row) : M world unit :=
  fun w => (Returned tt,
            {| users := users w ++ [mk (fresh_id (map User.id (users w)))];
               bookings := bookings w;
               files := files w |}).

(** [db.session.delete(booking); db.session.commit()]: deletes by primary
    key. *)
Definition delete_booking (booking : Booking.row) : M world unit :=
  fun w => (Returned tt,
            {| users := users w;
               bookings := List.filter (fun b => negb (Booking.id b =? Booking.id booking)) (bookings w);
               files := files w |}).

(* ===================================================================== *)
(** ** Requests, form fields and [int(...)] *)
(* ===================================================================== *)

Inductive http_method : Type := GET | POST.

Record request : Type := {
  method : http_method;
  form : list (string * string)
}.

(** [request.form.get(k)]: the first value sent for [k]. *)
Fixpoint form_get (k : string) (fields : list (string * string)) : option string :=
  match fields with
  | [] => None
  | (k', v) :: rest => if String.eqb k' k then Some v else form_get k rest
  end.

(** [request.form[k]]: a missing field is a 400 (Bad Request) error. *)
Definition form_item {S} (k : string) (fields : list (string * string)) : M S string :=
  match form_get k fields with
  | Some v => ret v
  | None => raise BadRequestKeyError
  end.

(** The string a truthy [form.get(k)] is. *)
Definition field_str (a : option string) : string :=
  match a with
  | Some s => s
  | None => ""
  end.

(** The text has ASCII characters only ([s.isascii()]). *)
Fixpoint is_ascii (s : string) : bool :=
  match s with
  | EmptyString => true
  | String c s' => (nat_of_ascii c <? 128)%nat && is_ascii s'
  end.

(** The ASCII white space that [int] skips around a number: tab, line feed,
    vertical tab, form feed, carriage return and space. *)
Definition is_space (c : ascii) : bool :=
  let n := nat_of_ascii c in
  ((9 <=? n) && (n <=? 13) || (n =? 32))%nat.

(** The ASCII white space of [str.strip()]: the above and the separators
    U+001C to U+001F. *)
Definition is_strip_space (c : ascii) : bool :=
  let n := nat_of_ascii c in
  ((9 <=? n) && (n <=? 13) || (28 <=? n) && (n <=? 32))%nat.

(** The most digits that [int] reads (CPython 3.11,
    [sys.get_int_max_str_digits()]); more are a [ValueError]. *)
Definition INT_MAX_STR_DIGITS : nat := 4300.

Definition digit_of (c : ascii) : option Z :=
  let n := nat_of_ascii c in
  if ((48 <=? n) && (n <=? 57))%nat then Some (Z.of_nat n - 48) else None.

Fixpoint lstrip (s : string) : string :=
  match s with
  | String c s' => if is_space c then lstrip s' else s
  | EmptyString => EmptyString
  end.

Fixpoint rstrip (s : string) : string :=
  match s with
  | String c s' =>
      match rstrip s' with
      | EmptyString => if is_space c then EmptyString else String c EmptyString
      | r => String c r
      end
  | EmptyString => EmptyString
  end.

(** Decimal digits with single underscores between them. [after_digit]
    tells whether the previous character was a digit. *)
Fixpoint parse_digits (acc : Z) (after_digit : bool) (s : string) : option Z :=
  match s with
  | EmptyString => if after_digit then Some acc else None
  | String c s' =>
      match digit_of c with
      | Some dg => parse_digits (10 * acc + dg) true s'
      | None =>
          if Ascii.eqb c "_" && after_digit then parse_digits acc false s'
          else None
      end
  end.

(** [s.strip()] for ASCII text: [strip] also removes the spaces of the
    rest of Unicode, which this function leaves where they are. *)
Fixpoint py_lstrip (s : string) : string :=
  match s with
  | String c s' => if is_strip_space c then py_lstrip s' else s
  | EmptyString => EmptyString
  end.

Fixpoint py_rstrip (s : string) : string :=
  match s with
  | String c s' =>
      match py_rstrip s' with
      | EmptyString => if is_strip_space c then EmptyString else String c EmptyString
      | r => String c r
      end
  | EmptyString => EmptyString
  end.

Definition py_strip (s : string) : string := py_rstrip (py_lstrip s).

(** [int(s)] for ASCII text of at most [INT_MAX_STR_DIGITS] characters:
    surrounding white space, an optional sign, decimal digits with single
    underscores between them; [ValueError] otherwise. The function reads
    ASCII only and applies no limit: [int] also reads the decimal digits
    and skips the spaces of the rest of Unicode, and it refuses more digits
    than the limit. What is stated of the text of a request is therefore
    stated of ASCII text within the limit ([reads_as], [is_ascii]). *)
Definition py_int (s : string) : outcome Z :=
  let body := rstrip (lstrip s) in
  let parsed :=
    match body with
    | String c rest =>
        if Ascii.eqb c "-" then option_map Z.opp (parse_digits 0 false rest)
        else if Ascii.eqb c "+" then parse_digits 0 false rest
        else parse_digits 0 false body
    | EmptyString => None
    end in
  match parsed with
  | Some n => Returned n
  | None => Raised ValueError
  end.

(* ===================================================================== *)
(** ** The routes: [movie_page], [cancel_booking], [register] *)
(* ===================================================================== *)

(** The arguments of [render_template("movie.html", ...)]. *)
Record movie_html : Type := {
  movie : pyval;
  booking_success : bool;
  available_dates : list string;
  message : option string;
  message_type : option string
}.

(** What a route returns. *)
Inductive reply : Type :=
| MovieHtml (ctx : movie_html)
| BookingCancelledHtml (msg msg_type : string)
| RegisterHtml (msg msg_type : option string)
| RedirectTo (endpoint : string) (msg msg_type : option string).

Definition MSG_INCOMPLETE : string :=
  "🎬 Please complete all fields to book your cinematic adventure!".
Definition MSG_DUPLICATE : string :=
  "🚫 You have already booked this movie for the selected showtime and date.".
Definition MSG_SUCCESS : string :=
  "🍿 Booking successful! Get ready for a blockbuster experience.".
Definition MSG_UNAVAILABLE : string :=
  "🚫 Movie details unavailable right now. Please try again later.".
Definition MSG_CANCELLED : string :=
  "❌ Booking Cancelled — Your ticket has been released!".
Definition MSG_REGISTERED : string :=
  "⚠️ Email already registered! Try logging in.".
Definition MSG_CREATED : string :=
  "✅ Account created! Please log in to start booking.".

(** The clock: [now] is [datetime.now()], [today_plus i] is
    [(date.today() + timedelta(days=i)).isoformat()]. *)
Record clock : Type := {
  now : Z;
  today_plus : nat -> string
}.

(** The filter of the duplicate check. *)
Definition same_booking (movie_id user_id : Z) (showtime date : string)
    (b : Booking.row) : bool :=
  (Booking.movie_id b =? movie_id) && (Booking.user_id b =? user_id)
  && String.eqb (Booking.showtime b) showtime && String.eqb (Booking.date b) date.

(** The POST branch of [movie_page]: the values of [booking_success],
    [message] and [message_type] it leaves. *)
Definition submit_booking (req : request) (movie_id : Z) (current_user : User.row)
    (clk : clock) : M world (bool * option string * option string) :=
  let movie_title := str_or (form_get "movie_title" (form req)) "Unknown" in
  let seats := form_get "seats" (form req) in
  let showtime := form_get "showtime" (form req) in
  let date_selected := form_get "date" (form req) in
  if negb (field_truthy seats && field_truthy showtime && field_truthy date_selected) then
    ret (false, Some MSG_INCOMPLETE, Some "warning")
  else
    let* existing := booking_first [movie_id]
                       (same_booking movie_id (User.id current_user)
                                     (field_str showtime) (field_str date_selected)) in
    match existing with
    | Some _ => ret (false, Some MSG_DUPLICATE, Some "error")
    | None =>
        let* n := lift_outcome (py_int (field_str seats)) in
        add_booking (fun new_id =>
          {| Booking.id := new_id;
             Booking.user_id := User.id current_user;
             Booking.movie_id := movie_id;
             Booking.movie_title := movie_title;
             Booking.name := User.name current_user;
             Booking.email := User.email current_user;
             Booking.seats := n;
             Booking.showtime := field_str showtime;
             Booking.date := field_str date_selected;
             Booking.created_at := now clk |}) ;;
        ret (true, Some MSG_SUCCESS, Some "success")
    end.

(** [/movie/<int:movie_id>], for the logged-in [current_user]. *)
Definition movie_page (req : request) (movie_id : Z) (current_user : User.row)
    (clk : clock) (net : network) (d : disk) : M world reply :=
  let* st := match method req with
             | POST => submit_booking req movie_id current_user clk
             | GET => ret (false, None, None)
             end in
  let '(success, msg, msg_type) := st in
  let* mv := on_cache (get_movie_details movie_id net d) in
  if negb (truthy mv) then
    ret (MovieHtml {| movie := VNone; booking_success := false; available_dates := [];
                      message := Some MSG_UNAVAILABLE; message_type := Some "error" |})
  else
    ret (MovieHtml {| movie := mv; booking_success := success;
                      available_dates := map (today_plus clk) (seq 0 7);
                      message := msg; message_type := msg_type |}).

(** [/cancel/<int:booking_id>], for the logged-in [current_user]. *)
Definition cancel_booking (booking_id : Z) (current_user : User.row) : M world reply :=
  let* found := booking_first [booking_id] (fun b =>
                  (Booking.id b =? booking_id)
                  && String.eqb (Booking.email b) (User.email current_user)) in
  match found with
  | Some booking =>
      delete_booking booking ;;
      ret (BookingCancelledHtml MSG_CANCELLED "error")
  | None => ret (RedirectTo "dashboard" None None)
  end.

(** [/register]; [hash] is [generate_password_hash] with the salt it draws. *)
Definition register (req : request) (hash : string -> string) : M world reply :=
  match method req with
  | POST =>
      let* name := form_item "name" (form req) in
      let* email := form_item "email" (form req) in
      let* pw := form_item "password" (form req) in
      let password := hash pw in
      let* taken := user_first (fun u => String.eqb (User.email u) email) in
      match taken with
      | Some _ => ret (RegisterHtml (Some MSG_REGISTERED) (Some "danger"))
      | None =>
          add_user (fun new_id =>
            {| User.id := new_id; User.name := name;
               User.email := email; User.password := password |}) ;;
          ret (RedirectTo "login" (Some MSG_CREATED) (Some "success"))
      end
  | GET => ret (RegisterHtml None None)
  end.

(* ===================================================================== *)
(** ** Reachable states and what they satisfy *)
(* ===================================================================== *)

(** The state of a fresh installation. *)
Definition initial : world := {| users := []; bookings := []; files := ∅ |}.

(** One request. [/] and [/logout] change the state through
    [get_recent_movies], [/dashboard] through [get_movie_details]; the
    routes behind [login_required] run for a row of the user table. *)
Inductive step : world -> world -> Prop :=
| step_recent net d w :
    step w (snd (on_cache (get_recent_movies net d) w))
| step_details movie_id net d w :
    step w (snd (on_cache (get_movie_details movie_id net d) w))
| step_movie_page req movie_id u clk net d w :
    In u (users w) ->
    step w (snd (movie_page req movie_id u clk net d w))
| step_cancel booking_id u w :
    In u (users w) ->
    step w (snd (cancel_booking booking_id u w))
| step_register req hash w :
    step w (snd (register req hash w)).

Inductive reachable : world -> Prop :=
| reachable_initial : reachable initial
| reachable_step w w' : reachable w -> step w w' -> reachable w'.

(** [m.get(k)] is a non-empty value. *)
Definition nonempty_field (m : pyval) (k : string) : Prop :=
  exists x, py_get m k = Returned x /\ truthy x = true.

(** A movie record with identifier, title and poster path. *)
Definition complete_record (m : pyval) : Prop :=
  nonempty_field m "id" /\ nonempty_field m "title" /\ nonempty_field m "poster_path".

(** A record whose identifier is [k], by the [==] of the source. *)
Definition has_id (v : pyval) (k : Z) : Prop :=
  exists i, py_get v "id" = Returned i /\ py_eq_int i k = true.

Definition recent_file : string := cache_path "recent.json".
Definition movie_file (k : Z) : string := cache_path ("movie_" ++ str_of_int k ++ ".json").

(** What the files of the cache directory hold. *)
Definition cache_ok (fs : cache) : Prop :=
  (forall v, fs !! recent_file = Some (Holds v) ->
     exists movies, v = VList movies /\ movies <> [] /\ Forall complete_record movies)
  /\ (forall k v, fs !! movie_file k = Some (Holds v) -> truthy v = true /\ has_id v k).

(** The tuple that identifies a booking. *)
Definition booking_key (b : Booking.row) : Z * Z * string * string :=
  (Booking.user_id b, Booking.movie_id b, Booking.showtime b, Booking.date b).

(** The owner of a booking is a row of the user table, and the booking
    carries that user's email. *)
Definition owned (us : list User.row) (b : Booking.row) : Prop :=
  exists u, In u us /\ User.id u = Booking.user_id b /\ User.email u = Booking.email b.

Record store_ok (w : world) : Prop := {
  unique_booking_keys : List.NoDup (map booking_key (bookings w));
  unique_booking_ids : List.NoDup (map Booking.id (bookings w));
  unique_user_ids : List.NoDup (map User.id (users w));
  unique_user_emails : List.NoDup (map User.email (users w));
  bookings_owned : Forall (owned (users w)) (bookings w)
}.

(** What [cache_write] leaves on disk. *)
Definition after_write (file : string) (data : pyval) (d : disk) (fs : cache) : cache :=
  match d with
  | DiskOk => <[file := Holds data]> fs
  | DiskFailsUntouched => fs
  | DiskFailsTruncated => <[file := Unreadable]> fs
  end.

(** What [cache_read] finds. *)
Definition stored (file : string) (fs : cache) : pyval :=
  match fs !! file with
  | Some (Holds v) => v
  | _ => VNone
  end.

Definition is_dict (v : pyval) : bool :=
  match v with VDict _ => true | _ => false end.

(** The value of field [k] of a record, [VNone] when it has none. *)
Definition field (m : pyval) (k : string) : pyval :=
  match m with
  | VDict kvs => match dict_lookup k kvs with Some x => x | None => VNone end
  | _ => VNone
  end.

(** What [tmdb_get] returns for a path: the JSON value of the last
    response when its status is no error, [VNone] otherwise. *)
Definition answer (path : string) (net : network) : pyval :=
  match session_get path net with
  | Returned r =>
      if (400 <=? status_code r) && (status_code r <? 600) then VNone
      else match json_body r with Some v => v | None => VNone end
  | Raised _ => VNone
  end.

(** [complete_record], decided. *)
Definition complete_b (m : pyval) : bool :=
  is_dict m && truthy (field m "id") && truthy (field m "title")
  && truthy (field m "poster_path").

(** The answer of a live query has nothing to show: the query failed
    ([VNone]) or its answer is empty, or the answer has no [results], or
    its [results] are a list of records none of which is complete. *)
Definition nothing_usable (data : pyval) : bool :=
  negb (truthy data)
  || match data with
     | VDict kvs =>
         match dict_lookup "results" kvs with
         | None => true
         | Some (VList items) => forallb (fun m => is_dict m && negb (complete_b m)) items
         | Some _ => false
         end
     | _ => false
     end.

(** The answer of a live query shows [movies]: its [results] are a list of
    records, [movies] are the complete ones, and there is one at least. *)
Definition shows (data : pyval) (movies : list pyval) : Prop :=
  exists kvs items,
    data = VDict kvs /\ dict_lookup "results" kvs = Some (VList items)
    /\ forallb is_dict items = true
    /\ movies = List.filter complete_b items
    /\ movies <> [].

(* ===================================================================== *)
(** ** Vocabulary of the statements, and sample data *)
(* ===================================================================== *)

(** The three ways a block of [get_recent_movies] can end. *)
Inductive block_end (data : pyval) (file : string) (d : disk)
    (otherwise : M cache pyval) (fs : cache) : outcome pyval * cache -> Prop :=
| block_returns movies :
    movies <> [] -> Forall complete_record movies ->
    block_end data file d otherwise fs
              (Returned (VList movies), after_write file (VList movies) d fs)
| block_falls_through :
    block_end data file d otherwise fs (otherwise fs)
| block_raises e :
    e = TypeError \/ e = AttributeError ->
    block_end data file d otherwise fs (Raised e, fs).

(** What [get_recent_movies] returns and leaves, from a well-formed cache. *)
Definition recent_result (r : outcome pyval) : Prop :=
  match r with
  | Returned v => exists movies, v = VList movies /\ Forall complete_record movies
  | Raised e => e = TypeError \/ e = AttributeError
  end.

(** What [get_movie_details] returns and leaves, from a well-formed cache. *)
Definition details_result (k : Z) (r : outcome pyval) : Prop :=
  match r with
  | Returned v => v = VNone \/ (truthy v = true /\ has_id v k)
  | Raised e => e = AttributeError
  end.

Definition set_files (w : world) (fs : cache) : world :=
  {| users := users w; bookings := bookings w; files := fs |}.

Definition set_bookings (w : world) (bs : list Booking.row) : world :=
  {| users := users w; bookings := bs; files := files w |}.

(** The row a successful submission inserts. *)
Definition new_booking (req : request) (movie_id : Z) (u : User.row) (clk : clock)
    (n : Z) (w : world) : Booking.row :=
  {| Booking.id := fresh_id (map Booking.id (bookings w));
     Booking.user_id := User.id u;
     Booking.movie_id := movie_id;
     Booking.movie_title := str_or (form_get "movie_title" (form req)) "Unknown";
     Booking.name := User.name u;
     Booking.email := User.email u;
     Booking.seats := n;
     Booking.showtime := field_str (form_get "showtime" (form req));
     Booking.date := field_str (form_get "date" (form req));
     Booking.created_at := now clk |}.

(** All three fields of the form are present and non-empty. *)
Definition fields_given (req : request) : bool :=
  field_truthy (form_get "seats" (form req))
  && field_truthy (form_get "showtime" (form req))
  && field_truthy (form_get "date" (form req)).

(** The text [s] of a form field reads as the integer [n]: it has no more
    characters than [int] accepts digits, [int] gives [n], and [n] fits an
    integer column of the store. *)
Definition reads_as (s : string) (n : Z) : Prop :=
  (String.length s <=? INT_MAX_STR_DIGITS)%nat = true
  /\ py_int s = Returned n
  /\ in_int64 n = true.

(** The integers of the request that the row carries fit the store. *)
Definition fits (b : Booking.row) : Prop :=
  in_int64 (Booking.movie_id b) = true /\ in_int64 (Booking.seats b) = true.

(** The first integer past the 64-bit range, and its text. *)
Definition TWO_63 : Z := 2 ^ 63.
Definition two_63 : string := "9223372036854775808".

(** The row, if any, that makes a submission a duplicate. *)
Definition existing (req : request) (movie_id : Z) (u : User.row) (w : world)
  : option Booking.row :=
  find (same_booking movie_id (User.id u)
          (field_str (form_get "showtime" (form req)))
          (field_str (form_get "date" (form req))))
       (bookings w).

(** The ways the POST branch can end. *)
Inductive submitted (req : request) (movie_id : Z) (u : User.row) (clk : clock)
    (w : world) : outcome (bool * option string * option string) * world -> Prop :=
| sub_incomplete :
    fields_given req = false ->
    submitted req movie_id u clk w
      (Returned (false, Some MSG_INCOMPLETE, Some "warning"), w)
| sub_unbound_movie :
    fields_given req = true -> in_int64 movie_id = false ->
    submitted req movie_id u clk w (Raised OverflowError, w)
| sub_duplicate b :
    fields_given req = true -> in_int64 movie_id = true ->
    existing req movie_id u w = Some b ->
    submitted req movie_id u clk w
      (Returned (false, Some MSG_DUPLICATE, Some "error"), w)
| sub_bad_seats :
    fields_given req = true -> in_int64 movie_id = true ->
    existing req movie_id u w = None ->
    py_int (field_str (form_get "seats" (form req))) = Raised ValueError ->
    submitted req movie_id u clk w (Raised ValueError, w)
| sub_unbound_seats n :
    fields_given req = true -> in_int64 movie_id = true ->
    existing req movie_id u w = None ->
    py_int (field_str (form_get "seats" (form req))) = Returned n ->
    in_int64 n = false ->
    submitted req movie_id u clk w (Raised OverflowError, w)
| sub_commits n :
    fields_given req = true -> in_int64 movie_id = true ->
    existing req movie_id u w = None ->
    py_int (field_str (form_get "seats" (form req))) = Returned n ->
    in_int64 n = true ->
    submitted req movie_id u clk w
      (Returned (true, Some MSG_SUCCESS, Some "success"),
       set_bookings w (bookings w ++ [new_booking req movie_id u clk n w])).

(** The part of [movie_page] before the detail lookup. *)
Definition post_part (req : request) (movie_id : Z) (u : User.row) (clk : clock)
  : M world (bool * option string * option string) :=
  match method req with
  | POST => submit_booking req movie_id u clk
  | GET => ret (false, None, None)
  end.

Definition unavailable_html : movie_html :=
  {| movie := VNone; booking_success := false; available_dates := [];
     message := Some MSG_UNAVAILABLE; message_type := Some "error" |}.

(** The page [movie_page] renders for what the lookup returned. *)
Definition rendered (clk : clock) (st : bool * option string * option string)
    (mv : pyval) : movie_html :=
  if negb (truthy mv) then unavailable_html
  else {| movie := mv; booking_success := fst (fst st);
          available_dates := map (today_plus clk) (seq 0 7);
          message := snd (fst st); message_type := snd st |}.

(** The state is well formed: the store and the cache directory are. *)
Definition world_ok (w : world) : Prop := store_ok w /\ cache_ok (files w).

(** Sample data: a complete record, a record with no title, and a network
    whose answers are fixed per path. *)
Definition heat : pyval :=
  VDict [("id", VInt 7); ("title", VStr "Heat"); ("poster_path", VStr "/heat.jpg")].

Definition untitled : pyval :=
  VDict [("id", VInt 8); ("poster_path", VStr "/x.jpg")].

Definition net_live : network := fun path _ =>
  if String.eqb path "/discover/movie"
  then Response 200 false (Some (VDict [("page", VInt 1); ("results", VList [untitled; heat])]))
  else if String.eqb path "/movie/7" then Response 200 false (Some heat)
  else Response 404 false None.

Definition net_down : network := fun _ _ => ConnectFailed.

(** The list a failing or empty pair of live queries falls back to. *)
Definition cached_recent (fs : cache) : pyval :=
  match fs !! recent_file with
  | Some (Holds v) => v
  | _ => VList []
  end.

(** An attempt that the configured policy answers with another attempt,
    while retries remain: a transport failure, a response whose status is
    in [status_forcelist], or a 413 that carries [Retry-After]. *)
Definition retryable (a : attempt) : bool :=
  match a with
  | ConnectFailed | ReadFailed => true
  | Response st ra _ => Urllib3.mem st (status_forcelist retries) || (ra && (st =? 413))
  end.

(** A [Retry] that differs from [retries] in the retries left only. *)
Definition configured (r : Retry) : Prop :=
  status_forcelist r = status_forcelist retries
  /\ allowed_methods r = allowed_methods retries.

(** A server that always answers 503, and a connection that fails once. *)
Definition always_503 : network := fun _ _ => Response 503 false None.

Definition fails_once : network := fun _ n =>
  match n with
  | O => ConnectFailed
  | S _ => Response 200 false (Some (VDict [("results", VList [])]))
  end.

Definition too_large_once : network := fun _ n =>
  match n with
  | O => Response 413 true None
  | S _ => Response 200 false (Some (VDict [("results", VList [])]))
  end.

(** Sample data: two registered users and some submissions. *)
Definition POST_form (fields : list (string * string)) : request :=
  {| method := POST; form := fields |}.

Definition some_hash : string -> string := fun pw => ("pbkdf2:sha256$" ++ pw)%string.

Definition some_clock : clock := {| now := 1700000000; today_plus := fun _ => "2026-01-01" |}.

Definition alice : User.row :=
  {| User.id := 1; User.name := "Alice"; User.email := "alice@example.com";
     User.password := some_hash "a" |}.

Definition bob : User.row :=
  {| User.id := 2; User.name := "Bob"; User.email := "bob@example.com";
     User.password := some_hash "b" |}.

Definition world_a : world :=
  snd (register (POST_form [("name", "Alice"); ("email", "alice@example.com");
                            ("password", "a")]) some_hash initial).

Definition world_ab : world :=
  snd (register (POST_form [("name", "Bob"); ("email", "bob@example.com");
                            ("password", "b")]) some_hash world_a).

Definition book (seats showtime date : string) : request :=
  POST_form [("movie_title", "Heat"); ("seats", seats); ("showtime", showtime);
             ("date", date)].

(** A form field that was not sent or was sent empty. *)
Definition missing_or_empty (a : option string) : Prop := a = None \/ a = Some "".

(** The rows that match a booking tuple. *)
Definition matching (movie_id user_id : Z) (showtime date : string)
    (bs : list Booking.row) : list Booking.row :=
  List.filter (same_booking movie_id user_id showtime date) bs.

Definition world_booked : world :=
  snd (movie_page (book "2" "18:00" "2026-01-02") 7 alice some_clock net_live DiskOk world_ab).

(* ===================================================================== *)
(** ** The other routes: [load_user], [index], [login], [logout], [dashboard] *)
(* ===================================================================== *)

(** [User.query.get(n)]: the row with that primary key. The key is read
    from the session, where Flask-Login wrote the text of an identifier of
    the store. *)
Definition user_get (n : Z) : M world (option User.row) :=
  fun w => (Returned (find (fun u => User.id u =? n) (users w)), w).

(** [load_user(user_id)], the [user_loader]: [User.query.get(int(user_id))] *)
Definition load_user (user_id : string) : M world (option User.row) :=
  let* n := lift_outcome (py_int user_id) in
  user_get n.

(** The store with what the login session holds. Library model: Flask-Login
    keeps [user.get_id()], which for a [UserMixin] is [str(user.id)], in the
    session, and gets [current_user] by calling the [user_loader] on it. *)
Record site : Type := {
  store : world;
  session_user_id : option string
}.

(** Run a computation on the store of the site. *)
Definition on_store {A} (c : M world A) : M site A :=
  fun s => match c (store s) with
           | (r, w') => (r, {| store := w'; session_user_id := session_user_id s |})
           end.

(** [login_user(user)] *)
Definition login_user (u : User.row) : M site unit :=
  fun s => (Returned tt,
            {| store := store s; session_user_id := Some (str_of_int (User.id u)) |}).

(** [logout_user()] *)
Definition logout_user : M site unit :=
  fun s => (Returned tt, {| store := store s; session_user_id := None |}).

(** [current_user], [None] for an anonymous visitor. *)
Definition current_user : M site (option User.row) :=
  let* s := get_state in
  match session_user_id s with
  | Some uid => on_store (load_user uid)
  | None => ret None
  end.

(** [GENRE_MAP] *)
Definition GENRE_MAP : list (Z * string) :=
  [(28, "Action"); (35, "Comedy"); (18, "Drama"); (27, "Horror");
   (10749, "Romance"); (878, "Sci-Fi"); (16, "Animation");
   (53, "Thriller"); (12, "Adventure")].

(** A value that can be a dictionary key: lists and dictionaries cannot. *)
Definition hashable (v : pyval) : bool :=
  match v with
  | VList _ | VDict _ => false
  | _ => true
  end.

(** [GENRE_MAP.get(g, "Other")]: the name of the key that [g] equals. *)
Definition genre_name (g : pyval) : outcome string :=
  if hashable g then
    Returned (match find (fun kv => py_eq_int g (fst kv)) GENRE_MAP with
              | Some kv => snd kv
              | None => "Other"
              end)
  else Raised TypeError.

(** [v.get(k, dflt)] *)
Definition py_get_default (v : pyval) (k : string) (dflt : pyval) : outcome pyval :=
  match v with
  | VDict kvs => Returned (match dict_lookup k kvs with Some x => x | None => dflt end)
  | _ => Raised AttributeError
  end.

(** [genre_movies[name].append(m)] on a [defaultdict(list)], whose keys stay
    in the order of their first use. *)
Fixpoint group_append (name : string) (m : pyval) (groups : list (string * list pyval))
  : list (string * list pyval) :=
  match groups with
  | [] => [(name, [m])]
  | (n, ms) :: rest =>
      if String.eqb n name then (n, ms ++ [m]) :: rest
      else (n, ms) :: group_append name m rest
  end.

(** [for g in <genre ids of m>: genre_movies[GENRE_MAP.get(g, "Other")].append(m)] *)
Fixpoint group_genres (m : pyval) (gs : list pyval) (groups : list (string * list pyval))
  : outcome (list (string * list pyval)) :=
  match gs with
  | [] => Returned groups
  | g :: rest =>
      obind (genre_name g) (fun name =>
      group_genres m rest (group_append name m groups))
  end.

(** [for m in movies: for g in m.get("genre_ids", []): ...] *)
Fixpoint group_movies (items : list pyval) (groups : list (string * list pyval))
  : outcome (list (string * list pyval)) :=
  match items with
  | [] => Returned groups
  | m :: rest =>
      obind (py_get_default m "genre_ids" (VList [])) (fun ids =>
      obind (py_iter ids) (fun gs =>
      obind (group_genres m gs groups) (fun groups' =>
      group_movies rest groups')))
  end.

(** The arguments of [render_template("index.html", ...)]; [/logout] leaves
    the search arguments out, [/] the message. *)
Module IndexHtml.
Record t : Type := {
  movies : pyval;
  genre_movies : list (string * list pyval);
  search_results : option pyval;
  search_query : option string;
  message : option string;
  message_type : option string
}.
End IndexHtml.

(** What the routes of this part return. *)
Inductive view : Type :=
| IndexView (ctx : IndexHtml.t)
| LoginView (msg msg_type : option string)
| DashboardView (rows : list (Booking.row * string))
| RedirectView (endpoint : string).

Definition MSG_INVALID : string := "❌ Invalid email or password. Please try again.".
Definition MSG_WELCOME : string := "👋 Welcome back! You are now logged in.".
Definition MSG_LOGGED_OUT : string := "👋 You have been logged out. See you next time!".
Definition IMAGE_BASE : string := "https://image.tmdb.org/t/p/w200".
Definition PLACEHOLDER : string := "/static/img/placeholder.png".

(** The search of [/]: a plain [requests.get], one attempt, outside any
    [try]; [search] is how that attempt ends for a query. Then [resp.ok],
    [resp.json()] and [data.get("results", [])]. *)
Definition search_movies (query : string) (search : string -> attempt) : outcome pyval :=
  match search query with
  | ConnectFailed | ReadFailed => Raised ConnectionError
  | Response st _ body =>
      let resp := {| status_code := st; json_body := body |} in
      match raise_for_status resp with
      | Returned _ =>
          obind (response_json resp) (fun data =>
          py_get_default data "results" (VList []))
      | Raised _ => Returned (VList [])
      end
  end.

(** [request.args.get("q", "")] *)
Definition query_text (args : list (string * string)) : string :=
  match form_get "q" args with Some q => q | None => "" end.

(** [request.args.get("q", "").strip()] *)
Definition query_of (args : list (string * string)) : string :=
  py_strip (query_text args).

(** [/] *)
Definition index (args : list (string * string)) (search : string -> attempt)
    (net : network) (d : disk) : M world view :=
  let query := query_of args in
  let* search_results := (if negb (String.eqb query "")
                          then lift_outcome (search_movies query search)
                          else ret (VList [])) in
  let* movies := on_cache (get_recent_movies net d) in
  let* items := lift_outcome (py_iter movies) in
  let* genre_movies := lift_outcome (group_movies items []) in
  ret (IndexView {| IndexHtml.movies := movies;
                    IndexHtml.genre_movies := genre_movies;
                    IndexHtml.search_results := Some search_results;
                    IndexHtml.search_query := Some query;
                    IndexHtml.message := None;
                    IndexHtml.message_type := None |}).

(** [/login]; [check] is [check_password_hash]. *)
Definition login (args : list (string * string)) (req : request)
    (check : string -> string -> bool) : M site view :=
  let message := form_get "message" args in
  let message_type := form_get "message_type" args in
  match method req with
  | POST =>
      let* email := form_item "email" (form req) in
      let* password := form_item "password" (form req) in
      let* user := on_store (user_first (fun u => String.eqb (User.email u) email)) in
      match user with
      | Some u =>
          if check (User.password u) password then
            (login_user u ;; ret (RedirectView "dashboard"))
          else ret (LoginView (Some MSG_INVALID) (Some "danger"))
      | None => ret (LoginView (Some MSG_INVALID) (Some "danger"))
      end
  | GET => ret (LoginView message message_type)
  end.

(** The session is a cookie, which the browser gets with the response.
    The application runs with [debug=True] ([app.run], at the end of
    [app.py]): an exception that leaves a view is raised again, no response
    is made, and the browser keeps the session it had. What the view
    committed or wrote to the cache stays. *)
Definition with_session {A} (view : M site A) : M site A :=
  fun s => match view s with
           | (Returned a, s') => (Returned a, s')
           | (Raised e, s') =>
               (Raised e, {| store := store s'; session_user_id := session_user_id s |})
           end.

(** [/logout] *)
Definition logout (net : network) (d : disk) : M site view :=
  with_session
    (logout_user ;;
     let* movies := on_store (on_cache (get_recent_movies net d)) in
     ret (IndexView {| IndexHtml.movies := movies;
                       IndexHtml.genre_movies := [];
                       IndexHtml.search_results := None;
                       IndexHtml.search_query := None;
                       IndexHtml.message := Some MSG_LOGGED_OUT;
                       IndexHtml.message_type := Some "info" |})).

(** [f"{v}"]: the text of a value in an f-string. [other] gives it for
    floats, lists and dictionaries. *)
Definition py_format (other : pyval -> string) (v : pyval) : string :=
  match v with
  | VStr s => s
  | VInt n => str_of_int n
  | VBool true => "True"
  | VBool false => "False"
  | VNone => "None"
  | _ => other v
  end.

(** The poster of a booking on the dashboard:
    [f"...w200{movie['poster_path']}" if movie and movie.get("poster_path")
     else "/static/img/placeholder.png"] *)
Definition poster_url (other : pyval -> string) (mv : pyval) : outcome string :=
  obind (if truthy mv then obind (py_get mv "poster_path") (fun p => Returned (truthy p))
         else Returned false) (fun has_poster =>
  if has_poster then
    obind (py_getitem mv "poster_path") (fun p =>
    Returned (IMAGE_BASE ++ py_format other p)%string)
  else Returned PLACEHOLDER).

(** The loop of [/dashboard] from its [i]-th round on; round [i] meets the
    network [nets i] and the disk [disks i]. *)
Fixpoint dashboard_rows (other : pyval -> string) (bs : list Booking.row) (i : nat)
    (nets : nat -> network) (disks : nat -> disk) : M cache (list (Booking.row * string)) :=
  match bs with
  | [] => ret []
  | b :: rest =>
      let* mv := get_movie_details (Booking.movie_id b) (nets i) (disks i) in
      let* url := lift_outcome (poster_url other mv) in
      let* rows := dashboard_rows other rest (S i) nets disks in
      ret ((b, url) :: rows)
  end.

(** [/dashboard]: [Booking.query.all()], each row with its poster. *)
Definition dashboard (other : pyval -> string) (nets : nat -> network)
    (disks : nat -> disk) : M world view :=
  let* w := get_state in
  let* rows := on_cache (dashboard_rows other (bookings w) 0 nets disks) in
  ret (DashboardView rows).

(** The service has no details for movie [k]: its answer is empty (the
    request failed), or is a record whose [id] is not [k]. *)
Definition no_details (k : Z) (data : pyval) : Prop :=
  truthy data = false
  \/ exists i, py_get data "id" = Returned i /\ py_eq_int i k = false.

(** A network on which the recent query finds nothing and the trending
    query finds a movie. *)
Definition net_trending : network := fun path _ =>
  if String.eqb path "/discover/movie"
  then Response 200 false (Some (VDict [("page", VInt 1); ("results", VList [])]))
  else if String.eqb path "/trending/movie/week"
       then Response 200 false (Some (VDict [("results", VList [heat])]))
       else Response 404 false None.

Definition set_users (w : world) (us : list User.row) : world :=
  {| users := us; bookings := bookings w; files := files w |}.

(** The user row a registration inserts. *)
Definition new_user (name email hashed : string) (w : world) : User.row :=
  {| User.id := fresh_id (map User.id (users w));
     User.name := name; User.email := email; User.password := hashed |}.

(** The number a string of decimal digits denotes after the digits read so
    far gave [acc]. *)
Fixpoint uint_val (d : Decimal.uint) (acc : Z) : Z :=
  match d with
  | Decimal.Nil => acc
  | Decimal.D0 l => uint_val l (10 * acc + 0)
  | Decimal.D1 l => uint_val l (10 * acc + 1)
  | Decimal.D2 l => uint_val l (10 * acc + 2)
  | Decimal.D3 l => uint_val l (10 * acc + 3)
  | Decimal.D4 l => uint_val l (10 * acc + 4)
  | Decimal.D5 l => uint_val l (10 * acc + 5)
  | Decimal.D6 l => uint_val l (10 * acc + 6)
  | Decimal.D7 l => uint_val l (10 * acc + 7)
  | Decimal.D8 l => uint_val l (10 * acc + 8)
  | Decimal.D9 l => uint_val l (10 * acc + 9)
  end.

(** No character of the string is white space. *)
Fixpoint no_space (s : string) : bool :=
  match s with
  | EmptyString => true
  | String c s' => negb (is_space c) && no_space s'
  end.

(** Sample data: a check that goes with [some_hash], and an anonymous
    visitor of the site with two users. *)
Definition some_check : string -> string -> bool :=
  fun hashed pw => String.eqb hashed (some_hash pw).

Definition site_ab : site := {| store := world_ab; session_user_id := None |}.

Definition login_form (email pw : string) : request :=
  POST_form [("email", email); ("password", pw)].

(** A poster address of the dashboard: the placeholder, or an address
    under the image base. *)
Definition poster_ok (url : string) : Prop :=
  url = PLACEHOLDER \/ exists t, url = (IMAGE_BASE ++ t)%string.

(** The names a genre group can have. *)
Definition genre_names : list string := map snd GENRE_MAP ++ ["Other"].

(** Movie [x] is in the group called [n]. *)
Definition member (n : string) (x : pyval) (groups : list (string * list pyval)) : Prop :=
  exists ms, In (n, ms) groups /\ In x ms.

(** The number of entries of all groups together. *)
Definition entries (groups : list (string * list pyval)) : nat :=
  list_sum (map (fun g => length (snd g)) groups).

(** The genre identifiers the loop of [/] runs through for a movie. *)
Definition genre_ids (m : pyval) : list pyval :=
  match obind (py_get_default m "genre_ids" (VList [])) py_iter with
  | Returned gs => gs
  | Raised _ => []
  end.

(** Groups have distinct names taken from [genre_names], none is empty,
    and their members are among [items]. *)
Definition groups_ok (items : list pyval) (groups : list (string * list pyval)) : Prop :=
  List.NoDup (map fst groups)
  /\ Forall (fun g => In (fst g) genre_names /\ snd g <> []
                      /\ forall x, In x (snd g) -> In x items) groups.

(** Sample data: a thriller that is also a drama, and a film of a genre
    the map does not know. *)
Definition heat_genres : pyval :=
  VDict [("id", VInt 7); ("title", VStr "Heat"); ("poster_path", VStr "/heat.jpg");
         ("genre_ids", VList [VInt 53; VInt 18])].

Definition western : pyval :=
  VDict [("id", VInt 9); ("title", VStr "Rio Bravo"); ("poster_path", VStr "/rio.jpg");
         ("genre_ids", VList [VInt 37; VInt 18])].

(** The front page once the search is done. *)
Definition front_page (query : string) (search_results : pyval) (net : network)
    (d : disk) (w : world) : outcome view * world :=
  match get_recent_movies net d (files w) with
  | (Returned mv, fs') =>
      (match obind (py_iter mv) (fun items => group_movies items []) with
       | Returned groups =>
           Returned (IndexView {| IndexHtml.movies := mv;
                                  IndexHtml.genre_movies := groups;
                                  IndexHtml.search_results := Some search_results;
                                  IndexHtml.search_query := Some query;
                                  IndexHtml.message := None;
                                  IndexHtml.message_type := None |})
       | Raised e => Raised e
       end, set_files w fs')
  | (Raised e, fs') => (Raised e, set_files w fs')
  end.

(* ===================================================================== *)
(** ** Lemmas: Python values *)
(* ===================================================================== *)

Lemma is_complete_dict kvs :
  is_complete (VDict kvs) = Returned (complete_b (VDict kvs)).
Proof.
  unfold is_complete, complete_b, field, py_get, obind. simpl.
  destruct (truthy _); [|reflexivity].
  destruct (truthy _); reflexivity.
Qed.

Lemma is_complete_not_dict m :
  is_dict m = false -> is_complete m = Raised AttributeError.
Proof. destruct m; simpl; intros H; try discriminate; reflexivity. Qed.

Lemma is_complete_raises m e :
  is_complete m = Raised e -> e = AttributeError.
Proof.
  destruct m; try (simpl; intros [= <-]; reflexivity).
  rewrite is_complete_dict. discriminate.
Qed.

Lemma complete_b_record m : complete_b m = true <-> complete_record m.
Proof.
  unfold complete_b, complete_record, nonempty_field. split.
  - intros H. destruct m; try discriminate. simpl in H.
    apply andb_prop in H as [H Hp]. apply andb_prop in H as [Hi Ht].
    repeat split; eexists; (split; [reflexivity|]); simpl; assumption.
  - intros [[i [Hi Ti]] [[t [Ht Tt]] [q [Hq Tq]]]].
    destruct m; try discriminate. simpl in *.
    injection Hi as <-. injection Ht as <-. injection Hq as <-.
    rewrite Ti, Tt, Tq. reflexivity.
Qed.

(** The comprehension keeps the complete records, or raises at a value
    that is not a record. *)
Lemma keep_complete_dicts items :
  forallb is_dict items = true ->
  keep_complete items = Returned (List.filter complete_b items).
Proof.
  induction items as [|m rest IH]; simpl; [reflexivity|].
  intros H. apply andb_prop in H as [Hm Hrest].
  destruct m; try discriminate. rewrite is_complete_dict. simpl.
  rewrite (IH Hrest). simpl. reflexivity.
Qed.

Lemma keep_complete_returns items movies :
  keep_complete items = Returned movies ->
  forallb is_dict items = true /\ movies = List.filter complete_b items.
Proof.
  revert movies. induction items as [|m rest IH]; simpl; intros movies H.
  - injection H as <-. split; reflexivity.
  - destruct (is_dict m) eqn:Hm.
    + destruct m; try discriminate. rewrite is_complete_dict in H. simpl in H.
      destruct (keep_complete rest) as [ms|e]; simpl in H; [|discriminate].
      destruct (IH ms eq_refl) as [Hd ->]. injection H as <-.
      split; [assumption|reflexivity].
    + rewrite (is_complete_not_dict m Hm) in H. discriminate.
Qed.

Lemma keep_complete_raises items e :
  keep_complete items = Raised e -> e = AttributeError.
Proof.
  induction items as [|m rest IH]; simpl; [discriminate|].
  destruct (is_complete m) eqn:Hm; simpl.
  - destruct (keep_complete rest); simpl; [discriminate|].
    intros [= <-]. apply IH. reflexivity.
  - intros [= <-]. eapply is_complete_raises; eassumption.
Qed.

Lemma filter_complete_Forall items :
  Forall complete_record (List.filter complete_b items).
Proof.
  apply List.Forall_forall. intros m Hm. apply List.filter_In in Hm as [_ Hm].
  apply complete_b_record. assumption.
Qed.

(* ===================================================================== *)
(** ** Lemmas: the cache and the catalog *)
(* ===================================================================== *)

Ltac run := unfold bind, ret, raise, lift_outcome, get_state, put_state, try_except.

Lemma urlopen_raises fuel : forall r method path net n e k,
  Urllib3.urlopen fuel r method path net n = Some (Raised e, k) ->
  is_RequestException e = true.
Proof.
  induction fuel as [|fuel IH]; intros r method path net n e k; [discriminate|].
  simpl. destruct (net path n) as [| |st ra body].
  - destruct (Urllib3.is_exhausted _); [intros [= <- _]; reflexivity|apply IH].
  - destruct (negb _); [intros [= <- _]; reflexivity|].
    destruct (Urllib3.is_exhausted _); [intros [= <- _]; reflexivity|apply IH].
  - destruct (Urllib3.is_retry r method st ra); [|discriminate].
    destruct (Urllib3.is_exhausted _); [intros [= <- _]; reflexivity|apply IH].
Qed.

Lemma session_get_raises path net e :
  session_get path net = Raised e -> is_RequestException e = true.
Proof.
  unfold session_get, session_get_counted.
  destruct (Urllib3.urlopen _ retries "GET" path net 0) as [[res k]|] eqn:Hrun; simpl.
  - intros ->. eapply urlopen_raises. eassumption.
  - intros [= <-]. reflexivity.
Qed.

(** [tmdb_get] never raises and leaves the state alone. *)
Lemma tmdb_get_eq {S} path net (s : S) :
  tmdb_get path net s = (Returned (answer path net), s).
Proof.
  unfold tmdb_get, answer, raise_for_status, response_json. run.
  destruct (session_get path net) as [r|e] eqn:Hget.
  - destruct ((400 <=? status_code r) && (status_code r <? 600)); [reflexivity|].
    destruct (json_body r); reflexivity.
  - rewrite (session_get_raises _ _ _ Hget). reflexivity.
Qed.

Lemma cache_write_eq file data d fs :
  cache_write file data d fs = (Returned tt, after_write file data d fs).
Proof. destruct d; reflexivity. Qed.

Lemma cache_read_eq file fs :
  cache_read file fs = (Returned (stored file fs), fs).
Proof.
  unfold cache_read, stored. run.
  destruct (fs !! file) as [[|v]|]; reflexivity.
Qed.

Lemma py_iter_raises v e : py_iter v = Raised e -> e = TypeError.
Proof. destruct v; simpl; intros [= <-] || discriminate; reflexivity. Qed.

Lemma py_in_raises k v e : py_in k v = Raised e -> e = TypeError.
Proof. destruct v; simpl; intros [= <-] || discriminate; reflexivity. Qed.

Lemma py_getitem_after_in k v e :
  py_in k v = Returned true -> py_getitem v k = Raised e -> e = TypeError.
Proof.
  destruct v; simpl; try discriminate; try (intros _ [= <-]; reflexivity).
  destruct (dict_lookup k kvs); discriminate.
Qed.

Lemma live_block_end data file d otherwise fs :
  block_end data file d otherwise fs (live_block data file d otherwise fs).
Proof.
  unfold live_block. run.
  destruct (truthy data); [|apply block_falls_through].
  destruct (py_in "results" data) as [[|]|e] eqn:Hin.
  - destruct (py_getitem data "results") as [rs|e] eqn:Hrs.
    + destruct (py_iter rs) as [items|e] eqn:Hit.
      * destruct (keep_complete items) as [movies|e] eqn:Hk.
        -- destruct movies as [|m ms] eqn:Hms; simpl; [apply block_falls_through|].
           rewrite cache_write_eq.
           apply keep_complete_returns in Hk as [_ Hk].
           apply block_returns; [discriminate|].
           rewrite Hk. apply filter_complete_Forall.
        -- apply block_raises. right. eapply keep_complete_raises; eassumption.
      * apply block_raises. left. eapply py_iter_raises; eassumption.
    + apply block_raises. left. eapply py_getitem_after_in; eassumption.
  - apply block_falls_through.
  - apply block_raises. left. eapply py_in_raises; eassumption.
Qed.

(** A block runs what follows it in the state it started in. *)
Lemma live_block_ext data file d (k1 k2 : M cache pyval) fs :
  k1 fs = k2 fs ->
  live_block data file d k1 fs = live_block data file d k2 fs.
Proof.
  intros Hk. unfold live_block. run.
  destruct (truthy data); [|assumption].
  destruct (py_in "results" data) as [[|]|e]; [|assumption|reflexivity].
  destruct (py_getitem data "results") as [rs|e]; [|reflexivity].
  destruct (py_iter rs) as [items|e]; [|reflexivity].
  destruct (keep_complete items) as [movies|e]; [|reflexivity].
  destruct (truthy (VList movies)); [reflexivity|assumption].
Qed.

(** [get_recent_movies] is its two blocks on the two answers, then the
    cache. *)
Lemma get_recent_movies_eq net d fs :
  get_recent_movies net d fs
  = live_block (answer "/discover/movie" net) recent_file d
      (live_block (answer "/trending/movie/week" net) recent_file d
         (fun fs' => (Returned (or_empty_list (stored recent_file fs')), fs')))
      fs.
Proof.
  unfold get_recent_movies. fold recent_file.
  unfold bind at 1. rewrite tmdb_get_eq. apply live_block_ext.
  unfold bind at 1. rewrite tmdb_get_eq. apply live_block_ext.
  run. rewrite cache_read_eq. reflexivity.
Qed.

Lemma live_block_shows data movies file d otherwise fs :
  shows data movies ->
  live_block data file d otherwise fs
  = (Returned (VList movies), after_write file (VList movies) d fs).
Proof.
  intros (kvs & items & -> & Hres & Hd & Hm & Hne).
  unfold live_block. run.
  assert (Ht : truthy (VDict kvs) = true) by (destruct kvs; [discriminate|reflexivity]).
  rewrite Ht. simpl. rewrite Hres. simpl.
  rewrite (keep_complete_dicts items Hd), <- Hm.
  destruct movies; [congruence|]. simpl. rewrite cache_write_eq. reflexivity.
Qed.

Lemma forallb_incomplete_filter items :
  forallb (fun m => is_dict m && negb (complete_b m)) items = true ->
  forallb is_dict items = true /\ List.filter complete_b items = [].
Proof.
  induction items as [|m rest IH]; simpl; [split; reflexivity|].
  intros H. apply andb_prop in H as [Hm Hrest]. apply andb_prop in Hm as [Hd Hc].
  destruct (IH Hrest) as [-> ->]. rewrite Hd.
  apply negb_true_iff in Hc. rewrite Hc. split; reflexivity.
Qed.

Lemma live_block_nothing data file d otherwise fs :
  nothing_usable data = true ->
  live_block data file d otherwise fs = otherwise fs.
Proof.
  intros H. unfold live_block. run. unfold nothing_usable in H.
  destruct (truthy data) eqn:Ht; [|reflexivity]. simpl in H.
  destruct data; try discriminate H.
  unfold py_in, py_getitem.
  destruct (dict_lookup "results" kvs) as [rs|]; [|reflexivity].
  destruct rs; try discriminate H. unfold py_iter.
  apply forallb_incomplete_filter in H as [Hd Hf].
  rewrite (keep_complete_dicts xs Hd), Hf. reflexivity.
Qed.

(** File names: different movies have different files, and none of them is
    the file of the recent list. *)
Lemma length_append (s t : string) :
  String.length (s ++ t) = (String.length s + String.length t)%nat.
Proof. induction s as [|c s IH]; simpl; [reflexivity|]. rewrite IH. reflexivity. Qed.

Lemma append_inv_tail (s1 s2 t : string) : (s1 ++ t = s2 ++ t)%string -> s1 = s2.
Proof.
  revert s2. induction s1 as [|c s1 IH]; intros [|c' s2] H.
  - reflexivity.
  - apply (f_equal String.length) in H.
    change (String.length t = S (String.length (s2 ++ t))) in H.
    rewrite length_append in H. lia.
  - apply (f_equal String.length) in H.
    change (S (String.length (s1 ++ t)) = String.length t) in H.
    rewrite length_append in H. lia.
  - change (String c (s1 ++ t) = String c' (s2 ++ t)) in H.
    injection H as -> H. f_equal. apply IH. assumption.
Qed.

Lemma str_of_int_inj a b : str_of_int a = str_of_int b -> a = b.
Proof.
  unfold str_of_int. intros H.
  assert (Hnz : forall z, Z.to_int z <> Decimal.Pos Decimal.Nil
                          /\ Z.to_int z <> Decimal.Neg Decimal.Nil).
  { intros [|p|p]; simpl; split; try discriminate;
      intros [= Hp]; exact (Unsigned.to_uint_nonnil p Hp). }
  apply (f_equal NilZero.int_of_string) in H.
  destruct (Hnz a) as [Ha1 Ha2]. destruct (Hnz b) as [Hb1 Hb2].
  rewrite !NilZero.isi in H by assumption.
  injection H as H. apply DecimalZ.to_int_inj. assumption.
Qed.

Lemma movie_file_inj a b : movie_file a = movie_file b -> a = b.
Proof.
  unfold movie_file, cache_path, CACHE_DIR. intros H.
  change ("cache/movie_" ++ (str_of_int a ++ ".json")
          = "cache/movie_" ++ (str_of_int b ++ ".json"))%string in H.
  apply (inj (String.append "cache/movie_")) in H. apply append_inv_tail in H. apply str_of_int_inj. assumption.
Qed.

Lemma recent_not_movie k : recent_file <> movie_file k.
Proof.
  unfold recent_file, movie_file, cache_path, CACHE_DIR. intros H.
  change ("cache/recent.json"
          = String "c" (String "a" (String "c" (String "h" (String "e" (String "/"
              (String "m" ("ovie_" ++ str_of_int k ++ ".json"))))))))%string in H.
  discriminate H.
Qed.

Lemma cache_ok_empty : cache_ok ∅.
Proof. split; intros *; rewrite lookup_empty; discriminate. Qed.

Lemma cache_ok_write_recent fs movies d :
  cache_ok fs -> movies <> [] -> Forall complete_record movies ->
  cache_ok (after_write recent_file (VList movies) d fs).
Proof.
  intros [Hr Hm] Hne Hall. destruct d; simpl; [|split; assumption|].
  - split.
    + intros v. rewrite lookup_insert_eq. intros [= <-]. eauto.
    + intros k v. rewrite lookup_insert_ne by apply recent_not_movie. apply Hm.
  - split.
    + intros v. rewrite lookup_insert_eq. discriminate.
    + intros k v. rewrite lookup_insert_ne by apply recent_not_movie. apply Hm.
Qed.

Lemma cache_ok_write_movie fs k v d :
  cache_ok fs -> truthy v = true -> has_id v k ->
  cache_ok (after_write (movie_file k) v d fs).
Proof.
  intros [Hr Hm] Ht Hid.
  assert (Hne : movie_file k <> recent_file)
    by (intros E; exact (recent_not_movie k (eq_sym E))).
  destruct d; simpl; [|split; assumption|].
  - split.
    + intros x. rewrite lookup_insert_ne by assumption. apply Hr.
    + intros k' x. destruct (decide (movie_file k = movie_file k')) as [E|E].
      * rewrite <- E, lookup_insert_eq. intros [= <-].
        apply movie_file_inj in E. subst k'. split; assumption.
      * rewrite lookup_insert_ne by assumption. apply Hm.
  - split.
    + intros x. rewrite lookup_insert_ne by assumption. apply Hr.
    + intros k' x. destruct (decide (movie_file k = movie_file k')) as [E|E].
      * rewrite <- E, lookup_insert_eq. discriminate.
      * rewrite lookup_insert_ne by assumption. apply Hm.
Qed.

Lemma recent_fallback_ok fs :
  cache_ok fs ->
  recent_result (Returned (or_empty_list (stored recent_file fs))).
Proof.
  intros [Hr _]. unfold stored, or_empty_list.
  destruct (fs !! recent_file) as [[|v]|] eqn:Hf; simpl;
    try (exists []; split; [reflexivity|constructor]).
  destruct (Hr v eq_refl) as (movies & -> & Hne & Hall).
  destruct movies; [congruence|]. simpl. eauto.
Qed.

Lemma get_recent_movies_ok net d fs :
  cache_ok fs ->
  recent_result (fst (get_recent_movies net d fs))
  /\ cache_ok (snd (get_recent_movies net d fs)).
Proof.
  intros Hok. rewrite get_recent_movies_eq.
  match goal with |- context [live_block ?a ?f ?d ?k fs] =>
    destruct (live_block_end a f d k fs) as [movies Hne Hall| |e He] end; simpl.
  - split; [eauto|]. apply cache_ok_write_recent; assumption.
  - match goal with |- context [live_block ?a ?f ?d ?k fs] =>
      destruct (live_block_end a f d k fs) as [movies Hne Hall| |e He] end; simpl.
    + split; [eauto|]. apply cache_ok_write_recent; assumption.
    + split; [|assumption].
      apply recent_fallback_ok. assumption.
    + split; assumption.
  - split; assumption.
Qed.

Lemma get_movie_details_ok k net d fs :
  cache_ok fs ->
  details_result k (fst (get_movie_details k net d fs))
  /\ cache_ok (snd (get_movie_details k net d fs)).
Proof.
  intros Hok. unfold get_movie_details. fold (movie_file k).
  run. rewrite !tmdb_get_eq.
  set (data := answer _ net).
  assert (Hread : details_result k (Returned (stored (movie_file k) fs))).
  { destruct Hok as [_ Hm]. unfold stored.
    destruct (fs !! movie_file k) as [[|v]|] eqn:Hf; simpl; auto. }
  destruct (truthy data) eqn:Ht.
  - destruct (py_get data "id") as [i|e] eqn:Hi.
    + destruct (py_eq_int i k) eqn:He.
      * rewrite cache_write_eq. simpl.
        assert (has_id data k) by (exists i; split; assumption).
        split; [right; split; assumption|].
        apply cache_ok_write_movie; assumption.
      * rewrite cache_read_eq. simpl. split; assumption.
    + simpl. split; [|assumption].
      destruct data; simpl in Hi; try discriminate; injection Hi as <-; reflexivity.
  - rewrite cache_read_eq. simpl. split; assumption.
Qed.

(* ===================================================================== *)
(** ** Lemmas: the store and the routes *)
(* ===================================================================== *)

(** The POST branch, case by case. *)
Lemma submit_incomplete req movie_id u clk w :
  fields_given req = false ->
  submit_booking req movie_id u clk w
  = (Returned (false, Some MSG_INCOMPLETE, Some "warning"), w).
Proof.
  intros H. unfold submit_booking. fold (fields_given req). rewrite H. reflexivity.
Qed.

Lemma booking_first_eq params p w :
  booking_first params p w
  = if forallb in_int64 params then (Returned (find p (bookings w)), w)
    else (Raised OverflowError, w).
Proof.
  unfold booking_first, bind_params. run. destruct (forallb in_int64 params); reflexivity.
Qed.

Lemma submit_unbound_movie req movie_id u clk w :
  fields_given req = true ->
  in_int64 movie_id = false ->
  submit_booking req movie_id u clk w = (Raised OverflowError, w).
Proof.
  intros H Hm. unfold submit_booking. fold (fields_given req). rewrite H.
  cbn [negb]. unfold bind at 1. rewrite booking_first_eq. cbn [forallb].
  rewrite Hm. reflexivity.
Qed.

Lemma submit_duplicate req movie_id u clk w b :
  fields_given req = true ->
  in_int64 movie_id = true ->
  existing req movie_id u w = Some b ->
  submit_booking req movie_id u clk w
  = (Returned (false, Some MSG_DUPLICATE, Some "error"), w).
Proof.
  intros H Hm Hb. unfold submit_booking. fold (fields_given req). rewrite H.
  unfold existing in Hb. cbn [negb]. unfold bind at 1. rewrite booking_first_eq.
  cbn [forallb]. rewrite Hm. cbn [andb]. rewrite Hb. reflexivity.
Qed.

Lemma submit_bad_seats req movie_id u clk w e :
  fields_given req = true ->
  in_int64 movie_id = true ->
  existing req movie_id u w = None ->
  py_int (field_str (form_get "seats" (form req))) = Raised e ->
  submit_booking req movie_id u clk w = (Raised e, w).
Proof.
  intros H Hm Hb Hn. unfold submit_booking. fold (fields_given req). rewrite H.
  unfold existing in Hb. cbn [negb]. unfold bind at 1. rewrite booking_first_eq.
  cbn [forallb]. rewrite Hm. cbn [andb]. rewrite Hb. run. rewrite Hn. reflexivity.
Qed.

Lemma submit_unbound_seats req movie_id u clk w n :
  fields_given req = true ->
  in_int64 movie_id = true ->
  existing req movie_id u w = None ->
  py_int (field_str (form_get "seats" (form req))) = Returned n ->
  in_int64 n = false ->
  submit_booking req movie_id u clk w = (Raised OverflowError, w).
Proof.
  intros H Hm Hb Hn Hr. unfold submit_booking. fold (fields_given req). rewrite H.
  unfold existing in Hb. cbn [negb]. unfold bind at 1. rewrite booking_first_eq.
  cbn [forallb]. rewrite Hm. cbn [andb]. rewrite Hb. run. rewrite Hn.
  unfold add_booking, bind_params. cbn [forallb Booking.movie_id Booking.seats].
  rewrite Hm, Hr. reflexivity.
Qed.

Lemma submit_commits req movie_id u clk w n :
  fields_given req = true ->
  in_int64 movie_id = true ->
  existing req movie_id u w = None ->
  py_int (field_str (form_get "seats" (form req))) = Returned n ->
  in_int64 n = true ->
  submit_booking req movie_id u clk w
  = (Returned (true, Some MSG_SUCCESS, Some "success"),
     set_bookings w (bookings w ++ [new_booking req movie_id u clk n w])).
Proof.
  intros H Hm Hb Hn Hr. unfold submit_booking. fold (fields_given req). rewrite H.
  unfold existing in Hb. cbn [negb]. unfold bind at 1. rewrite booking_first_eq.
  cbn [forallb]. rewrite Hm. cbn [andb]. rewrite Hb. run. rewrite Hn.
  unfold add_booking, bind_params. cbn [forallb Booking.movie_id Booking.seats].
  rewrite Hm, Hr. reflexivity.
Qed.

(** A text that [py_int] reads has ASCII characters only. *)
Lemma parse_digits_ascii s : forall acc after_digit n,
  parse_digits acc after_digit s = Some n -> is_ascii s = true.
Proof.
  induction s as [|c s IH]; intros acc after_digit n H; [reflexivity|].
  cbn [parse_digits] in H. cbn [is_ascii]. unfold digit_of in H.
  destruct ((48 <=? nat_of_ascii c)%nat && (nat_of_ascii c <=? 57)%nat) eqn:Hd.
  - apply andb_prop in Hd as [_ Hd]. apply Nat.leb_le in Hd.
    apply andb_true_intro. split; [apply Nat.ltb_lt; lia|eapply IH; exact H].
  - destruct (Ascii.eqb c "_") eqn:Hu; [|discriminate H].
    destruct after_digit; [|discriminate H]. cbn [andb] in H.
    apply Ascii.eqb_eq in Hu. subst c.
    apply andb_true_intro. split; [reflexivity|eapply IH; exact H].
Qed.

Lemma is_space_ascii c : is_space c = true -> (nat_of_ascii c <? 128)%nat = true.
Proof.
  unfold is_space. intros H. apply Nat.ltb_lt. apply orb_prop in H as [H|H].
  - apply andb_prop in H as [_ H]. apply Nat.leb_le in H. lia.
  - apply Nat.eqb_eq in H. lia.
Qed.

Lemma lstrip_ascii s : is_ascii (lstrip s) = true -> is_ascii s = true.
Proof.
  induction s as [|c s IH]; [reflexivity|]. cbn [lstrip].
  destruct (is_space c) eqn:Hc; [|exact (fun H => H)].
  intros H. cbn [is_ascii]. rewrite (is_space_ascii c Hc), (IH H). reflexivity.
Qed.

Lemma rstrip_ascii s : is_ascii (rstrip s) = true -> is_ascii s = true.
Proof.
  induction s as [|c s IH]; [reflexivity|]. cbn [rstrip].
  destruct (rstrip s) as [|c' r] eqn:Hr.
  - destruct (is_space c) eqn:Hc; intros H; cbn [is_ascii].
    + rewrite (is_space_ascii c Hc), (IH eq_refl). reflexivity.
    + cbn [is_ascii] in H. apply andb_prop in H as [H _].
      rewrite H, (IH eq_refl). reflexivity.
  - intros H. cbn [is_ascii] in H |- *. apply andb_prop in H as [Hc H].
    rewrite Hc. apply IH. exact H.
Qed.

Lemma py_int_ascii s n : py_int s = Returned n -> is_ascii s = true.
Proof.
  unfold py_int. intros H. apply lstrip_ascii, rstrip_ascii.
  destruct (rstrip (lstrip s)) as [|c rest] eqn:Hb; [reflexivity|].
  destruct (Ascii.eqb c "-") eqn:Hm; [|destruct (Ascii.eqb c "+") eqn:Hp].
  - apply Ascii.eqb_eq in Hm. subst c. cbn [is_ascii].
    destruct (parse_digits 0 false rest) as [k|] eqn:Hk; [|discriminate H].
    rewrite (parse_digits_ascii rest _ _ _ Hk). reflexivity.
  - apply Ascii.eqb_eq in Hp. subst c. cbn [is_ascii].
    destruct (parse_digits 0 false rest) as [k|] eqn:Hk; [|discriminate H].
    rewrite (parse_digits_ascii rest _ _ _ Hk). reflexivity.
  - destruct (parse_digits 0 false (String c rest)) as [k|] eqn:Hk; [|discriminate H].
    exact (parse_digits_ascii _ _ _ _ Hk).
Qed.

Lemma py_int_raises s e : py_int s = Raised e -> e = ValueError.
Proof.
  unfold py_int.
  match goal with |- context [match ?p with Some _ => _ | None => _ end] =>
    destruct p end; [discriminate|]. intros [= <-]. reflexivity.
Qed.

Lemma submit_booking_submitted req movie_id u clk w :
  submitted req movie_id u clk w (submit_booking req movie_id u clk w).
Proof.
  destruct (fields_given req) eqn:H.
  - destruct (in_int64 movie_id) eqn:Hm.
    + destruct (existing req movie_id u w) as [b|] eqn:Hb.
      * erewrite submit_duplicate by eassumption. eapply sub_duplicate; eassumption.
      * destruct (py_int (field_str (form_get "seats" (form req)))) as [n|e] eqn:Hn.
        -- destruct (in_int64 n) eqn:Hr.
           ++ erewrite submit_commits by eassumption. apply sub_commits; assumption.
           ++ erewrite submit_unbound_seats by eassumption.
              eapply sub_unbound_seats; eassumption.
        -- pose proof (py_int_raises _ _ Hn) as ->.
           erewrite submit_bad_seats by eassumption. apply sub_bad_seats; assumption.
    + rewrite submit_unbound_movie by assumption. apply sub_unbound_movie; assumption.
  - rewrite submit_incomplete by assumption. apply sub_incomplete. assumption.
Qed.

(** [movie_page] is the POST branch, then the lookup in the state the
    branch left, then the page. *)
Lemma movie_page_eq req movie_id u clk net d w :
  movie_page req movie_id u clk net d w
  = match post_part req movie_id u clk w with
    | (Returned st, w1) =>
        match get_movie_details movie_id net d (files w1) with
        | (Returned mv, fs') => (Returned (MovieHtml (rendered clk st mv)), set_files w1 fs')
        | (Raised e, fs') => (Raised e, set_files w1 fs')
        end
    | (Raised e, w1) => (Raised e, w1)
    end.
Proof.
  unfold movie_page. fold (post_part req movie_id u clk). unfold bind at 1.
  destruct (post_part req movie_id u clk w) as [[[[success msg] msg_type]|e] w1];
    [|reflexivity].
  unfold bind, on_cache.
  destruct (get_movie_details movie_id net d (files w1)) as [[mv|e] fs']; [|reflexivity].
  unfold rendered, set_files, ret. simpl. destruct (truthy mv); reflexivity.
Qed.

(** Lists without duplicates. *)
Lemma NoDup_append_one {A} (l : list A) (x : A) :
  List.NoDup l -> ~ In x l -> List.NoDup (l ++ [x]).
Proof.
  induction l as [|y l IH]; simpl; intros Hl Hx.
  - constructor; [intros []|constructor].
  - inversion Hl as [|? ? Hy Hl']; subst. constructor.
    + rewrite in_app_iff. simpl. intros [H|[H|[]]]; [exact (Hy H)|].
      apply Hx. left. symmetry. exact H.
    + apply IH; [assumption|]. intros H. apply Hx. right. assumption.
Qed.

Lemma NoDup_map_filter {A B} (f : A -> B) (p : A -> bool) (l : list A) :
  List.NoDup (map f l) -> List.NoDup (map f (List.filter p l)).
Proof.
  induction l as [|y l IH]; simpl; intros H; [constructor|].
  inversion H as [|? ? Hy Hl]; subst.
  destruct (p y); simpl; [|apply IH; assumption].
  constructor; [|apply IH; assumption].
  intros Hin. apply Hy. apply in_map_iff in Hin as (z & Hz & Hin).
  apply List.filter_In in Hin as [Hin _]. apply in_map_iff. eauto.
Qed.

Lemma fresh_id_above ids x : In x ids -> x < fresh_id ids.
Proof.
  unfold fresh_id. induction ids as [|y ids IH]; simpl; [intros []|].
  intros [->|H]; [lia|]. specialize (IH H). lia.
Qed.

Lemma fresh_id_new ids : ~ In (fresh_id ids) ids.
Proof. intros H. apply fresh_id_above in H. lia. Qed.

Lemma same_booking_key movie_id user_id showtime date b :
  same_booking movie_id user_id showtime date b = true
  <-> booking_key b = (user_id, movie_id, showtime, date).
Proof.
  unfold same_booking, booking_key. split.
  - intros H. apply andb_prop in H as [H Hd]. apply andb_prop in H as [H Hs].
    apply andb_prop in H as [Hm Hu].
    apply Z.eqb_eq in Hm, Hu. apply String.eqb_eq in Hs, Hd. congruence.
  - intros [= -> -> -> ->]. rewrite !Z.eqb_refl, !String.eqb_refl. reflexivity.
Qed.

Lemma no_existing_key movie_id user_id showtime date bs :
  find (same_booking movie_id user_id showtime date) bs = None ->
  ~ In (user_id, movie_id, showtime, date) (map booking_key bs).
Proof.
  intros Hf Hin. apply in_map_iff in Hin as (b & Hk & Hb).
  apply (find_none _ _ Hf) in Hb. apply same_booking_key in Hk. congruence.
Qed.

Lemma owned_more_users us us' b : incl us us' -> owned us b -> owned us' b.
Proof. intros Hi (u & Hu & H). exists u. split; [apply Hi; assumption|assumption]. Qed.

(** Each route keeps the store well formed. *)
Lemma store_ok_set_files w fs : store_ok w -> store_ok (set_files w fs).
Proof. intros [? ? ? ? ?]. constructor; assumption. Qed.

Lemma store_ok_initial : store_ok initial.
Proof. constructor; simpl; constructor. Qed.

Lemma submit_booking_store_ok req movie_id u clk w :
  store_ok w -> In u (users w) ->
  store_ok (snd (submit_booking req movie_id u clk w)).
Proof.
  intros Hok Hu.
  destruct (submit_booking_submitted req movie_id u clk w)
    as [?|? ?|b ? ? ?|? ? ? ?|n ? ? ? ? ?|n Hg Hm He Hn Hr];
    simpl; try assumption.
  destruct Hok as [Hk Hi Hui Hue Ho]. constructor; simpl; try assumption.
  - rewrite map_app. simpl. apply NoDup_append_one; [assumption|].
    apply no_existing_key. exact He.
  - rewrite map_app. simpl. apply NoDup_append_one; [assumption|]. apply fresh_id_new.
  - apply Forall_app. split; [assumption|]. constructor; [|constructor].
    exists u. repeat split; assumption.
Qed.

Lemma post_part_store_ok req movie_id u clk w :
  store_ok w -> In u (users w) ->
  store_ok (snd (post_part req movie_id u clk w)).
Proof.
  intros Hok Hu. unfold post_part. destruct (method req); [assumption|].
  apply submit_booking_store_ok; assumption.
Qed.

Lemma cancel_booking_eq booking_id u w :
  cancel_booking booking_id u w
  = if in_int64 booking_id then
      match find (fun b => (Booking.id b =? booking_id)
                           && String.eqb (Booking.email b) (User.email u)) (bookings w) with
      | Some booking =>
          (Returned (BookingCancelledHtml MSG_CANCELLED "error"),
           set_bookings w (List.filter (fun b => negb (Booking.id b =? Booking.id booking))
                                       (bookings w)))
      | None => (Returned (RedirectTo "dashboard" None None), w)
      end
    else (Raised OverflowError, w).
Proof.
  unfold cancel_booking. unfold bind at 1. rewrite booking_first_eq. cbn [forallb].
  destruct (in_int64 booking_id); [|reflexivity]. cbn [andb]. run.
  destruct (find _ (bookings w)); reflexivity.
Qed.

Lemma cancel_booking_store_ok booking_id u w :
  store_ok w -> store_ok (snd (cancel_booking booking_id u w)).
Proof.
  intros Hok. rewrite cancel_booking_eq.
  destruct (in_int64 booking_id); [|assumption].
  destruct (find _ (bookings w)) as [b|]; simpl; [|assumption].
  destruct Hok as [Hk Hi Hui Hue Ho]. constructor; simpl; try assumption.
  - apply NoDup_map_filter. assumption.
  - apply NoDup_map_filter. assumption.
  - apply List.Forall_forall. intros x Hx. apply List.filter_In in Hx as [Hx _].
    rewrite List.Forall_forall in Ho. apply Ho. assumption.
Qed.

Lemma register_store_ok req hash w :
  store_ok w -> store_ok (snd (register req hash w)).
Proof.
  intros Hok. unfold register. destruct (method req); [assumption|].
  unfold form_item. run.
  destruct (form_get "name" (form req)) as [name|]; [|assumption].
  destruct (form_get "email" (form req)) as [email|]; [|assumption].
  destruct (form_get "password" (form req)) as [pw|]; [|assumption].
  unfold user_first.
  destruct (find _ (users w)) as [taken|] eqn:Hf; simpl; [assumption|].
  destruct Hok as [Hk Hi Hui Hue Ho]. constructor; simpl; try assumption.
  - rewrite map_app. simpl. apply NoDup_append_one; [assumption|]. apply fresh_id_new.
  - rewrite map_app. simpl. apply NoDup_append_one; [assumption|].
    intros Hin. apply in_map_iff in Hin as (x & Hx & Hin).
    apply (find_none _ _ Hf) in Hin. simpl in Hin.
    rewrite Hx, String.eqb_refl in Hin. discriminate.
  - eapply List.Forall_impl; [|exact Ho]. intros b. apply owned_more_users.
    intros x Hx. apply in_app_iff. left. assumption.
Qed.

Lemma on_cache_snd {A} (c : M cache A) w :
  snd (on_cache c w) = set_files w (snd (c (files w))).
Proof. unfold on_cache. destruct (c (files w)). reflexivity. Qed.

Lemma movie_page_snd req movie_id u clk net d w :
  snd (movie_page req movie_id u clk net d w)
  = match post_part req movie_id u clk w with
    | (Returned _, w1) => set_files w1 (snd (get_movie_details movie_id net d (files w1)))
    | (Raised _, w1) => w1
    end.
Proof.
  rewrite movie_page_eq.
  destruct (post_part req movie_id u clk w) as [[st|e] w1]; [|reflexivity].
  destruct (get_movie_details movie_id net d (files w1)) as [[mv|e] fs']; reflexivity.
Qed.

Lemma post_part_files req movie_id u clk w :
  files (snd (post_part req movie_id u clk w)) = files w.
Proof.
  unfold post_part. destruct (method req); [reflexivity|].
  destruct (submit_booking_submitted req movie_id u clk w); reflexivity.
Qed.

Lemma step_world_ok w w' : world_ok w -> step w w' -> world_ok w'.
Proof.
  intros [Hs Hc] Hstep. destruct Hstep as [net d w|k net d w|req k u clk net d w Hu|b u w Hu|req hash w].
  - rewrite on_cache_snd. split; [apply store_ok_set_files; assumption|].
    apply get_recent_movies_ok. assumption.
  - rewrite on_cache_snd. split; [apply store_ok_set_files; assumption|].
    apply get_movie_details_ok. assumption.
  - rewrite movie_page_snd.
    pose proof (post_part_store_ok req k u clk w Hs Hu) as Hs1.
    pose proof (post_part_files req k u clk w) as Hf1.
    destruct (post_part req k u clk w) as [[st|e] w1]; simpl in Hs1, Hf1.
    + split; [apply store_ok_set_files; assumption|]. simpl.
      apply get_movie_details_ok. rewrite Hf1. assumption.
    + split; [assumption|]. rewrite Hf1. assumption.
  - split; [apply cancel_booking_store_ok; assumption|].
    rewrite cancel_booking_eq. destruct (in_int64 b); [|assumption].
    destruct (find _ (bookings w)); assumption.
  - split; [apply register_store_ok; assumption|].
    unfold register. destruct (method req); [assumption|].
    unfold form_item. run.
    destruct (form_get "name" (form req)); [|assumption].
    destruct (form_get "email" (form req)); [|assumption].
    destruct (form_get "password" (form req)); [|assumption].
    unfold user_first. destruct (find _ (users w)); assumption.
Qed.

Lemma reachable_world_ok w : reachable w -> world_ok w.
Proof.
  induction 1 as [|w w' _ IH Hstep].
  - split; [apply store_ok_initial|apply cache_ok_empty].
  - eapply step_world_ok; eassumption.
Qed.

(* ===================================================================== *)
(** ** The catalog, proved *)
(* ===================================================================== *)

Example recent_live :
  get_recent_movies net_live DiskOk ∅
  = (Returned (VList [heat]), {[ recent_file := Holds (VList [heat]) ]}).
Proof. reflexivity. Qed.

Example recent_down_after_live :
  fst (get_recent_movies net_down DiskOk (snd (get_recent_movies net_live DiskOk ∅)))
  = Returned (VList [heat]).
Proof. reflexivity. Qed.

Example recent_down_fresh : fst (get_recent_movies net_down DiskOk ∅) = Returned (VList []).
Proof. reflexivity. Qed.

Example details_live : fst (get_movie_details 7 net_live DiskOk ∅) = Returned heat.
Proof. reflexivity. Qed.

Example details_other_id :
  fst (get_movie_details 8 (fun _ _ => Response 200 false (Some heat)) DiskOk ∅)
  = Returned VNone.
Proof. reflexivity. Qed.

(** The comparison of identifiers is Python's [==]: [True == 1]. *)
Example details_bool_id :
  fst (get_movie_details 1 (fun _ _ => Response 200 false (Some (VDict [("id", VBool true)])))
                         DiskOk ∅)
  = Returned (VDict [("id", VBool true)]).
Proof. reflexivity. Qed.

(** An identifier that is an integer equals the requested one as integers. *)
Lemma has_id_int kvs (i k : Z) :
  dict_lookup "id" kvs = Some (VInt i) -> has_id (VDict kvs) k -> i = k.
Proof.
  intros Hl (x & Hx & He). simpl in Hx. rewrite Hl in Hx. injection Hx as <-.
  simpl in He. apply Z.eqb_eq. assumption.
Qed.



(** C5: in every reachable state and for every answer of the server, what
    [get_recent_movies] returns is a list of records each of which has a
    non-empty [id], [title] and [poster_path], the list read back from the
    cache included; when it does not return it raises [TypeError] or
    [AttributeError] (the answer was not shaped as a list of records). *)
Theorem get_recent_movies_complete (w : world) (net : network) (d : disk) :
  reachable w ->
  match fst (get_recent_movies net d (files w)) with
  | Returned v => exists movies, v = VList movies /\ Forall complete_record movies
  | Raised e => e = TypeError \/ e = AttributeError
  end.
Proof.
  intros Hr. apply reachable_world_ok in Hr as [_ Hc].
  exact (proj1 (get_recent_movies_ok net d (files w) Hc)).
Qed.

Lemma get_recent_movies_complete_witness :
  match fst (get_recent_movies net_live DiskOk (files initial)) with
  | Returned v => exists movies, v = VList movies /\ Forall complete_record movies
  | Raised e => e = TypeError \/ e = AttributeError
  end.
Proof. apply (get_recent_movies_complete initial net_live DiskOk). apply reachable_initial. Defined.

Lemma recent_falls_back net d fs :
  nothing_usable (answer "/discover/movie" net) = true ->
  nothing_usable (answer "/trending/movie/week" net) = true ->
  get_recent_movies net d fs = (Returned (or_empty_list (stored recent_file fs)), fs).
Proof.
  intros H1 H2. rewrite get_recent_movies_eq.
  rewrite (live_block_nothing _ _ _ _ _ H1), (live_block_nothing _ _ _ _ _ H2).
  reflexivity.
Qed.

(** C4: when the recent query and the trending query both fail or show no
    complete record, [get_recent_movies] returns exactly what the file of
    the recent list holds, and the empty list when the file is missing or
    unreadable; it leaves the cache as it was. What the file holds is the
    list an earlier call fetched and wrote. *)
Theorem get_recent_movies_fallback (w : world) (net : network) (d : disk) :
  reachable w ->
  nothing_usable (answer "/discover/movie" net) = true ->
  nothing_usable (answer "/trending/movie/week" net) = true ->
  get_recent_movies net d (files w) = (Returned (cached_recent (files w)), files w)
  /\ (forall net0 movies,
        shows (answer "/discover/movie" net0) movies ->
        fst (get_recent_movies net d (snd (get_recent_movies net0 DiskOk (files w))))
        = Returned (VList movies)).
Proof.
  intros Hr H1 H2. apply reachable_world_ok in Hr as [_ [Hc _]]. split.
  - rewrite recent_falls_back by assumption. f_equal. f_equal.
    unfold stored, cached_recent, or_empty_list.
    destruct (files w !! recent_file) as [[|v]|] eqn:Hf; try reflexivity.
    destruct (Hc v eq_refl) as (movies & -> & Hne & _).
    destruct movies; [congruence|reflexivity].
  - intros net0 movies Hs.
    rewrite recent_falls_back by assumption.
    rewrite (get_recent_movies_eq net0).
    rewrite (live_block_shows _ movies) by assumption. simpl.
    unfold stored. rewrite lookup_insert_eq. unfold or_empty_list.
    destruct Hs as (_ & _ & _ & _ & _ & _ & Hne).
    destruct movies; [congruence|reflexivity].
Qed.

Lemma get_recent_movies_fallback_witness :
  get_recent_movies net_down DiskOk (files initial)
  = (Returned (cached_recent (files initial)), files initial)
  /\ (forall net0 movies,
        shows (answer "/discover/movie" net0) movies ->
        fst (get_recent_movies net_down DiskOk
               (snd (get_recent_movies net0 DiskOk (files initial))))
        = Returned (VList movies)).
Proof.
  apply (get_recent_movies_fallback initial net_down DiskOk).
  - apply reachable_initial.
  - reflexivity.
  - reflexivity.
Defined.

(** C7: [cache_write] returns normally whatever the disk does, and when
    the recent query shows a non-empty list of complete records,
    [get_recent_movies] returns that list whether the write worked or not. *)
Theorem cache_write_failure_swallowed :
  (forall file data d fs, exists fs', cache_write file data d fs = (Returned tt, fs'))
  /\ (forall net d fs movies,
        shows (answer "/discover/movie" net) movies ->
        fst (get_recent_movies net d fs) = Returned (VList movies)).
Proof.
  split.
  - intros file data d fs. exists (after_write file data d fs). apply cache_write_eq.
  - intros net d fs movies Hs. rewrite get_recent_movies_eq.
    rewrite (live_block_shows _ movies) by assumption. reflexivity.
Qed.

Lemma cache_write_failure_swallowed_witness :
  (exists fs', cache_write recent_file (VList [heat]) DiskFailsTruncated ∅ = (Returned tt, fs'))
  /\ fst (get_recent_movies net_live DiskFailsUntouched ∅) = Returned (VList [heat]).
Proof.
  split.
  - apply (proj1 cache_write_failure_swallowed).
  - apply (proj2 cache_write_failure_swallowed net_live DiskFailsUntouched ∅ [heat]).
    exists [("page", VInt 1); ("results", VList [untitled; heat])], [untitled; heat].
    repeat split; discriminate.
Defined.

(* ===================================================================== *)
(** ** The retry policy, proved *)
(* ===================================================================== *)

Lemma configured_increment r : configured r -> configured (Urllib3.increment r).
Proof. intros [H1 H2]. split; assumption. Qed.

Lemma is_retry_configured r st ra body :
  configured r -> total r <> 0 ->
  Urllib3.is_retry r "GET" st ra = retryable (Response st ra body).
Proof.
  intros [Hf Hm] Ht.
  unfold Urllib3.is_retry, Urllib3.is_method_retryable, Urllib3.forcelist_empty, retryable.
  rewrite Hf, Hm. apply Z.eqb_neq in Ht. rewrite Ht.
  unfold Urllib3.mem, Urllib3.RETRY_AFTER_STATUS_CODES. simpl.
  repeat match goal with
         | |- context [?a =? ?b] => destruct (Z.eqb_spec a b); try lia
         end; destruct ra; reflexivity.
Qed.

Lemma is_retry_forcelist r st ra :
  configured r -> Urllib3.is_retry r "GET" st ra = true ->
  forall body, retryable (Response st ra body) = true.
Proof.
  intros [Hf Hm].
  unfold Urllib3.is_retry, Urllib3.is_method_retryable, Urllib3.forcelist_empty, retryable.
  rewrite Hf, Hm. unfold Urllib3.mem, Urllib3.RETRY_AFTER_STATUS_CODES. simpl.
  intros H body. revert H.
  repeat match goal with
         | |- context [?a =? ?b] => destruct (Z.eqb_spec a b); try lia
         end; destruct ra; simpl; try reflexivity; try discriminate;
    rewrite ?andb_false_r; discriminate.
Qed.

(** The fuel of [session_get_counted] suffices: the loop always ends. *)
Lemma urlopen_total fuel : forall r method path net n,
  (Urllib3.enough r <= fuel)%nat ->
  exists res, Urllib3.urlopen fuel r method path net n = Some res.
Proof.
  unfold Urllib3.enough.
  induction fuel as [|fuel IH]; intros r method path net n Hf; [lia|].
  assert (Hnext : Urllib3.is_exhausted (Urllib3.increment r) = false ->
                  exists res, Urllib3.urlopen fuel (Urllib3.increment r) method path net (S n)
                              = Some res).
  { intros Hx. apply IH. unfold Urllib3.is_exhausted in Hx. simpl in *.
    apply Z.ltb_ge in Hx. lia. }
  simpl. destruct (net path n) as [| |st ra body].
  - destruct (Urllib3.is_exhausted (Urllib3.increment r)); eauto.
  - destruct (negb _); eauto.
    destruct (Urllib3.is_exhausted (Urllib3.increment r)); eauto.
  - destruct (Urllib3.is_retry r method st ra); eauto.
    destruct (Urllib3.is_exhausted (Urllib3.increment r)); eauto.
Qed.

(** The attempts of one run of the loop that starts at attempt [n] with
    [total r] retries left. *)
Lemma urlopen_attempts fuel : forall r path net n res k,
  configured r -> 0 <= total r ->
  Urllib3.urlopen fuel r "GET" path net n = Some (res, k) ->
  (n < k)%nat
  /\ Z.of_nat k <= Z.of_nat n + total r + 1
  /\ (forall i, (n <= i)%nat -> (S i < k)%nat -> retryable (net path i) = true)
  /\ (Z.of_nat k < Z.of_nat n + total r + 1 -> retryable (net path (k - 1)%nat) = false).
Proof.
  induction fuel as [|fuel IH]; intros r path net n res k Hc Ht; [discriminate|].
  assert (Hgo : 0 <= total r - 1 ->
                retryable (net path n) = true ->
                Urllib3.urlopen fuel (Urllib3.increment r) "GET" path net (S n) = Some (res, k) ->
                (n < k)%nat
                /\ Z.of_nat k <= Z.of_nat n + total r + 1
                /\ (forall i, (n <= i)%nat -> (S i < k)%nat -> retryable (net path i) = true)
                /\ (Z.of_nat k < Z.of_nat n + total r + 1 ->
                    retryable (net path (k - 1)%nat) = false)).
  { intros Hx Hn Hrun.
    destruct (IH _ _ _ _ _ _ (configured_increment r Hc) Hx Hrun) as (H1 & H2 & H3 & H4).
    simpl in *. repeat split; try lia.
    - intros i Hi Hk. destruct (Nat.eq_dec i n) as [->|Hne]; [assumption|].
      apply H3; lia.
    - intros Hlt. apply H4. lia. }
  assert (Hmeth : Urllib3.is_method_retryable r "GET" = true).
  { unfold Urllib3.is_method_retryable. destruct Hc as [_ ->]. reflexivity. }
  simpl. unfold Urllib3.is_exhausted. simpl.
  destruct (net path n) as [| |st ra body] eqn:Hn.
  - destruct (Z.ltb_spec (total r - 1) 0) as [Hx|Hx].
    + intros [= <- <-]. repeat split; try lia.
    + apply Hgo; [assumption|reflexivity].
  - rewrite Hmeth. simpl.
    destruct (Z.ltb_spec (total r - 1) 0) as [Hx|Hx].
    + intros [= <- <-]. repeat split; try lia.
    + apply Hgo; [assumption|reflexivity].
  - destruct (Urllib3.is_retry r "GET" st ra) eqn:Hr.
    + destruct (Z.ltb_spec (total r - 1) 0) as [Hx|Hx].
      * intros [= <- <-]. repeat split; try lia.
      * apply Hgo; [assumption|].
        apply is_retry_forcelist with (r := r); assumption.
    + intros [= <- <-]. repeat split; try lia.
      intros Hlt. replace (S n - 1)%nat with n by lia. rewrite Hn.
      rewrite <- (is_retry_configured r st ra body Hc) by lia. assumption.
Qed.

Lemma session_get_counted_runs path net :
  Urllib3.urlopen (Urllib3.enough retries) retries "GET" path net 0
  = Some (session_get_counted path net).
Proof.
  unfold session_get_counted.
  destruct (urlopen_total (Urllib3.enough retries) retries "GET" path net 0 (le_n _))
    as [res ->]. reflexivity.
Qed.

(** C8, as stated, fails: [total=4] allows four retries after the first
    attempt, and a failed connection is retried though it has no status. *)
Lemma retries_counterexample :
  snd (session_get_counted "/discover/movie" always_503) = 5%nat
  /\ snd (session_get_counted "/discover/movie" fails_once) = 2%nat
  /\ snd (session_get_counted "/discover/movie" too_large_once) = 2%nat.
Proof. repeat split; reflexivity. Qed.

(** C8, amended: a GET of [tmdb_get] makes at least one and at most five
    HTTP attempts (the first and [total=4] retries); an attempt that is
    followed by another one was a transport failure, a response with
    status 429, 500, 502, 503 or 504, or a 413 with [Retry-After]; when
    fewer than five attempts were made, the last one was none of these.
    The backoff factor is configured as 0.6. *)
Theorem retries_policy (path : string) (net : network) :
  let k := snd (session_get_counted path net) in
  (1 <= k <= 5)%nat
  /\ (forall i, (S i < k)%nat -> retryable (net path i) = true)
  /\ ((k < 5)%nat -> retryable (net path (k - 1)%nat) = false)
  /\ status_forcelist retries = [429; 500; 502; 503; 504]
  /\ (backoff_factor retries == 6 # 10)%Q.
Proof.
  pose proof (session_get_counted_runs path net) as Hrun.
  destruct (session_get_counted path net) as [res k]. simpl.
  assert (Hc : configured retries) by (split; reflexivity).
  destruct (urlopen_attempts _ _ _ _ _ _ _ Hc ltac:(simpl; lia) Hrun) as (H1 & H2 & H3 & H4).
  simpl in H2. repeat split; try lia; try reflexivity.
  - intros i Hi. apply H3; lia.
  - intros Hk. apply H4. simpl. lia.
Qed.

Lemma retries_policy_witness :
  let k := snd (session_get_counted "/discover/movie" fails_once) in
  (1 <= k <= 5)%nat
  /\ (forall i, (S i < k)%nat -> retryable (fails_once "/discover/movie" i) = true)
  /\ ((k < 5)%nat -> retryable (fails_once "/discover/movie" (k - 1)%nat) = false)
  /\ status_forcelist retries = [429; 500; 502; 503; 504]
  /\ (backoff_factor retries == 6 # 10)%Q.
Proof. exact (retries_policy "/discover/movie" fails_once). Defined.

(* ===================================================================== *)
(** ** The booking workflow, proved *)
(* ===================================================================== *)

Example world_ab_users : users world_ab = [alice; bob].
Proof. reflexivity. Qed.

Lemma reachable_world_ab : reachable world_ab.
Proof.
  apply (reachable_step world_a); [|apply step_register].
  apply (reachable_step initial); [apply reachable_initial|apply step_register].
Qed.

Example book_two_seats :
  bookings (snd (movie_page (book "2" "18:00" "2026-01-02") 7 alice some_clock net_live DiskOk world_ab))
  = [ {| Booking.id := 1; Booking.user_id := 1; Booking.movie_id := 7;
         Booking.movie_title := "Heat"; Booking.name := "Alice";
         Booking.email := "alice@example.com"; Booking.seats := 2;
         Booking.showtime := "18:00"; Booking.date := "2026-01-02";
         Booking.created_at := 1700000000 |} ].
Proof. reflexivity. Qed.

Lemma field_truthy_false a : field_truthy a = false <-> missing_or_empty a.
Proof.
  unfold missing_or_empty. destruct a as [s|]; simpl.
  - rewrite negb_false_iff, String.eqb_eq. split; [intros ->; right; reflexivity|].
    intros [H|[= H]]; [discriminate|assumption].
  - split; [left|]; reflexivity.
Qed.

Lemma fields_given_false req :
  fields_given req = false
  <-> missing_or_empty (form_get "seats" (form req))
      \/ missing_or_empty (form_get "showtime" (form req))
      \/ missing_or_empty (form_get "date" (form req)).
Proof.
  unfold fields_given. rewrite !andb_false_iff, !field_truthy_false. tauto.
Qed.

Lemma post_part_POST req movie_id u clk :
  method req = POST -> post_part req movie_id u clk = submit_booking req movie_id u clk.
Proof. unfold post_part. intros ->. reflexivity. Qed.

(** What [movie_page] does with a POST whose branch returned [st] in [w1]. *)
Lemma movie_page_after req movie_id u clk net d w st w1 :
  method req = POST ->
  submit_booking req movie_id u clk w = (Returned st, w1) ->
  movie_page req movie_id u clk net d w
  = match get_movie_details movie_id net d (files w1) with
    | (Returned mv, fs') => (Returned (MovieHtml (rendered clk st mv)), set_files w1 fs')
    | (Raised e, fs') => (Raised e, set_files w1 fs')
    end.
Proof.
  intros Hm Hs. rewrite movie_page_eq, (post_part_POST _ _ _ _ Hm), Hs. reflexivity.
Qed.

Lemma movie_page_after_bookings req movie_id u clk net d w st w1 :
  method req = POST ->
  submit_booking req movie_id u clk w = (Returned st, w1) ->
  bookings (snd (movie_page req movie_id u clk net d w)) = bookings w1.
Proof.
  intros Hm Hs. rewrite (movie_page_after _ _ _ _ _ _ _ _ _ Hm Hs).
  destruct (get_movie_details movie_id net d (files w1)) as [[mv|e] fs']; reflexivity.
Qed.

(** Seats that are not a number end the request in a [ValueError], after
    the duplicate check and before anything is inserted. *)
Example seats_not_a_number :
  movie_page (book "abc" "18:00" "2026-01-02") 7 alice some_clock net_live DiskOk world_ab
  = (Raised ValueError, world_ab).
Proof. reflexivity. Qed.

(** C1, as stated, fails: [seats = "0"] does not read as a positive
    integer, yet it passes the validation and a row with no seat is
    inserted in a table that was empty. And a submission with an empty
    showtime, made while the details of the movie cannot be had, gets the
    "details unavailable" page, classified "error", not the validation
    message. *)
Lemma validation_counterexample :
  bookings world_ab = []
  /\ bookings (snd (movie_page (book "0" "18:00" "2026-01-02") 7 alice some_clock
                               net_live DiskOk world_ab))
     = [ {| Booking.id := 1; Booking.user_id := 1; Booking.movie_id := 7;
            Booking.movie_title := "Heat"; Booking.name := "Alice";
            Booking.email := "alice@example.com"; Booking.seats := 0;
            Booking.showtime := "18:00"; Booking.date := "2026-01-02";
            Booking.created_at := 1700000000 |} ]
  /\ fst (submit_booking (book "0" "18:00" "2026-01-02") 7 alice some_clock world_ab)
     = Returned (true, Some MSG_SUCCESS, Some "success")
  /\ fst (movie_page (book "2" "" "2026-01-02") 7 alice some_clock net_down DiskOk world_ab)
     = Returned (MovieHtml {| movie := VNone; booking_success := false;
                              available_dates := [];
                              message := Some MSG_UNAVAILABLE;
                              message_type := Some "error" |}).
Proof. repeat split; reflexivity. Qed.

(** C1, amended: a POST in which seats, showtime or date is missing or
    empty is rejected with the validation message, classified "warning";
    no row is inserted, whatever the detail lookup then does; the page
    shows that message when the details of the movie are available, and
    the "details unavailable" page, classified "error", when they are not.
    Validation does not ask that seats be a positive integer: a submission
    that is no duplicate, for a movie identifier in the 64-bit range of the
    store, and whose seats read as any integer in that range, inserts a row
    with that count. *)
Theorem booking_validation (req : request) (movie_id : Z) (u : User.row)
    (clk : clock) (net : network) (d : disk) (w : world) :
  method req = POST ->
  (missing_or_empty (form_get "seats" (form req))
   \/ missing_or_empty (form_get "showtime" (form req))
   \/ missing_or_empty (form_get "date" (form req))
   -> submit_booking req movie_id u clk w
      = (Returned (false, Some MSG_INCOMPLETE, Some "warning"), w)
      /\ bookings (snd (movie_page req movie_id u clk net d w)) = bookings w
      /\ (forall mv,
            fst (get_movie_details movie_id net d (files w)) = Returned mv ->
            truthy mv = true ->
            fst (movie_page req movie_id u clk net d w)
            = Returned (MovieHtml {| movie := mv; booking_success := false;
                                     available_dates := map (today_plus clk) (seq 0 7);
                                     message := Some MSG_INCOMPLETE;
                                     message_type := Some "warning" |}))
      /\ (forall mv,
            fst (get_movie_details movie_id net d (files w)) = Returned mv ->
            truthy mv = false ->
            fst (movie_page req movie_id u clk net d w)
            = Returned (MovieHtml unavailable_html)))
  /\ (forall n,
        fields_given req = true ->
        in_int64 movie_id = true ->
        existing req movie_id u w = None ->
        reads_as (field_str (form_get "seats" (form req))) n ->
        exists row,
          bookings (snd (movie_page req movie_id u clk net d w)) = bookings w ++ [row]
          /\ Booking.seats row = n).
Proof.
  intros Hm. split.
  - intros Hmiss. apply fields_given_false in Hmiss.
    pose proof (submit_incomplete req movie_id u clk w Hmiss) as Hs.
    split; [assumption|]. split; [|split].
    + apply (movie_page_after_bookings _ _ _ _ net d _ _ _ Hm Hs).
    + intros mv Hmv Ht. rewrite (movie_page_after _ _ _ _ _ _ _ _ _ Hm Hs).
      destruct (get_movie_details movie_id net d (files w)) as [[mv'|e] fs'];
        simpl in Hmv; [|discriminate].
      injection Hmv as ->. simpl. unfold rendered. rewrite Ht. reflexivity.
    + intros mv Hmv Ht. rewrite (movie_page_after _ _ _ _ _ _ _ _ _ Hm Hs).
      destruct (get_movie_details movie_id net d (files w)) as [[mv'|e] fs'];
        simpl in Hmv; [|discriminate].
      injection Hmv as ->. simpl. unfold rendered. rewrite Ht. reflexivity.
  - intros n Hg Hi He (_ & Hn & Hr). exists (new_booking req movie_id u clk n w).
    pose proof (submit_commits req movie_id u clk w n Hg Hi He Hn Hr) as Hs.
    split; [|reflexivity].
    apply (movie_page_after_bookings _ _ _ _ net d _ _ _ Hm Hs).
Qed.

Lemma booking_validation_witness :
  bookings (snd (movie_page (book "2" "" "2026-01-02") 7 alice some_clock net_live DiskOk
                            world_ab))
  = bookings world_ab.
Proof.
  apply (booking_validation (book "2" "" "2026-01-02") 7 alice some_clock net_live DiskOk
                            world_ab).
  - reflexivity.
  - right. left. right. reflexivity.
Defined.

Lemma matching_none movie_id user_id showtime date bs :
  ~ In (user_id, movie_id, showtime, date) (map booking_key bs) ->
  matching movie_id user_id showtime date bs = [].
Proof.
  unfold matching. induction bs as [|b bs IH]; simpl; intros H; [reflexivity|].
  destruct (same_booking movie_id user_id showtime date b) eqn:Hb.
  - exfalso. apply H. left. apply same_booking_key. assumption.
  - apply IH. intros Hin. apply H. right. assumption.
Qed.

Lemma matching_one movie_id user_id showtime date bs b :
  List.NoDup (map booking_key bs) -> In b bs ->
  same_booking movie_id user_id showtime date b = true ->
  length (matching movie_id user_id showtime date bs) = 1%nat.
Proof.
  unfold matching. induction bs as [|x bs IH]; simpl; intros Hnd Hin Hb; [contradiction|].
  inversion Hnd as [|? ? Hx Hnd']; subst.
  destruct (same_booking movie_id user_id showtime date x) eqn:Hsx.
  - simpl. f_equal. fold (matching movie_id user_id showtime date bs).
    rewrite matching_none; [reflexivity|].
    apply same_booking_key in Hsx. rewrite <- Hsx. assumption.
  - destruct Hin as [->|Hin]; [congruence|]. apply IH; assumption.
Qed.

Lemma find_some_of {A} (p : A -> bool) (l : list A) (x : A) :
  In x l -> p x = true -> exists y, find p l = Some y.
Proof.
  intros Hin Hp. destruct (find p l) as [y|] eqn:Hf; [eauto|].
  apply (find_none _ _ Hf) in Hin. congruence.
Qed.

(** After a POST whose fields are given, for a movie identifier that the
    store can hold and with seats that read as such an integer, a row with
    the submitted tuple is in the table. *)
Lemma booked_after req movie_id u clk net d w n :
  method req = POST -> fields_given req = true ->
  in_int64 movie_id = true ->
  py_int (field_str (form_get "seats" (form req))) = Returned n ->
  in_int64 n = true ->
  exists b,
    In b (bookings (snd (movie_page req movie_id u clk net d w)))
    /\ same_booking movie_id (User.id u)
         (field_str (form_get "showtime" (form req)))
         (field_str (form_get "date" (form req))) b = true.
Proof.
  intros Hm Hg Hi Hn Hr.
  destruct (existing req movie_id u w) as [b|] eqn:He.
  - rewrite (movie_page_after_bookings _ _ _ _ net d _ _ _ Hm
               (submit_duplicate req movie_id u clk w b Hg Hi He)).
    exists b. unfold existing in He. apply find_some in He. exact He.
  - rewrite (movie_page_after_bookings _ _ _ _ net d _ _ _ Hm
               (submit_commits req movie_id u clk w n Hg Hi He Hn Hr)).
    exists (new_booking req movie_id u clk n w). split.
    + simpl. apply in_app_iff. right. left. reflexivity.
    + apply same_booking_key. reflexivity.
Qed.

(** C2, as stated, fails. A first attempt whose seats are 2^63 passes the
    validation and the duplicate check, and its commit raises
    [OverflowError]: nothing is inserted, and a second attempt for the same
    movie, showtime and date is accepted, not rejected as a duplicate. And
    for the movie identifier 2^63 the duplicate check itself raises, for
    the first attempt and for the second. *)
Lemma duplicate_counterexample :
  movie_page (book two_63 "18:00" "2026-01-02") 7 alice some_clock net_live DiskOk world_ab
  = (Raised OverflowError, world_ab)
  /\ fst (submit_booking (book "2" "18:00" "2026-01-02") 7 alice some_clock
            (snd (movie_page (book two_63 "18:00" "2026-01-02") 7 alice some_clock
                             net_live DiskOk world_ab)))
     = Returned (true, Some MSG_SUCCESS, Some "success")
  /\ movie_page (book "2" "18:00" "2026-01-02") TWO_63 alice some_clock net_live DiskOk
                world_ab
     = (Raised OverflowError, world_ab)
  /\ fst (movie_page (book "2" "18:00" "2026-01-02") TWO_63 alice some_clock net_live
                     DiskOk
                     (snd (movie_page (book "2" "18:00" "2026-01-02") TWO_63 alice
                                      some_clock net_live DiskOk world_ab)))
     = Raised OverflowError.
Proof. repeat split; reflexivity. Qed.

(** C2, amended: in every reachable state no two rows of the booking table
    have the same (user, movie, showtime, date); and when a user submits
    the same movie, showtime and date twice, all fields given, the movie
    identifier in the 64-bit range of the store and the seats of the first
    submission an integer in that range, the second submission is rejected
    as a duplicate, classified "error", inserts nothing, and the table
    holds exactly one row with that tuple. *)
Theorem unique_bookings (w : world) :
  reachable w ->
  List.NoDup (map booking_key (bookings w))
  /\ (forall u movie_id req1 req2 clk1 clk2 net1 net2 d1 d2 showtime date n,
        In u (users w) ->
        method req1 = POST -> method req2 = POST ->
        form_get "showtime" (form req1) = Some showtime ->
        form_get "showtime" (form req2) = Some showtime ->
        form_get "date" (form req1) = Some date ->
        form_get "date" (form req2) = Some date ->
        showtime <> "" -> date <> "" ->
        in_int64 movie_id = true ->
        reads_as (field_str (form_get "seats" (form req1))) n ->
        field_truthy (form_get "seats" (form req2)) = true ->
        let w1 := snd (movie_page req1 movie_id u clk1 net1 d1 w) in
        let w2 := snd (movie_page req2 movie_id u clk2 net2 d2 w1) in
        submit_booking req2 movie_id u clk2 w1
        = (Returned (false, Some MSG_DUPLICATE, Some "error"), w1)
        /\ bookings w2 = bookings w1
        /\ length (matching movie_id (User.id u) showtime date (bookings w2)) = 1%nat
        /\ (forall ctx,
              fst (movie_page req2 movie_id u clk2 net2 d2 w1) = Returned (MovieHtml ctx) ->
              booking_success ctx = false /\ message_type ctx = Some "error"
              /\ (truthy (movie ctx) = true -> message ctx = Some MSG_DUPLICATE))).
Proof.
  intros Hr. split; [apply reachable_world_ok in Hr as [[Hk _ _ _ _] _]; exact Hk|].
  intros u movie_id req1 req2 clk1 clk2 net1 net2 d1 d2 showtime date n
         Hu Hm1 Hm2 Hs1 Hs2 Hd1 Hd2 Hsne Hdne Hi (_ & Hn & Hrange) Hseats2 w1 w2.
  assert (Hne : forall s, s <> "" -> field_truthy (Some s) = true).
  { intros s Hs. simpl. apply negb_true_iff, String.eqb_neq. assumption. }
  assert (Hg1 : fields_given req1 = true).
  { unfold fields_given. rewrite Hs1, Hd1, !Hne by assumption.
    destruct (form_get "seats" (form req1)) as [s|]; [|discriminate Hn].
    rewrite Hne; [reflexivity|]. intros ->. discriminate Hn. }
  assert (Hg2 : fields_given req2 = true).
  { unfold fields_given. rewrite Hs2, Hd2, Hseats2, !Hne by assumption. reflexivity. }
  assert (Hr1 : reachable w1).
  { apply (reachable_step w); [assumption|]. apply step_movie_page. assumption. }
  destruct (booked_after req1 movie_id u clk1 net1 d1 w n Hm1 Hg1 Hi Hn Hrange)
    as (b & Hb & Hsame).
  fold w1 in Hb. rewrite Hs1, Hd1 in Hsame. simpl in Hsame.
  assert (He2 : exists b', existing req2 movie_id u w1 = Some b').
  { unfold existing. rewrite Hs2, Hd2. simpl. eapply find_some_of; eassumption. }
  destruct He2 as [b' He2].
  pose proof (submit_duplicate req2 movie_id u clk2 w1 b' Hg2 Hi He2) as Hsub.
  assert (Hw2 : bookings w2 = bookings w1)
    by apply (movie_page_after_bookings _ _ _ _ net2 d2 _ _ _ Hm2 Hsub).
  split; [assumption|]. split; [assumption|]. split.
  - rewrite Hw2. apply reachable_world_ok in Hr1 as [[Hk _ _ _ _] _].
    eapply matching_one; eassumption.
  - intros ctx. rewrite (movie_page_after _ _ _ _ _ _ _ _ _ Hm2 Hsub).
    destruct (get_movie_details movie_id net2 d2 (files w1)) as [[mv|e] fs'];
      simpl; [|discriminate].
    intros [= <-]. unfold rendered. destruct (truthy mv) eqn:Ht; simpl.
    + repeat split. 
    + repeat split. discriminate.
Qed.

Lemma unique_bookings_witness :
  List.NoDup (map booking_key (bookings world_ab))
  /\ length (matching 7 (User.id alice) "18:00" "2026-01-02"
       (bookings
          (snd (movie_page (book "3" "18:00" "2026-01-02") 7 alice some_clock net_down DiskOk
             (snd (movie_page (book "2" "18:00" "2026-01-02") 7 alice some_clock net_live
                              DiskOk world_ab)))))) = 1%nat.
Proof.
  destruct (unique_bookings world_ab reachable_world_ab) as [Hk Hdup].
  split; [exact Hk|].
  destruct (Hdup alice 7 (book "2" "18:00" "2026-01-02") (book "3" "18:00" "2026-01-02")
                 some_clock some_clock net_live net_down DiskOk DiskOk
                 "18:00" "2026-01-02" 2) as (_ & _ & H & _);
    [left; reflexivity|reflexivity|reflexivity|reflexivity|reflexivity|reflexivity
    |reflexivity|discriminate|discriminate|reflexivity|repeat split|reflexivity|exact H].
Defined.

Lemma NoDup_map_eq {A B} (f : A -> B) (l : list A) (x y : A) :
  List.NoDup (map f l) -> In x l -> In y l -> f x = f y -> x = y.
Proof.
  induction l as [|z l IH]; simpl; intros Hnd Hx Hy Hf; [contradiction|].
  inversion Hnd as [|? ? Hz Hnd']; subst.
  destruct Hx as [->|Hx], Hy as [->|Hy].
  - reflexivity.
  - exfalso. apply Hz. rewrite Hf. apply in_map. assumption.
  - exfalso. apply Hz. rewrite <- Hf. apply in_map. assumption.
  - apply IH; assumption.
Qed.

(** C6, as stated, fails: for the identifier 2^63, which the route accepts
    and no booking has, the lookup raises [OverflowError]. *)
Lemma cancel_counterexample :
  (forall b, In b (bookings world_booked) -> Booking.id b <> TWO_63)
  /\ cancel_booking TWO_63 bob world_booked = (Raised OverflowError, world_booked).
Proof.
  split; [|reflexivity]. intros b [<-|[]]. discriminate.
Qed.

(** C6, amended: for every booking identifier and every acting user, a row
    that [cancel_booking] removes has the given identifier and the email of
    the acting user; when no row with the given identifier carries the
    acting user's email (the row is another user's, or there is none), the
    state is left as it was, and so it is when the row belongs to a user
    with another identifier. For an identifier in the 64-bit range of the
    store the operation does not raise: it redirects to the dashboard in
    these cases, and when the acting user owns the row, that row alone
    goes. *)
Theorem cancel_owner_only (w : world) (booking_id : Z) (u : User.row) :
  (in_int64 booking_id = true ->
   exists r, fst (cancel_booking booking_id u w) = Returned r)
  /\ (reachable w ->
      forall b, In b (bookings w) ->
                ~ In b (bookings (snd (cancel_booking booking_id u w))) ->
                Booking.id b = booking_id /\ Booking.email b = User.email u)
  /\ ((forall b, In b (bookings w) -> Booking.id b = booking_id ->
                 Booking.email b <> User.email u) ->
      snd (cancel_booking booking_id u w) = w
      /\ (in_int64 booking_id = true ->
          fst (cancel_booking booking_id u w)
          = Returned (RedirectTo "dashboard" None None)))
  /\ (reachable w -> In u (users w) ->
      (forall b, In b (bookings w) -> Booking.id b = booking_id ->
                 Booking.user_id b <> User.id u) ->
      snd (cancel_booking booking_id u w) = w
      /\ (in_int64 booking_id = true ->
          fst (cancel_booking booking_id u w)
          = Returned (RedirectTo "dashboard" None None)))
  /\ (reachable w -> in_int64 booking_id = true ->
      forall b, In b (bookings w) -> Booking.id b = booking_id ->
                Booking.email b = User.email u ->
                fst (cancel_booking booking_id u w)
                = Returned (BookingCancelledHtml MSG_CANCELLED "error")
                /\ forall b', In b' (bookings (snd (cancel_booking booking_id u w)))
                              <-> In b' (bookings w) /\ b' <> b).
Proof.
  assert (Hnone : (forall b, In b (bookings w) -> Booking.id b = booking_id ->
                             Booking.email b <> User.email u) ->
                  snd (cancel_booking booking_id u w) = w
                  /\ (in_int64 booking_id = true ->
                      fst (cancel_booking booking_id u w)
                      = Returned (RedirectTo "dashboard" None None))).
  { intros Hno. rewrite cancel_booking_eq.
    destruct (in_int64 booking_id); [|split; [reflexivity|discriminate]].
    destruct (find _ (bookings w)) as [b|] eqn:Hf; [|split; reflexivity].
    apply find_some in Hf as [Hin Hb]. apply andb_prop in Hb as [Hi He].
    apply Z.eqb_eq in Hi. apply String.eqb_eq in He.
    exfalso. exact (Hno b Hin Hi He). }
  split; [|split; [|split; [|split]]].
  - intros Hi. rewrite cancel_booking_eq, Hi. destruct (find _ (bookings w)); eauto.
  - intros Hr b Hin Hgone. rewrite cancel_booking_eq in Hgone.
    destruct (in_int64 booking_id); [|contradiction].
    destruct (find _ (bookings w)) as [x|] eqn:Hf; simpl in Hgone; [|contradiction].
    apply find_some in Hf as [Hx Hb]. apply andb_prop in Hb as [Hi He].
    apply Z.eqb_eq in Hi. apply String.eqb_eq in He.
    destruct (Z.eq_dec (Booking.id b) (Booking.id x)) as [E|E].
    + apply reachable_world_ok in Hr as [[_ Hids _ _ _] _].
      assert (b = x) by (eapply NoDup_map_eq; eassumption). subst b. split; assumption.
    + exfalso. apply Hgone. apply List.filter_In. split; [assumption|].
      apply negb_true_iff, Z.eqb_neq. assumption.
  - exact Hnone.
  - intros Hr Hu Hother. apply Hnone. intros b Hin Hi He.
    apply reachable_world_ok in Hr as [[_ _ _ Hemails Howned] _].
    rewrite List.Forall_forall in Howned.
    destruct (Howned b Hin) as (o & Ho & Hoid & Hoe).
    assert (o = u) by (eapply NoDup_map_eq; [exact Hemails| | |]; congruence).
    subst o. exact (Hother b Hin Hi (eq_sym Hoid)).
  - intros Hr Hrange b Hin Hi He. apply reachable_world_ok in Hr as [[_ Hids _ _ _] _].
    rewrite cancel_booking_eq, Hrange.
    destruct (find _ (bookings w)) as [x|] eqn:Hf.
    + apply find_some in Hf as [Hx Hb]. apply andb_prop in Hb as [Hxi _].
      apply Z.eqb_eq in Hxi.
      assert (x = b) by (eapply NoDup_map_eq; [exact Hids| | |]; congruence). subst x.
      split; [reflexivity|]. intros b'. simpl. rewrite List.filter_In.
      rewrite negb_true_iff, Z.eqb_neq. split.
      * intros [Hb' Hne]. split; [assumption|]. intros ->. apply Hne. reflexivity.
      * intros [Hb' Hne]. split; [assumption|]. intros E. apply Hne.
        eapply NoDup_map_eq; eassumption.
    + exfalso. apply (find_none _ _ Hf) in Hin.
      rewrite Hi, He, Z.eqb_refl, String.eqb_refl in Hin. discriminate.
Qed.

Example bob_cannot_cancel :
  cancel_booking 1 bob world_booked = (Returned (RedirectTo "dashboard" None None), world_booked).
Proof. reflexivity. Qed.

Example alice_cancels : bookings (snd (cancel_booking 1 alice world_booked)) = [].
Proof. reflexivity. Qed.

Lemma cancel_owner_only_witness :
  cancel_booking 1 bob world_booked
  = (Returned (RedirectTo "dashboard" None None), world_booked).
Proof.
  destruct (cancel_owner_only world_booked 1 bob) as (_ & _ & H & _).
  destruct H as [Hstate Hreply]; [intros b [<-|[]] _; discriminate|].
  specialize (Hreply eq_refl).
  destruct (cancel_booking 1 bob world_booked) as [r w'].
  simpl in Hstate, Hreply. rewrite Hstate, Hreply. reflexivity.
Defined.

(** C9, as stated, fails: a form that sends an empty [movie_title] gets a
    row whose title is "Unknown", not the value sent. *)
Lemma title_counterexample :
  form_get "movie_title"
    (form (POST_form [("movie_title", ""); ("seats", "2"); ("showtime", "18:00");
                      ("date", "2026-01-02")])) = Some ""
  /\ map Booking.movie_title
       (bookings (snd (movie_page
          (POST_form [("movie_title", ""); ("seats", "2"); ("showtime", "18:00");
                      ("date", "2026-01-02")]) 7 alice some_clock net_live DiskOk world_ab)))
     = ["Unknown"].
Proof. split; reflexivity. Qed.

(** C9, amended: a submission that passes validation, is no duplicate, is
    for a movie identifier in the 64-bit range of the store and has seats
    that read as an integer in that range, inserts one row. Its title is the
    [movie_title] of the form when that is not empty, and "Unknown" when
    the form has no [movie_title] or an empty one. The row is the same
    whatever the catalog answers and whatever the movie identifier's
    record says: the title is not checked against them. *)
Theorem booking_title (req : request) (movie_id : Z) (u : User.row) (clk : clock)
    (w : world) (n : Z) :
  method req = POST ->
  fields_given req = true ->
  in_int64 movie_id = true ->
  existing req movie_id u w = None ->
  reads_as (field_str (form_get "seats" (form req))) n ->
  exists row,
    (forall net d,
       bookings (snd (movie_page req movie_id u clk net d w)) = bookings w ++ [row])
    /\ (forall t, form_get "movie_title" (form req) = Some t -> t <> "" ->
                  Booking.movie_title row = t)
    /\ (missing_or_empty (form_get "movie_title" (form req)) ->
        Booking.movie_title row = "Unknown").
Proof.
  intros Hm Hg Hi He (_ & Hn & Hr). exists (new_booking req movie_id u clk n w).
  pose proof (submit_commits req movie_id u clk w n Hg Hi He Hn Hr) as Hs.
  split; [|split].
  - intros net d. apply (movie_page_after_bookings _ _ _ _ net d _ _ _ Hm Hs).
  - intros t Ht Hne. simpl. rewrite Ht. simpl.
    apply String.eqb_neq in Hne. rewrite Hne. reflexivity.
  - intros [Ht|Ht]; simpl; rewrite Ht; reflexivity.
Qed.

Lemma booking_title_witness :
  exists row,
    (forall net d,
       bookings (snd (movie_page (book "2" "18:00" "2026-01-02") 7 alice some_clock net d
                                 world_ab))
       = bookings world_ab ++ [row])
    /\ (forall t, form_get "movie_title" (form (book "2" "18:00" "2026-01-02")) = Some t ->
                  t <> "" -> Booking.movie_title row = t)
    /\ (missing_or_empty (form_get "movie_title" (form (book "2" "18:00" "2026-01-02"))) ->
        Booking.movie_title row = "Unknown").
Proof.
  apply (booking_title (book "2" "18:00" "2026-01-02") 7 alice some_clock world_ab 2);
    try reflexivity. repeat split.
Defined.

(** C10, as stated, fails: a POST that passes validation and is no
    duplicate, but whose seats are 2^63, or whose movie identifier is, ends
    in an [OverflowError] at the commit, or at the duplicate check: no
    booking is created and no page is rendered. *)
Lemma commit_counterexample :
  fields_given (book two_63 "18:00" "2026-01-02") = true
  /\ existing (book two_63 "18:00" "2026-01-02") 7 alice world_ab = None
  /\ movie_page (book two_63 "18:00" "2026-01-02") 7 alice some_clock net_down DiskOk world_ab
     = (Raised OverflowError, world_ab)
  /\ movie_page (book "2" "18:00" "2026-01-02") TWO_63 alice some_clock net_down DiskOk
                world_ab
     = (Raised OverflowError, world_ab).
Proof. repeat split; reflexivity. Qed.

(** C10, amended: on a POST that passes validation, is no duplicate, is for
    a movie identifier in the 64-bit range of the store and has seats that
    read as an integer in that range, the row is inserted before the detail
    lookup runs; the lookup runs in the state that holds the row and
    whatever it does (return a record, return nothing, raise) the row
    stays. When it returns nothing, the page is the "details unavailable"
    page, with [booking_success] false, and the row is in the table all the
    same. *)
Theorem booking_before_lookup (req : request) (movie_id : Z) (u : User.row)
    (clk : clock) (net : network) (d : disk) (w : world) (n : Z) :
  method req = POST ->
  fields_given req = true ->
  in_int64 movie_id = true ->
  existing req movie_id u w = None ->
  reads_as (field_str (form_get "seats" (form req))) n ->
  let w1 := set_bookings w (bookings w ++ [new_booking req movie_id u clk n w]) in
  submit_booking req movie_id u clk w
  = (Returned (true, Some MSG_SUCCESS, Some "success"), w1)
  /\ movie_page req movie_id u clk net d w
     = match get_movie_details movie_id net d (files w1) with
       | (Returned mv, fs') =>
           (Returned (MovieHtml (rendered clk (true, Some MSG_SUCCESS, Some "success") mv)),
            set_files w1 fs')
       | (Raised e, fs') => (Raised e, set_files w1 fs')
       end
  /\ bookings (snd (movie_page req movie_id u clk net d w))
     = bookings w ++ [new_booking req movie_id u clk n w]
  /\ (forall mv, fst (get_movie_details movie_id net d (files w)) = Returned mv ->
                 truthy mv = false ->
                 fst (movie_page req movie_id u clk net d w)
                 = Returned (MovieHtml unavailable_html)).
Proof.
  intros Hm Hg Hi He (_ & Hn & Hr) w1.
  pose proof (submit_commits req movie_id u clk w n Hg Hi He Hn Hr) as Hs. fold w1 in Hs.
  split; [assumption|]. split; [|split].
  - apply movie_page_after; assumption.
  - apply (movie_page_after_bookings _ _ _ _ net d _ _ _ Hm Hs).
  - intros mv Hmv Ht. rewrite (movie_page_after _ _ _ _ _ _ _ _ _ Hm Hs).
    change (files w1) with (files w).
    destruct (get_movie_details movie_id net d (files w)) as [[mv'|e] fs'];
      simpl in Hmv; [|discriminate].
    injection Hmv as ->. simpl. unfold rendered. rewrite Ht. reflexivity.
Qed.

Example booked_though_unavailable :
  movie_page (book "2" "18:00" "2026-01-02") 7 alice some_clock net_down DiskOk world_ab
  = (Returned (MovieHtml unavailable_html),
     set_bookings world_ab [new_booking (book "2" "18:00" "2026-01-02") 7 alice some_clock 2
                                        world_ab]).
Proof. reflexivity. Qed.

Lemma booking_before_lookup_witness :
  bookings (snd (movie_page (book "2" "18:00" "2026-01-02") 7 alice some_clock net_down
                            DiskOk world_ab))
  = bookings world_ab
    ++ [new_booking (book "2" "18:00" "2026-01-02") 7 alice some_clock 2 world_ab]
  /\ fst (movie_page (book "2" "18:00" "2026-01-02") 7 alice some_clock net_down DiskOk
                     world_ab)
     = Returned (MovieHtml unavailable_html).
Proof.
  destruct (booking_before_lookup (book "2" "18:00" "2026-01-02") 7 alice some_clock
              net_down DiskOk world_ab 2) as (_ & _ & Hrow & Hpage);
    [reflexivity|reflexivity|reflexivity|reflexivity|repeat split|].
  split; [exact Hrow|]. apply (Hpage VNone); reflexivity.
Defined.

(* ===================================================================== *)
(** ** More on the cache and the catalog *)
(* ===================================================================== *)

(** X1: reading a file back after [cache_write]: the value written when the
    write worked, what was there before when the write failed without
    touching the file, nothing when it failed after truncating it. Other
    files read as before, and reading changes nothing. *)
Theorem cache_write_then_read (file : string) (data : pyval) (fs : cache) :
  fst (cache_read file (snd (cache_write file data DiskOk fs))) = Returned data
  /\ fst (cache_read file (snd (cache_write file data DiskFailsUntouched fs)))
     = fst (cache_read file fs)
  /\ fst (cache_read file (snd (cache_write file data DiskFailsTruncated fs)))
     = Returned VNone
  /\ (forall d other, other <> file ->
        fst (cache_read other (snd (cache_write file data d fs)))
        = fst (cache_read other fs))
  /\ (forall other, snd (cache_read other fs) = fs).
Proof.
  split; [|split; [|split; [|split]]].
  - rewrite cache_write_eq, cache_read_eq. simpl. unfold stored.
    rewrite lookup_insert_eq. reflexivity.
  - rewrite cache_write_eq. reflexivity.
  - rewrite cache_write_eq, cache_read_eq. simpl. unfold stored.
    rewrite lookup_insert_eq. reflexivity.
  - intros d other Hne. rewrite cache_write_eq, !cache_read_eq. simpl. unfold stored.
    destruct d; simpl; rewrite ?lookup_insert_ne by congruence; reflexivity.
  - intros other. rewrite cache_read_eq. reflexivity.
Qed.

Lemma cache_write_then_read_witness :
  fst (cache_read recent_file (snd (cache_write (movie_file 7) heat DiskFailsTruncated ∅)))
  = fst (cache_read recent_file ∅).
Proof.
  destruct (cache_write_then_read (movie_file 7) heat ∅) as (_ & _ & _ & H & _).
  apply H. apply recent_not_movie.
Defined.

(** X2: [tmdb_get] never raises and never changes the state. It returns
    [None] when the request ends in an exception (retries used up, the
    connection failed), when the last response has a status from 400 to 599
    and when its body is not JSON; otherwise it returns the JSON value of
    the body. *)
Theorem tmdb_get_contains_failures (path : string) (net : network) (fs : cache) :
  exists v,
    tmdb_get path net fs = (Returned v, fs)
    /\ (forall e, session_get path net = Raised e -> v = VNone)
    /\ (forall r, session_get path net = Returned r ->
          (400 <= status_code r < 600 -> v = VNone)
          /\ (json_body r = None -> v = VNone)
          /\ (forall x, ~ 400 <= status_code r < 600 -> json_body r = Some x -> v = x)).
Proof.
  exists (answer path net). split; [apply tmdb_get_eq|]. unfold answer. split.
  - intros e ->. reflexivity.
  - intros r ->.
    destruct (Z.leb_spec 400 (status_code r)), (Z.ltb_spec (status_code r) 600); simpl;
      repeat split; intros; try lia; try reflexivity;
      destruct (json_body r); congruence.
Qed.

Lemma tmdb_get_contains_failures_witness :
  exists v, tmdb_get "/movie/7" always_503 (∅ : cache) = (Returned v, ∅) /\ v = VNone.
Proof.
  destruct (tmdb_get_contains_failures "/movie/7" always_503 ∅) as (v & Hv & Hraise & _).
  exists v. split; [exact Hv|]. apply (Hraise RetryError). reflexivity.
Defined.

Lemma get_movie_details_live k net d fs data :
  answer ("/movie/" ++ str_of_int k) net = data ->
  truthy data = true -> has_id data k ->
  get_movie_details k net d fs = (Returned data, after_write (movie_file k) data d fs).
Proof.
  intros Ha Ht (i & Hi & He). unfold get_movie_details. fold (movie_file k).
  run. rewrite tmdb_get_eq, Ha, Ht, Hi, He, cache_write_eq. reflexivity.
Qed.

Lemma get_movie_details_offline k net d fs :
  no_details k (answer ("/movie/" ++ str_of_int k) net) ->
  get_movie_details k net d fs = (Returned (stored (movie_file k) fs), fs).
Proof.
  intros Hno. unfold get_movie_details. fold (movie_file k).
  run. rewrite tmdb_get_eq.
  destruct Hno as [Hf|(i & Hi & He)].
  - rewrite Hf, cache_read_eq. reflexivity.
  - destruct (truthy _); rewrite ?Hi, ?He, ?cache_read_eq; reflexivity.
Qed.

(** X3: a record fetched for movie [k] (a non-empty answer whose [id]
    equals [k]) is returned at once, whatever the disk does; once written,
    it is what a later call returns when the service then has no details
    for [k]. *)
Theorem details_round_trip (k : Z) (net net' : network) (d d' : disk) (fs : cache)
    (data : pyval) :
  answer ("/movie/" ++ str_of_int k) net = data ->
  truthy data = true -> has_id data k ->
  no_details k (answer ("/movie/" ++ str_of_int k) net') ->
  fst (get_movie_details k net d fs) = Returned data
  /\ fst (get_movie_details k net' d' (snd (get_movie_details k net DiskOk fs)))
     = Returned data.
Proof.
  intros Ha Ht Hid Hno.
  rewrite !(get_movie_details_live k net _ fs data Ha Ht Hid).
  rewrite (get_movie_details_offline k net' d' _ Hno). simpl. split; [reflexivity|].
  unfold stored. rewrite lookup_insert_eq. reflexivity.
Qed.

Lemma details_round_trip_witness :
  fst (get_movie_details 7 net_live DiskFailsTruncated ∅) = Returned heat
  /\ fst (get_movie_details 7 net_down DiskOk (snd (get_movie_details 7 net_live DiskOk ∅)))
     = Returned heat.
Proof.
  apply (details_round_trip 7 net_live net_down DiskFailsTruncated DiskOk ∅ heat).
  - reflexivity.
  - reflexivity.
  - exists (VInt 7). split; reflexivity.
  - left. reflexivity.
Defined.



Lemma after_write_other file data d fs other :
  other <> file -> after_write file data d fs !! other = fs !! other.
Proof.
  intros Hne. destruct d; simpl; rewrite ?lookup_insert_ne by congruence; reflexivity.
Qed.

Lemma get_movie_details_state k net d fs :
  snd (get_movie_details k net d fs) = fs
  \/ exists data, snd (get_movie_details k net d fs) = after_write (movie_file k) data d fs.
Proof.
  unfold get_movie_details. fold (movie_file k). run. rewrite tmdb_get_eq.
  destruct (truthy _).
  - destruct (py_get _ "id") as [i|e]; [|left; reflexivity].
    destruct (py_eq_int i k).
    + right. eexists. rewrite cache_write_eq. reflexivity.
    + left. rewrite cache_read_eq. reflexivity.
  - left. rewrite cache_read_eq. reflexivity.
Qed.

Lemma get_recent_movies_state net d fs :
  snd (get_recent_movies net d fs) = fs
  \/ exists data, snd (get_recent_movies net d fs) = after_write recent_file data d fs.
Proof.
  rewrite get_recent_movies_eq.
  match goal with |- context [live_block ?a ?f ?d ?k fs] =>
    destruct (live_block_end a f d k fs) as [movies Hne Hall| |e He] end;
    [right; eexists; reflexivity| |left; reflexivity].
  match goal with |- context [live_block ?a ?f ?d ?k fs] =>
    destruct (live_block_end a f d k fs) as [movies Hne Hall| |e He] end;
    [right; eexists; reflexivity|left; reflexivity|left; reflexivity].
Qed.

(** X5: the two catalog functions keep to their own files.
    [get_movie_details a] changes no file but the one of movie [a], and
    [get_recent_movies] none but the one of the recent list; so fetching
    movie [a] does not change what the cache gives for another movie [b]. *)
Theorem catalog_files_apart (a : Z) (net : network) (d : disk) (fs : cache) :
  (forall file, file <> movie_file a ->
     snd (get_movie_details a net d fs) !! file = fs !! file)
  /\ (forall file, file <> recent_file ->
        snd (get_recent_movies net d fs) !! file = fs !! file)
  /\ (forall b net' d',
        b <> a ->
        no_details b (answer ("/movie/" ++ str_of_int b) net') ->
        fst (get_movie_details b net' d' (snd (get_movie_details a net d fs)))
        = fst (get_movie_details b net' d' fs)).
Proof.
  assert (Hm : forall file, file <> movie_file a ->
                 snd (get_movie_details a net d fs) !! file = fs !! file).
  { intros file Hne. destruct (get_movie_details_state a net d fs) as [->|[data ->]];
      [reflexivity|]. apply after_write_other. assumption. }
  split; [exact Hm|]. split.
  - intros file Hne. destruct (get_recent_movies_state net d fs) as [->|[data ->]];
      [reflexivity|]. apply after_write_other. assumption.
  - intros b net' d' Hne Hno.
    rewrite !(get_movie_details_offline b net' d' _ Hno). simpl. unfold stored.
    rewrite Hm; [reflexivity|]. intros E. apply movie_file_inj in E. contradiction.
Qed.

Lemma catalog_files_apart_witness :
  fst (get_movie_details 8 net_down DiskOk (snd (get_movie_details 7 net_live DiskOk ∅)))
  = fst (get_movie_details 8 net_down DiskOk ∅).
Proof.
  destruct (catalog_files_apart 7 net_live DiskOk ∅) as (_ & _ & H).
  apply H; [discriminate|]. left. reflexivity.
Defined.

(** X6: the order of the sources of [get_recent_movies]. When the recent
    query shows movies, they are returned and written, and the trending
    query does not matter. When it shows nothing and the trending query
    shows movies, those are returned and written to the file of the recent
    list, from which a later call without network gets them. *)
Theorem recent_then_trending (net : network) (d : disk) (fs : cache) (movies : list pyval) :
  (shows (answer "/discover/movie" net) movies ->
   get_recent_movies net d fs
   = (Returned (VList movies), after_write recent_file (VList movies) d fs))
  /\ (nothing_usable (answer "/discover/movie" net) = true ->
      shows (answer "/trending/movie/week" net) movies ->
      get_recent_movies net d fs
      = (Returned (VList movies), after_write recent_file (VList movies) d fs)
      /\ forall net' d',
           nothing_usable (answer "/discover/movie" net') = true ->
           nothing_usable (answer "/trending/movie/week" net') = true ->
           fst (get_recent_movies net' d' (snd (get_recent_movies net DiskOk fs)))
           = Returned (VList movies)).
Proof.
  split.
  - intros Hs. rewrite get_recent_movies_eq. apply live_block_shows. assumption.
  - intros Hn Hs.
    assert (Hrun : forall d0, get_recent_movies net d0 fs
                   = (Returned (VList movies), after_write recent_file (VList movies) d0 fs)).
    { intros d0. rewrite get_recent_movies_eq, (live_block_nothing _ _ _ _ _ Hn).
      apply live_block_shows. assumption. }
    split; [apply Hrun|]. intros net' d' H1 H2.
    rewrite Hrun, (recent_falls_back net' d' _ H1 H2). simpl.
    unfold stored. rewrite lookup_insert_eq. unfold or_empty_list.
    destruct Hs as (_ & _ & _ & _ & _ & _ & Hne).
    destruct movies; [congruence|reflexivity].
Qed.

Lemma recent_then_trending_witness :
  get_recent_movies net_trending DiskOk ∅
  = (Returned (VList [heat]), after_write recent_file (VList [heat]) DiskOk ∅).
Proof.
  destruct (recent_then_trending net_trending DiskOk ∅ [heat]) as [_ H].
  apply H.
  - reflexivity.
  - exists [("results", VList [heat])], [heat]. repeat split; discriminate.
Defined.

(* ===================================================================== *)
(** ** More on the store and its routes *)
(* ===================================================================== *)

(** X7: in every reachable state the identifiers of the bookings are
    distinct, so are the identifiers and the emails of the users, and every
    booking belongs to a registered user whose email it carries. *)
Theorem store_integrity (w : world) :
  reachable w ->
  List.NoDup (map Booking.id (bookings w))
  /\ List.NoDup (map User.id (users w))
  /\ List.NoDup (map User.email (users w))
  /\ (forall b, In b (bookings w) ->
        exists u, In u (users w) /\ User.id u = Booking.user_id b
                  /\ User.email u = Booking.email b).
Proof.
  intros Hr. apply reachable_world_ok in Hr as [[_ Hi Hu He Ho] _].
  repeat split; try assumption.
  intros b Hb. rewrite List.Forall_forall in Ho. exact (Ho b Hb).
Qed.

Lemma store_integrity_witness :
  List.NoDup (map Booking.id (bookings world_booked))
  /\ List.NoDup (map User.id (users world_booked))
  /\ List.NoDup (map User.email (users world_booked))
  /\ (forall b, In b (bookings world_booked) ->
        exists u, In u (users world_booked) /\ User.id u = Booking.user_id b
                  /\ User.email u = Booking.email b).
Proof.
  apply (store_integrity world_booked).
  apply (reachable_step world_ab).
  - apply (reachable_step world_a); [|apply step_register].
    apply (reachable_step initial); [apply reachable_initial|apply step_register].
  - apply (step_movie_page (book "2" "18:00" "2026-01-02") 7 alice some_clock net_live
                           DiskOk world_ab).
    left. reflexivity.
Defined.

Lemma post_part_grows req movie_id u clk w :
  users (snd (post_part req movie_id u clk w)) = users w
  /\ exists added,
       bookings (snd (post_part req movie_id u clk w)) = bookings w ++ added
       /\ (length added <= 1)%nat
       /\ (method req = GET -> added = [])
       /\ (forall b, In b added ->
             Booking.user_id b = User.id u /\ Booking.email b = User.email u
             /\ Booking.name b = User.name u /\ Booking.movie_id b = movie_id).
Proof.
  assert (Hnone : forall w', users w' = users w -> bookings w' = bookings w ->
            users w' = users w
            /\ exists added,
                 bookings w' = bookings w ++ added
                 /\ (length added <= 1)%nat
                 /\ (method req = GET -> added = [])
                 /\ (forall b, In b added ->
                       Booking.user_id b = User.id u /\ Booking.email b = User.email u
                       /\ Booking.name b = User.name u /\ Booking.movie_id b = movie_id)).
  { intros w' Hu Hb. split; [exact Hu|]. exists []. rewrite app_nil_r.
    split; [exact Hb|]. split; [simpl; lia|]. split; [reflexivity|]. intros x []. }
  unfold post_part. destruct (method req) eqn:Hm.
  - apply Hnone; reflexivity.
  - destruct (submit_booking_submitted req movie_id u clk w)
      as [Hg|Hg Hi|x Hg Hi He|Hg Hi He Hn|n Hg Hi He Hn Hr|n Hg Hi He Hn Hr];
      simpl; try (apply Hnone; reflexivity).
    split; [reflexivity|]. exists [new_booking req movie_id u clk n w].
    split; [reflexivity|]. split; [simpl; lia|]. split; [discriminate|].
    intros x [<-|[]]. repeat split.
Qed.

(** X8: whatever is submitted and however the request ends, [movie_page]
    leaves the users and the bookings that were there as they are, in their
    order; it adds one row at most, none on a GET, and the row it adds
    carries the identifier, name and email of the logged-in user and the
    movie identifier of the page. *)
Theorem movie_page_only_adds (req : request) (movie_id : Z) (u : User.row) (clk : clock)
    (net : network) (d : disk) (w : world) :
  users (snd (movie_page req movie_id u clk net d w)) = users w
  /\ exists added,
       bookings (snd (movie_page req movie_id u clk net d w)) = bookings w ++ added
       /\ (length added <= 1)%nat
       /\ (method req = GET -> added = [])
       /\ (forall b, In b added ->
             Booking.user_id b = User.id u /\ Booking.email b = User.email u
             /\ Booking.name b = User.name u /\ Booking.movie_id b = movie_id).
Proof.
  rewrite movie_page_snd.
  pose proof (post_part_grows req movie_id u clk w) as H.
  destruct (post_part req movie_id u clk w) as [[st|e] w1]; exact H.
Qed.

Lemma movie_page_only_adds_witness :
  exists added,
    bookings (snd (movie_page {| method := GET; form := [("seats", "2")] |} 7 alice some_clock
                              net_live DiskOk world_booked))
    = bookings world_booked ++ added
    /\ added = [].
Proof.
  destruct (movie_page_only_adds {| method := GET; form := [("seats", "2")] |} 7 alice
              some_clock net_live DiskOk world_booked) as (_ & added & Hb & _ & Hget & _).
  exists added. split; [exact Hb|]. apply Hget. reflexivity.
Defined.

Lemma find_unique {A} (f : A -> Z) (l : list A) (x : A) :
  List.NoDup (map f l) -> In x l -> find (fun y => f y =? f x) l = Some x.
Proof.
  induction l as [|y l IH]; simpl; intros Hnd Hin; [contradiction|].
  inversion Hnd as [|? ? Hy Hnd']; subst.
  destruct (Z.eqb_spec (f y) (f x)) as [E|E].
  - destruct Hin as [->|Hin]; [reflexivity|].
    exfalso. apply Hy. rewrite E. apply in_map. assumption.
  - destruct Hin as [->|Hin]; [congruence|]. apply IH; assumption.
Qed.

Lemma remove_by_id_other (b : Booking.row) (l : list Booking.row) :
  ~ In (Booking.id b) (map Booking.id l) ->
  List.filter (fun x => negb (Booking.id x =? Booking.id b)) l = l.
Proof.
  induction l as [|y l IH]; simpl; intros Hx; [reflexivity|].
  destruct (Z.eqb_spec (Booking.id y) (Booking.id b)) as [E|E]; simpl.
  - exfalso. apply Hx. left. exact E.
  - f_equal. apply IH. intros H. apply Hx. right. exact H.
Qed.

Lemma remove_by_id_length (b : Booking.row) (l : list Booking.row) :
  List.NoDup (map Booking.id l) -> In b l ->
  S (length (List.filter (fun x => negb (Booking.id x =? Booking.id b)) l)) = length l.
Proof.
  induction l as [|x l IH]; simpl; intros Hids Hb; [contradiction|].
  inversion Hids as [|? ? Hx Hl]; subst.
  destruct Hb as [->|Hb].
  - rewrite Z.eqb_refl. simpl. rewrite (remove_by_id_other b l Hx). reflexivity.
  - destruct (Z.eqb_spec (Booking.id x) (Booking.id b)) as [E|E]; simpl.
    + exfalso. apply Hx. rewrite E. apply in_map. assumption.
    + rewrite <- (IH Hl Hb). reflexivity.
Qed.

Lemma cancel_booking_own w b u :
  store_ok w -> In b (bookings w) -> Booking.email b = User.email u ->
  in_int64 (Booking.id b) = true ->
  cancel_booking (Booking.id b) u w
  = (Returned (BookingCancelledHtml MSG_CANCELLED "error"),
     set_bookings w (List.filter (fun x => negb (Booking.id x =? Booking.id b)) (bookings w))).
Proof.
  intros [_ Hids _ _ _] Hin He Hrange. rewrite cancel_booking_eq, Hrange.
  destruct (find _ (bookings w)) as [x|] eqn:Hf.
  - apply find_some in Hf as [Hx Hb]. apply andb_prop in Hb as [Hxi _].
    apply Z.eqb_eq in Hxi.
    assert (x = b) by (eapply NoDup_map_eq; eassumption). subst x. reflexivity.
  - exfalso. apply (find_none _ _ Hf) in Hin.
    rewrite He, Z.eqb_refl, String.eqb_refl in Hin. discriminate.
Qed.

(** The integers of the request that a stored booking carries fit the
    store: a row with another movie identifier or seat count is not
    inserted. *)
Lemma post_part_fits req movie_id u clk w :
  List.Forall fits (bookings w) ->
  List.Forall fits (bookings (snd (post_part req movie_id u clk w))).
Proof.
  intros Hw. unfold post_part. destruct (method req); [exact Hw|].
  destruct (submit_booking_submitted req movie_id u clk w)
    as [Hg|Hg Hi|x Hg Hi He|Hg Hi He Hn|n Hg Hi He Hn Hr|n Hg Hi He Hn Hr];
    simpl; try exact Hw.
  apply Forall_app. split; [exact Hw|]. constructor; [|constructor].
  split; assumption.
Qed.

Lemma reachable_fits w : reachable w -> List.Forall fits (bookings w).
Proof.
  induction 1 as [|w w' _ IH Hstep]; [constructor|].
  destruct Hstep as [net d w|k net d w|req k u clk net d w Hu|b u w Hu|req hash w].
  - rewrite on_cache_snd. exact IH.
  - rewrite on_cache_snd. exact IH.
  - rewrite movie_page_snd.
    pose proof (post_part_fits req k u clk w IH) as H1.
    destruct (post_part req k u clk w) as [[st|e] w1]; exact H1.
  - rewrite cancel_booking_eq. destruct (in_int64 b); [|exact IH].
    destruct (find _ (bookings w)); [|exact IH]. simpl.
    apply List.Forall_forall. intros x Hx. apply List.filter_In in Hx as [Hx _].
    rewrite List.Forall_forall in IH. exact (IH x Hx).
  - unfold register. destruct (method req); [exact IH|].
    unfold form_item. run.
    destruct (form_get "name" (form req)); [|exact IH].
    destruct (form_get "email" (form req)); [|exact IH].
    destruct (form_get "password" (form req)); [|exact IH].
    unfold user_first. destruct (find _ (users w)); exact IH.
Qed.

(** X9: cancelling frees the slot. In a reachable state, once the owner
    has cancelled a booking (by its identifier, which is in the 64-bit
    range), a new submission by that user for the same movie, showtime and
    date, with seats that read as an integer in that range, is not a
    duplicate any more: it is accepted and inserts a row. *)
Theorem cancel_then_book_again (w : world) (u : User.row) (b : Booking.row)
    (req : request) (clk : clock) (n : Z) :
  reachable w -> In u (users w) -> In b (bookings w) ->
  Booking.email b = User.email u ->
  in_int64 (Booking.id b) = true ->
  fields_given req = true ->
  form_get "showtime" (form req) = Some (Booking.showtime b) ->
  form_get "date" (form req) = Some (Booking.date b) ->
  reads_as (field_str (form_get "seats" (form req))) n ->
  let w1 := snd (cancel_booking (Booking.id b) u w) in
  ~ In b (bookings w1)
  /\ fst (submit_booking req (Booking.movie_id b) u clk w1)
     = Returned (true, Some MSG_SUCCESS, Some "success")
  /\ length (bookings (snd (submit_booking req (Booking.movie_id b) u clk w1)))
     = length (bookings w).
Proof.
  intros Hr Hu Hb He Hid Hg Hs Hd (_ & Hn & Hrange) w1.
  pose proof (reachable_world_ok w Hr) as [Hok _].
  assert (Hmovie : in_int64 (Booking.movie_id b) = true).
  { pose proof (reachable_fits w Hr) as Hf. rewrite List.Forall_forall in Hf.
    exact (proj1 (Hf b Hb)). }
  assert (Hw1 : w1 = set_bookings w
                  (List.filter (fun x => negb (Booking.id x =? Booking.id b)) (bookings w))).
  { unfold w1. rewrite (cancel_booking_own w b u Hok Hb He Hid). reflexivity. }
  assert (Hgone : ~ In b (bookings w1)).
  { rewrite Hw1. simpl. rewrite List.filter_In, Z.eqb_refl. intros [_ H]. discriminate. }
  assert (Hnone : existing req (Booking.movie_id b) u w1 = None).
  { unfold existing. rewrite Hs, Hd. simpl.
    destruct (find _ (bookings w1)) as [x|] eqn:Hf; [|reflexivity].
    apply find_some in Hf as [Hx Hkey]. apply same_booking_key in Hkey.
    exfalso. apply Hgone.
    assert (Hxw : In x (bookings w)).
    { rewrite Hw1 in Hx. simpl in Hx. apply List.filter_In in Hx as [Hx _]. exact Hx. }
    destruct Hok as [Hkeys _ _ Hemails Howned].
    rewrite List.Forall_forall in Howned.
    destruct (Howned b Hb) as (o & Ho & Hoid & Hoe).
    assert (o = u) by (eapply NoDup_map_eq; [exact Hemails| | |]; congruence). subst o.
    assert (x = b).
    { eapply NoDup_map_eq; [exact Hkeys|assumption|assumption|].
      rewrite Hkey. unfold booking_key. rewrite Hoid. reflexivity. }
    subst x. exact Hx. }
  split; [exact Hgone|].
  rewrite (submit_commits req (Booking.movie_id b) u clk w1 n Hg Hmovie Hnone Hn Hrange).
  simpl. split; [reflexivity|].
  rewrite length_app. simpl. rewrite Hw1. simpl.
  destruct Hok as [_ Hids _ _ _]. rewrite Nat.add_1_r.
  apply remove_by_id_length; assumption.
Qed.

Lemma cancel_then_book_again_witness :
  fst (submit_booking (book "3" "18:00" "2026-01-02") 7 alice some_clock
         (snd (cancel_booking 1 alice world_booked)))
  = Returned (true, Some MSG_SUCCESS, Some "success").
Proof.
  assert (Hr : reachable world_booked).
  { apply (reachable_step world_ab).
    - apply (reachable_step world_a); [|apply step_register].
      apply (reachable_step initial); [apply reachable_initial|apply step_register].
    - apply (step_movie_page (book "2" "18:00" "2026-01-02") 7 alice some_clock net_live
                             DiskOk world_ab).
      left. reflexivity. }
  destruct (cancel_then_book_again world_booked alice
              (new_booking (book "2" "18:00" "2026-01-02") 7 alice some_clock 2 world_ab)
              (book "3" "18:00" "2026-01-02") some_clock 3 Hr) as (_ & H & _);
    [left; reflexivity|left; reflexivity|reflexivity|reflexivity|reflexivity|reflexivity
    |reflexivity|repeat split|exact H].
Defined.

(** X10: however it ends, [cancel_booking] never touches the users or the
    cache and never adds a booking; in a reachable state it removes one row
    at most; and asking again for the same cancellation changes nothing
    more: the state stays as the first cancellation left it, and for an
    identifier in the 64-bit range the answer is the redirection to the
    dashboard. *)
Theorem cancel_effects (w : world) (booking_id : Z) (u : User.row) :
  let w1 := snd (cancel_booking booking_id u w) in
  users w1 = users w /\ files w1 = files w
  /\ (forall b, In b (bookings w1) -> In b (bookings w))
  /\ (reachable w ->
      length (bookings w1) = length (bookings w)
      \/ S (length (bookings w1)) = length (bookings w))
  /\ snd (cancel_booking booking_id u w1) = w1
  /\ (in_int64 booking_id = true ->
      fst (cancel_booking booking_id u w1) = Returned (RedirectTo "dashboard" None None)).
Proof.
  intros w1. unfold w1. rewrite cancel_booking_eq.
  destruct (in_int64 booking_id) eqn:Hrange.
  - destruct (find _ (bookings w)) as [b|] eqn:Hf; simpl.
    + pose proof (find_some _ _ Hf) as [Hb Hmatch].
      apply andb_prop in Hmatch as [Hid _]. apply Z.eqb_eq in Hid.
      split; [reflexivity|]. split; [reflexivity|]. split; [|split].
      * intros x Hx. apply List.filter_In in Hx as [Hx _]. exact Hx.
      * intros Hr. right. apply reachable_world_ok in Hr as [[_ Hids _ _ _] _].
        apply remove_by_id_length; assumption.
      * rewrite cancel_booking_eq, Hrange. simpl.
        destruct (find _ (List.filter _ (bookings w))) as [x|] eqn:Hf2;
          [|split; reflexivity].
        apply find_some in Hf2 as [Hx Hm]. apply List.filter_In in Hx as [_ Hx].
        apply andb_prop in Hm as [Hxi _]. apply Z.eqb_eq in Hxi.
        apply negb_true_iff, Z.eqb_neq in Hx. congruence.
    + split; [reflexivity|]. split; [reflexivity|]. split; [auto|]. split; [auto|].
      rewrite cancel_booking_eq, Hrange, Hf. split; reflexivity.
  - simpl. split; [reflexivity|]. split; [reflexivity|]. split; [auto|]. split; [auto|].
    rewrite cancel_booking_eq, Hrange. split; [reflexivity|discriminate].
Qed.

Lemma cancel_effects_witness :
  length (bookings (snd (cancel_booking 1 alice world_booked))) = length (bookings world_booked)
  \/ S (length (bookings (snd (cancel_booking 1 alice world_booked))))
     = length (bookings world_booked).
Proof.
  destruct (cancel_effects world_booked 1 alice) as (_ & _ & _ & H & _).
  apply H.
  apply (reachable_step world_ab).
  - apply (reachable_step world_a); [|apply step_register].
    apply (reachable_step initial); [apply reachable_initial|apply step_register].
  - apply (step_movie_page (book "2" "18:00" "2026-01-02") 7 alice some_clock net_live
                           DiskOk world_ab).
    left. reflexivity.
Defined.

Lemma register_post req hash w name email pw :
  method req = POST ->
  form_get "name" (form req) = Some name ->
  form_get "email" (form req) = Some email ->
  form_get "password" (form req) = Some pw ->
  register req hash w
  = match find (fun u => String.eqb (User.email u) email) (users w) with
    | Some _ => (Returned (RegisterHtml (Some MSG_REGISTERED) (Some "danger")), w)
    | None => (Returned (RedirectTo "login" (Some MSG_CREATED) (Some "success")),
               set_users w (users w ++ [new_user name email (hash pw) w]))
    end.
Proof.
  intros Hm Hn He Hp. unfold register, form_item. rewrite Hm, Hn, He, Hp.
  run. unfold user_first. destruct (find _ (users w)); reflexivity.
Qed.

(** X11: registration, case by case. A POST that lacks the name, the email
    or the password ends in a 400 error and changes nothing. With all
    three: when a user has that email already, the answer is the "already
    registered" message, classified "danger", and nothing changes; when
    none has, one user is appended, with the name and email of the form,
    the hash of the password, and an identifier no user had, and the answer
    redirects to the login page. Bookings and cache stay as they are. *)
Theorem register_cases (req : request) (hash : string -> string) (w : world) :
  method req = POST ->
  (form_get "name" (form req) = None \/ form_get "email" (form req) = None
   \/ form_get "password" (form req) = None ->
   register req hash w = (Raised BadRequestKeyError, w))
  /\ (forall name email pw,
        form_get "name" (form req) = Some name ->
        form_get "email" (form req) = Some email ->
        form_get "password" (form req) = Some pw ->
        ((exists u, In u (users w) /\ User.email u = email) ->
         register req hash w
         = (Returned (RegisterHtml (Some MSG_REGISTERED) (Some "danger")), w))
        /\ ((forall u, In u (users w) -> User.email u <> email) ->
            exists new,
              register req hash w
              = (Returned (RedirectTo "login" (Some MSG_CREATED) (Some "success")),
                 set_users w (users w ++ [new]))
              /\ User.name new = name /\ User.email new = email
              /\ User.password new = hash pw
              /\ ~ In (User.id new) (map User.id (users w)))).
Proof.
  intros Hm. split.
  - intros Hmiss. unfold register, form_item. rewrite Hm. run.
    destruct (form_get "name" (form req)) as [name|]; [|reflexivity].
    destruct (form_get "email" (form req)) as [email|]; [|reflexivity].
    destruct (form_get "password" (form req)) as [pw|]; [|reflexivity].
    destruct Hmiss as [H|[H|H]]; discriminate H.
  - intros name email pw Hn He Hp.
    rewrite (register_post req hash w name email pw Hm Hn He Hp). split.
    + intros (u & Hu & Hue).
      destruct (find_some_of (fun x => String.eqb (User.email x) email) (users w) u Hu)
        as [y ->]; [|reflexivity].
      rewrite Hue. apply String.eqb_refl.
    + intros Hfresh.
      destruct (find _ (users w)) as [y|] eqn:Hf.
      * apply find_some in Hf as [Hy Hye]. apply String.eqb_eq in Hye.
        exfalso. exact (Hfresh y Hy Hye).
      * exists (new_user name email (hash pw) w). repeat split. apply fresh_id_new.
Qed.

Lemma register_cases_witness :
  register (POST_form [("name", "Eve"); ("email", "alice@example.com"); ("password", "e")])
           some_hash world_ab
  = (Returned (RegisterHtml (Some MSG_REGISTERED) (Some "danger")), world_ab).
Proof.
  destruct (register_cases
              (POST_form [("name", "Eve"); ("email", "alice@example.com"); ("password", "e")])
              some_hash world_ab eq_refl) as [_ H].
  destruct (H "Eve" "alice@example.com" "e" eq_refl eq_refl eq_refl) as [Htaken _].
  apply Htaken. exists alice. split; [left; reflexivity|reflexivity].
Defined.

(** X12: registering the same form twice. Whatever the state, after a POST
    with name, email and password the email is taken; the same POST again
    (with any hash) answers "already registered" and leaves the state as
    the first one left it, so one user at most is added. *)
Theorem register_twice (req : request) (hash hash' : string -> string) (w : world)
    (name email pw : string) :
  method req = POST ->
  form_get "name" (form req) = Some name ->
  form_get "email" (form req) = Some email ->
  form_get "password" (form req) = Some pw ->
  let w1 := snd (register req hash w) in
  (exists u, In u (users w1) /\ User.email u = email)
  /\ register req hash' w1
     = (Returned (RegisterHtml (Some MSG_REGISTERED) (Some "danger")), w1)
  /\ (length (users w1) <= S (length (users w)))%nat.
Proof.
  intros Hm Hn He Hp w1.
  assert (Htaken : exists u, In u (users w1) /\ User.email u = email).
  { unfold w1. rewrite (register_post req hash w name email pw Hm Hn He Hp).
    destruct (find _ (users w)) as [y|] eqn:Hf; simpl.
    - apply find_some in Hf as [Hy Hye]. apply String.eqb_eq in Hye. eauto.
    - exists (new_user name email (hash pw) w). split; [|reflexivity].
      apply in_app_iff. right. left. reflexivity. }
  split; [exact Htaken|]. split.
  - rewrite (register_post req hash' w1 name email pw Hm Hn He Hp).
    destruct Htaken as (u & Hu & Hue).
    destruct (find_some_of (fun x => String.eqb (User.email x) email) (users w1) u Hu)
      as [y ->]; [|reflexivity].
    rewrite Hue. apply String.eqb_refl.
  - unfold w1. rewrite (register_post req hash w name email pw Hm Hn He Hp).
    destruct (find _ (users w)); simpl; [lia|]. rewrite length_app. simpl. lia.
Qed.

Lemma register_twice_witness :
  register (POST_form [("name", "Eve"); ("email", "eve@example.com"); ("password", "e")])
           some_hash
           (snd (register (POST_form [("name", "Eve"); ("email", "eve@example.com");
                                      ("password", "e")]) some_hash world_ab))
  = (Returned (RegisterHtml (Some MSG_REGISTERED) (Some "danger")),
     snd (register (POST_form [("name", "Eve"); ("email", "eve@example.com");
                               ("password", "e")]) some_hash world_ab)).
Proof.
  apply (register_twice
           (POST_form [("name", "Eve"); ("email", "eve@example.com"); ("password", "e")])
           some_hash some_hash world_ab "Eve" "eve@example.com" "e");
    reflexivity.
Defined.

(* ===================================================================== *)
(** ** The session: [load_user], [login], [logout] *)
(* ===================================================================== *)

Lemma parse_digits_uint d : forall acc after_digit,
  d <> Decimal.Nil \/ after_digit = true ->
  parse_digits acc after_digit (NilEmpty.string_of_uint d) = Some (uint_val d acc).
Proof.
  induction d; intros acc after_digit Hd; simpl;
    try (apply IHd; right; reflexivity).
  destruct Hd as [Hd| ->]; [congruence|reflexivity].
Qed.

Lemma uint_val_acc d : forall acc,
  Z.pos (Pos.of_uint_acc d acc) = uint_val d (Z.pos acc).
Proof.
  induction d; intros acc; simpl; try reflexivity; rewrite IHd; f_equal; lia.
Qed.

Lemma uint_val_of_uint d : uint_val d 0 = Z.of_N (Pos.of_uint d).
Proof.
  induction d; simpl; try reflexivity; try assumption;
    rewrite uint_val_acc; reflexivity.
Qed.

Lemma no_space_uint d : no_space (NilEmpty.string_of_uint d) = true.
Proof. induction d; simpl; try reflexivity; assumption. Qed.

Lemma lstrip_no_space s : no_space s = true -> lstrip s = s.
Proof.
  destruct s as [|c s]; simpl; [reflexivity|]. intros H.
  apply andb_prop in H as [H _]. apply negb_true_iff in H. rewrite H. reflexivity.
Qed.

Lemma rstrip_no_space s : no_space s = true -> rstrip s = s.
Proof.
  induction s as [|c s IH]; simpl; [reflexivity|]. intros H.
  apply andb_prop in H as [Hc Hs]. apply negb_true_iff in Hc.
  rewrite (IH Hs), Hc. destruct s; reflexivity.
Qed.

Lemma string_of_uint_nonnil d :
  d <> Decimal.Nil -> exists c s, NilEmpty.string_of_uint d = String c s
                                  /\ Ascii.eqb c "-" = false /\ Ascii.eqb c "+" = false.
Proof. destruct d; intros H; [congruence| ..]; simpl; eexists _, _; repeat split. Qed.

Lemma py_int_str_of_int (n : Z) : py_int (str_of_int n) = Returned n.
Proof.
  assert (Hpos : forall d, d <> Decimal.Nil ->
            py_int (NilEmpty.string_of_uint d) = Returned (Z.of_N (Pos.of_uint d))).
  { intros d Hd. unfold py_int.
    rewrite (lstrip_no_space _ (no_space_uint d)), (rstrip_no_space _ (no_space_uint d)).
    destruct (string_of_uint_nonnil d Hd) as (c & s & Hs & Hm & Hp).
    rewrite Hs, Hm, Hp, <- Hs, parse_digits_uint by (left; exact Hd).
    rewrite uint_val_of_uint. reflexivity. }
  assert (Hneg : forall d, d <> Decimal.Nil ->
            py_int (String "-" (NilEmpty.string_of_uint d))
            = Returned (- Z.of_N (Pos.of_uint d))).
  { intros d Hd. unfold py_int.
    assert (Hns : no_space (String "-" (NilEmpty.string_of_uint d)) = true)
      by (simpl; apply no_space_uint).
    rewrite (lstrip_no_space _ Hns), (rstrip_no_space _ Hns).
    rewrite Ascii.eqb_refl, parse_digits_uint by (left; exact Hd).
    rewrite uint_val_of_uint. reflexivity. }
  assert (Hnz : forall d, d <> Decimal.Nil ->
            NilZero.string_of_uint d = NilEmpty.string_of_uint d).
  { intros d Hd. destruct d; [congruence| ..]; reflexivity. }
  unfold str_of_int. destruct n as [|p|p].
  - reflexivity.
  - pose proof (Unsigned.to_uint_nonnil p) as Hnn.
    cbn [Z.to_int NilZero.string_of_int].
    rewrite (Hnz _ Hnn), (Hpos _ Hnn), Unsigned.of_to. reflexivity.
  - pose proof (Unsigned.to_uint_nonnil p) as Hnn.
    cbn [Z.to_int NilZero.string_of_int].
    rewrite (Hnz _ Hnn), (Hneg _ Hnn), Unsigned.of_to. reflexivity.
Qed.

Lemma load_user_id w u :
  List.NoDup (map User.id (users w)) -> In u (users w) ->
  load_user (str_of_int (User.id u)) w = (Returned (Some u), w).
Proof.
  intros Hids Hu. unfold load_user, user_get. run.
  rewrite py_int_str_of_int, (find_unique User.id (users w) u Hids Hu). reflexivity.
Qed.

(** X14: the [user_loader]. In a reachable state the text of a user's
    identifier loads that user. An ASCII text that [int] does not read (a
    session that was tampered with) ends in [ValueError]; the text of an
    identifier in the 64-bit range that no user has loads nothing.
    [load_user] never changes the state. *)
Theorem load_user_cases (w : world) :
  (reachable w -> forall u, In u (users w) -> in_int64 (User.id u) = true ->
     load_user (str_of_int (User.id u)) w = (Returned (Some u), w))
  /\ (forall s, is_ascii s = true -> py_int s = Raised ValueError ->
        load_user s w = (Raised ValueError, w))
  /\ (forall n, in_int64 n = true -> ~ In n (map User.id (users w)) ->
        load_user (str_of_int n) w = (Returned None, w))
  /\ (forall s, snd (load_user s w) = w).
Proof.
  split; [|split; [|split]].
  - intros Hr u Hu _. apply reachable_world_ok in Hr as [[_ _ Hids _ _] _].
    apply load_user_id; assumption.
  - intros s _ Hs. unfold load_user. run. rewrite Hs. reflexivity.
  - intros n _ Hn. unfold load_user, user_get. run. rewrite py_int_str_of_int.
    destruct (find _ (users w)) as [u|] eqn:Hf; [|reflexivity].
    apply find_some in Hf as [Hu Hid]. apply Z.eqb_eq in Hid.
    exfalso. apply Hn. rewrite <- Hid. apply in_map. assumption.
  - intros s. unfold load_user, user_get. run. destruct (py_int s); reflexivity.
Qed.

Lemma load_user_cases_witness :
  load_user (str_of_int (User.id bob)) world_ab = (Returned (Some bob), world_ab)
  /\ load_user "abc" world_ab = (Raised ValueError, world_ab)
  /\ load_user (str_of_int 3) world_ab = (Returned None, world_ab).
Proof.
  destruct (load_user_cases world_ab) as (Hload & Hbad & Hnone & _).
  split; [|split].
  - apply Hload; [|right; left; reflexivity|reflexivity].
    apply (reachable_step world_a); [|apply step_register].
    apply (reachable_step initial); [apply reachable_initial|apply step_register].
  - apply Hbad; reflexivity.
  - apply Hnone; [reflexivity|]. simpl. intros [H|[H|[]]]; discriminate H.
Defined.

Lemma find_by_email (l : list User.row) (u : User.row) :
  List.NoDup (map User.email l) -> In u l ->
  find (fun x => String.eqb (User.email x) (User.email u)) l = Some u.
Proof.
  induction l as [|y l IH]; simpl; intros Hnd Hin; [contradiction|].
  inversion Hnd as [|? ? Hy Hnd']; subst.
  destruct (String.eqb_spec (User.email y) (User.email u)) as [E|E].
  - destruct Hin as [->|Hin]; [reflexivity|].
    exfalso. apply Hy. rewrite E. apply in_map. assumption.
  - destruct Hin as [->|Hin]; [congruence|]. apply IH; assumption.
Qed.

Lemma find_by_email_eq (l : list User.row) (u : User.row) (email : string) :
  List.NoDup (map User.email l) -> In u l -> User.email u = email ->
  find (fun x => String.eqb (User.email x) email) l = Some u.
Proof. intros Hnd Hin <-. apply find_by_email; assumption. Qed.

Lemma login_post args req check s email pw :
  method req = POST ->
  form_get "email" (form req) = Some email ->
  form_get "password" (form req) = Some pw ->
  login args req check s
  = match find (fun u => String.eqb (User.email u) email) (users (store s)) with
    | Some u =>
        if check (User.password u) pw
        then (Returned (RedirectView "dashboard"),
              {| store := store s; session_user_id := Some (str_of_int (User.id u)) |})
        else (Returned (LoginView (Some MSG_INVALID) (Some "danger")), s)
    | None => (Returned (LoginView (Some MSG_INVALID) (Some "danger")), s)
    end.
Proof.
  intros Hm He Hp. unfold login, form_item. rewrite Hm, He, Hp.
  run. unfold on_store, user_first, login_user. simpl.
  destruct s as [w sid]. simpl.
  destruct (find _ (users w)) as [u|]; [|reflexivity].
  destruct (check (User.password u) pw); reflexivity.
Qed.

(** X15: logging in. With email and password posted, in a reachable store:
    when a user has that email and the password checks against the stored
    hash, the session takes the text of that user's identifier and the
    answer redirects to the dashboard; when no user with that email passes
    the check (there is none, or the password is wrong) the answer is the
    same "invalid email or password" page, classified "danger", and the
    session is as before. A missing field is a 400 error. The store is
    never changed. *)
Theorem login_cases (args : list (string * string)) (req : request)
    (check : string -> string -> bool) (s : site) :
  method req = POST ->
  (forall email pw u,
     form_get "email" (form req) = Some email ->
     form_get "password" (form req) = Some pw ->
     reachable (store s) -> In u (users (store s)) -> User.email u = email ->
     check (User.password u) pw = true ->
     login args req check s
     = (Returned (RedirectView "dashboard"),
        {| store := store s; session_user_id := Some (str_of_int (User.id u)) |}))
  /\ (forall email pw,
        form_get "email" (form req) = Some email ->
        form_get "password" (form req) = Some pw ->
        (forall u, In u (users (store s)) -> User.email u = email ->
                   check (User.password u) pw = false) ->
        login args req check s
        = (Returned (LoginView (Some MSG_INVALID) (Some "danger")), s))
  /\ (form_get "email" (form req) = None \/ form_get "password" (form req) = None ->
      login args req check s = (Raised BadRequestKeyError, s))
  /\ store (snd (login args req check s)) = store s.
Proof.
  intros Hm. split; [|split; [|split]].
  - intros email pw u He Hp Hr Hu Hue Hc.
    rewrite (login_post args req check s email pw Hm He Hp).
    apply reachable_world_ok in Hr as [[_ _ _ Hemails _] _].
    rewrite <- Hue, (find_by_email _ u Hemails Hu), Hc. reflexivity.
  - intros email pw He Hp Hno.
    rewrite (login_post args req check s email pw Hm He Hp).
    destruct (find _ (users (store s))) as [u|] eqn:Hf; [|reflexivity].
    apply find_some in Hf as [Hu Hue]. apply String.eqb_eq in Hue.
    rewrite (Hno u Hu Hue). reflexivity.
  - intros Hmiss. unfold login, form_item. rewrite Hm. run.
    destruct (form_get "email" (form req)) as [email|]; [|reflexivity].
    destruct (form_get "password" (form req)) as [pw|]; [|reflexivity].
    destruct Hmiss as [H|H]; discriminate H.
  - unfold login, form_item. rewrite Hm. run.
    destruct (form_get "email" (form req)) as [email|]; [|reflexivity].
    destruct (form_get "password" (form req)) as [pw|]; [|reflexivity].
    unfold on_store, user_first, login_user. simpl.
    destruct (find _ (users (store s))) as [u|]; [|reflexivity].
    destruct (check (User.password u) pw); reflexivity.
Qed.

Lemma login_cases_witness :
  login [] (login_form "bob@example.com" "b") some_check site_ab
  = (Returned (RedirectView "dashboard"),
     {| store := world_ab; session_user_id := Some (str_of_int 2) |})
  /\ login [] (login_form "bob@example.com" "x") some_check site_ab
     = (Returned (LoginView (Some MSG_INVALID) (Some "danger")), site_ab)
  /\ login [] (login_form "carol@example.com" "b") some_check site_ab
     = (Returned (LoginView (Some MSG_INVALID) (Some "danger")), site_ab).
Proof.
  split; [|split].
  - destruct (login_cases [] (login_form "bob@example.com" "b") some_check site_ab eq_refl)
      as (H & _).
    apply (H "bob@example.com" "b" bob); try reflexivity.
    + apply (reachable_step world_a); [|apply step_register].
      apply (reachable_step initial); [apply reachable_initial|apply step_register].
    + right. left. reflexivity.
  - destruct (login_cases [] (login_form "bob@example.com" "x") some_check site_ab eq_refl)
      as (_ & H & _).
    apply (H "bob@example.com" "x"); try reflexivity.
    intros u [<-|[<-|[]]]; [discriminate|reflexivity].
  - destruct (login_cases [] (login_form "carol@example.com" "b") some_check site_ab eq_refl)
      as (_ & H & _).
    apply (H "carol@example.com" "b"); try reflexivity.
    intros u [<-|[<-|[]]]; discriminate.
Defined.

Lemma current_user_eq s :
  current_user s
  = match session_user_id s with
    | Some uid => (fst (load_user uid (store s)),
                   {| store := snd (load_user uid (store s));
                      session_user_id := session_user_id s |})
    | None => (Returned None, s)
    end.
Proof.
  unfold current_user. run. destruct s as [w sid]. simpl.
  destruct sid as [uid|]; [|reflexivity].
  unfold on_store. simpl. destruct (load_user uid w). reflexivity.
Qed.

(** X16: register, log in, be that user. From a reachable state, when the
    check accepts a password against its own hash, a registration with a
    fresh email followed by a login with the same email and password
    redirects to the dashboard, and [current_user] is then the row the
    registration inserted. *)
Theorem register_then_login (w : world) (reg : request) (hash : string -> string)
    (check : string -> string -> bool) (args : list (string * string)) (req : request)
    (sid : option string) (name email pw : string) :
  reachable w ->
  method reg = POST ->
  form_get "name" (form reg) = Some name ->
  form_get "email" (form reg) = Some email ->
  form_get "password" (form reg) = Some pw ->
  (forall u, In u (users w) -> User.email u <> email) ->
  method req = POST ->
  form_get "email" (form req) = Some email ->
  form_get "password" (form req) = Some pw ->
  check (hash pw) pw = true ->
  let w1 := snd (register reg hash w) in
  let s1 := {| store := w1; session_user_id := sid |} in
  fst (login args req check s1) = Returned (RedirectView "dashboard")
  /\ fst (current_user (snd (login args req check s1)))
     = Returned (Some (new_user name email (hash pw) w)).
Proof.
  intros Hr Hm Hn He Hp Hfresh Hm' He' Hp' Hc w1 s1.
  assert (Hw1 : w1 = set_users w (users w ++ [new_user name email (hash pw) w])).
  { unfold w1. rewrite (register_post reg hash w name email pw Hm Hn He Hp).
    destruct (find _ (users w)) as [y|] eqn:Hf; [|reflexivity].
    apply find_some in Hf as [Hy Hye]. apply String.eqb_eq in Hye.
    exfalso. exact (Hfresh y Hy Hye). }
  assert (Hr1 : reachable w1).
  { apply (reachable_step w); [assumption|]. apply step_register. }
  pose proof (reachable_world_ok w1 Hr1) as [[_ _ Hids Hemails _] _].
  assert (Hin : In (new_user name email (hash pw) w) (users w1)).
  { rewrite Hw1. simpl. apply in_app_iff. right. left. reflexivity. }
  assert (Hpw : User.password (new_user name email (hash pw) w) = hash pw) by reflexivity.
  assert (Hem : User.email (new_user name email (hash pw) w) = email) by reflexivity.
  remember (new_user name email (hash pw) w) as u eqn:Hu.
  rewrite (login_post args req check s1 email pw Hm' He' Hp').
  change (users (store s1)) with (users w1).
  rewrite (find_by_email_eq _ u email Hemails Hin Hem), Hpw, Hc.
  split; [reflexivity|].
  rewrite current_user_eq.
  cbn [snd fst session_user_id store]. change (store s1) with w1.
  rewrite (load_user_id w1 u Hids Hin). reflexivity.
Qed.

Lemma register_then_login_witness :
  fst (login [] (login_form "eve@example.com" "e") some_check
         {| store := snd (register (POST_form [("name", "Eve"); ("email", "eve@example.com");
                                               ("password", "e")]) some_hash world_ab);
            session_user_id := None |})
  = Returned (RedirectView "dashboard").
Proof.
  apply (register_then_login world_ab
           (POST_form [("name", "Eve"); ("email", "eve@example.com"); ("password", "e")])
           some_hash some_check [] (login_form "eve@example.com" "e") None
           "Eve" "eve@example.com" "e"); try reflexivity.
  - apply (reachable_step world_a); [|apply step_register].
    apply (reachable_step initial); [apply reachable_initial|apply step_register].
  - intros u [<-|[<-|[]]]; discriminate.
Defined.

(** X17: logging out. Whatever the network and the disk do, users and
    bookings are untouched and the cache is as [get_recent_movies] leaves
    it. When [get_recent_movies] returns, the page shows the movies it
    returned, with no genre group at all and the "logged out" message,
    classified "info"; the session is empty afterwards and [current_user]
    is nobody. When [get_recent_movies] raises, so does the view, and no
    page is made. *)
Theorem logout_clears (net : network) (d : disk) (s : site) :
  let s1 := snd (logout net d s) in
  users (store s1) = users (store s) /\ bookings (store s1) = bookings (store s)
  /\ files (store s1) = snd (get_recent_movies net d (files (store s)))
  /\ match fst (get_recent_movies net d (files (store s))) with
     | Returned movies =>
         fst (logout net d s)
         = Returned (IndexView {| IndexHtml.movies := movies;
                                  IndexHtml.genre_movies := [];
                                  IndexHtml.search_results := None;
                                  IndexHtml.search_query := None;
                                  IndexHtml.message := Some MSG_LOGGED_OUT;
                                  IndexHtml.message_type := Some "info" |})
         /\ session_user_id s1 = None
         /\ current_user s1 = (Returned None, s1)
     | Raised e => fst (logout net d s) = Raised e
     end.
Proof.
  unfold logout, with_session, logout_user, on_store, on_cache. run. simpl.
  destruct (get_recent_movies net d (files (store s))) as [[mv|e] fs']; simpl.
  - rewrite current_user_eq. simpl. repeat split.
  - repeat split.
Qed.

Lemma logout_clears_witness :
  session_user_id
    (snd (logout net_live DiskOk {| store := world_ab; session_user_id := Some "1" |}))
  = None.
Proof.
  destruct (logout_clears net_live DiskOk {| store := world_ab; session_user_id := Some "1" |})
    as (_ & _ & _ & Hpage).
  change (fst (get_recent_movies net_live DiskOk
                 (files (store {| store := world_ab; session_user_id := Some "1" |}))))
    with (@Returned pyval (VList [heat])) in Hpage.
  exact (proj1 (proj2 Hpage)).
Defined.

(* ===================================================================== *)
(** ** The dashboard and the front page *)
(* ===================================================================== *)

Lemma poster_url_details other k mv :
  details_result k (Returned mv) -> exists url, poster_url other mv = Returned url /\ poster_ok url.
Proof.
  intros [->|[Ht (i & Hi & _)]].
  - exists PLACEHOLDER. split; [reflexivity|left; reflexivity].
  - unfold poster_url. rewrite Ht. destruct mv; try discriminate Hi. simpl.
    destruct (dict_lookup "poster_path" kvs) as [p|]; simpl.
    + destruct (truthy p); simpl; eexists; (split; [reflexivity|]);
        [right; eexists; reflexivity|left; reflexivity].
    + exists PLACEHOLDER. split; [reflexivity|left; reflexivity].
Qed.

Lemma dashboard_rows_ok other nets disks bs : forall i fs,
  cache_ok fs ->
  cache_ok (snd (dashboard_rows other bs i nets disks fs))
  /\ match fst (dashboard_rows other bs i nets disks fs) with
     | Returned rows => map fst rows = bs /\ Forall (fun row => poster_ok (snd row)) rows
     | Raised e => e = AttributeError
     end.
Proof.
  induction bs as [|b rest IH]; intros i fs Hok; simpl.
  - split; [assumption|]. split; [reflexivity|constructor].
  - run.
    destruct (get_movie_details_ok (Booking.movie_id b) (nets i) (disks i) fs Hok)
      as [Hres Hok1].
    destruct (get_movie_details (Booking.movie_id b) (nets i) (disks i) fs)
      as [[mv|e] fs1]; simpl in Hres, Hok1; [|split; assumption].
    destruct (poster_url_details other _ mv Hres) as (url & -> & Hurl).
    destruct (IH (S i) fs1 Hok1) as [Hok2 Hrows].
    destruct (dashboard_rows other rest (S i) nets disks fs1) as [[rows|e] fs2];
      simpl in *; [|split; assumption].
    split; [assumption|]. destruct Hrows as [Hm Hall].
    split; [rewrite Hm; reflexivity|]. constructor; assumption.
Qed.

Lemma set_files_set_files w a b : set_files (set_files w a) b = set_files w b.
Proof. reflexivity. Qed.

Lemma dashboard_rows_reachable other nets disks bs : forall i w,
  reachable w ->
  reachable (set_files w (snd (dashboard_rows other bs i nets disks (files w)))).
Proof.
  induction bs as [|b rest IH]; intros i w Hr; simpl.
  - destruct w. exact Hr.
  - run.
    assert (Hr1 : reachable (set_files w (snd (get_movie_details (Booking.movie_id b)
                                                 (nets i) (disks i) (files w))))).
    { rewrite <- on_cache_snd. apply (reachable_step w); [assumption|apply step_details]. }
    destruct (get_movie_details (Booking.movie_id b) (nets i) (disks i) (files w))
      as [[mv|e] fs1]; simpl in *; [|assumption].
    destruct (poster_url other mv) as [url|e]; simpl; [|assumption].
    specialize (IH (S i) _ Hr1). simpl in IH.
    destruct (dashboard_rows other rest (S i) nets disks fs1) as [[rows|e] fs2];
      simpl in *; exact IH.
Qed.

Lemma dashboard_eq other nets disks w :
  dashboard other nets disks w
  = (match fst (dashboard_rows other (bookings w) 0 nets disks (files w)) with
     | Returned rows => Returned (DashboardView rows)
     | Raised e => Raised e
     end,
     set_files w (snd (dashboard_rows other (bookings w) 0 nets disks (files w)))).
Proof.
  unfold dashboard, on_cache. run.
  destruct (dashboard_rows other (bookings w) 0 nets disks (files w)) as [[rows|e] fs'];
    reflexivity.
Qed.

(** X18: the dashboard. It changes neither users nor bookings and leaves
    a reachable state reachable. From a reachable state, when it returns,
    its rows are all the bookings of the table, in order and whoever made
    them, and each has for poster the placeholder or an address under the
    image base; when it does not return, it raised [AttributeError] (an
    answer of the service was not a record). *)
Theorem dashboard_shows_all (other : pyval -> string) (nets : nat -> network)
    (disks : nat -> disk) (w : world) :
  users (snd (dashboard other nets disks w)) = users w
  /\ bookings (snd (dashboard other nets disks w)) = bookings w
  /\ (reachable w ->
      reachable (snd (dashboard other nets disks w))
      /\ match fst (dashboard other nets disks w) with
         | Returned v =>
             exists rows, v = DashboardView rows /\ map fst rows = bookings w
                          /\ Forall (fun row => poster_ok (snd row)) rows
         | Raised e => e = AttributeError
         end).
Proof.
  rewrite dashboard_eq. simpl. split; [reflexivity|]. split; [reflexivity|].
  intros Hr. split; [apply dashboard_rows_reachable; assumption|].
  pose proof (reachable_world_ok w Hr) as [_ Hc].
  destruct (dashboard_rows_ok other nets disks (bookings w) 0 (files w) Hc) as [_ H].
  destruct (fst (dashboard_rows other (bookings w) 0 nets disks (files w))) as [rows|e];
    [|assumption].
  exists rows. destruct H. repeat split; assumption.
Qed.

Lemma dashboard_shows_all_witness :
  reachable (snd (dashboard (fun _ => "") (fun _ => net_live) (fun _ => DiskOk) world_booked))
  /\ match fst (dashboard (fun _ => "") (fun _ => net_live) (fun _ => DiskOk) world_booked) with
     | Returned v =>
         exists rows, v = DashboardView rows /\ map fst rows = bookings world_booked
                      /\ Forall (fun row => poster_ok (snd row)) rows
     | Raised e => e = AttributeError
     end.
Proof.
  destruct (dashboard_shows_all (fun _ => "") (fun _ => net_live) (fun _ => DiskOk)
              world_booked) as (_ & _ & H).
  apply H.
  apply (reachable_step world_ab).
  - apply (reachable_step world_a); [|apply step_register].
    apply (reachable_step initial); [apply reachable_initial|apply step_register].
  - apply (step_movie_page (book "2" "18:00" "2026-01-02") 7 alice some_clock net_live
                           DiskOk world_ab).
    left. reflexivity.
Defined.

Example dashboard_of_bob :
  fst (dashboard (fun _ => "") (fun _ => net_live) (fun _ => DiskOk) world_booked)
  = Returned (DashboardView
      [(new_booking (book "2" "18:00" "2026-01-02") 7 alice some_clock 2 world_ab,
        "https://image.tmdb.org/t/p/w200/heat.jpg")]).
Proof. reflexivity. Qed.

Lemma group_append_names name m groups n :
  In n (map fst (group_append name m groups)) -> n = name \/ In n (map fst groups).
Proof.
  induction groups as [|[k ms] rest IH]; simpl.
  - intros [<-|[]]. left. reflexivity.
  - destruct (String.eqb_spec k name) as [->|Hne]; simpl.
    + intros [<-|H]; [right; left; reflexivity|right; right; assumption].
    + intros [<-|H]; [right; left; reflexivity|].
      destruct (IH H) as [->|H']; [left; reflexivity|right; right; assumption].
Qed.

Lemma group_append_ok items name m groups :
  groups_ok items groups -> In name genre_names -> In m items ->
  groups_ok items (group_append name m groups).
Proof.
  intros [Hnd Hall] Hname Hm. induction groups as [|[k ms] rest IH]; simpl.
  - split; [constructor; [intros []|constructor]|].
    constructor; [|constructor]. simpl. repeat split; [assumption|discriminate|].
    intros x [<-|[]]. assumption.
  - inversion Hnd as [|? ? Hk Hnd']; subst. inversion Hall as [|? ? Hg Hall']; subst.
    simpl in Hg. destruct Hg as (Hkn & Hne & Hin).
    destruct (String.eqb_spec k name) as [->|Hdiff].
    + split; [exact Hnd|]. constructor; [|assumption]. simpl.
      repeat split; [assumption|destruct ms; discriminate|].
      intros x Hx. apply in_app_iff in Hx as [Hx|[<-|[]]]; auto.
    + destruct (IH Hnd' Hall') as [Hnd2 Hall2]. split.
      * simpl. constructor; [|assumption]. intros H.
        apply group_append_names in H as [->|H]; [congruence|contradiction].
      * constructor; [|assumption]. simpl. repeat split; assumption.
Qed.

Lemma group_append_entries name m groups :
  entries (group_append name m groups) = S (entries groups).
Proof.
  unfold entries. induction groups as [|[k ms] rest IH]; simpl; [reflexivity|].
  destruct (String.eqb k name); simpl.
  - rewrite length_app. simpl. lia.
  - rewrite IH. lia.
Qed.

Lemma member_append_same name m groups : member name m (group_append name m groups).
Proof.
  induction groups as [|[k ms] rest IH]; simpl.
  - exists [m]. split; left; reflexivity.
  - destruct (String.eqb_spec k name) as [->|Hne].
    + exists (ms ++ [m]). split; [left; reflexivity|].
      apply in_app_iff. right. left. reflexivity.
    + destruct IH as (ms' & Hin & Hm). exists ms'. split; [right; assumption|assumption].
Qed.

Lemma member_append_mono n x name m groups :
  member n x groups -> member n x (group_append name m groups).
Proof.
  intros (ms & Hin & Hx). induction groups as [|[k ks] rest IH]; simpl; [destruct Hin|].
  destruct (String.eqb_spec k name) as [->|Hne].
  - destruct Hin as [[= -> ->]|Hin].
    + exists (ms ++ [m]). split; [left; reflexivity|apply in_app_iff; left; assumption].
    + exists ms. split; [right; assumption|assumption].
  - destruct Hin as [[= -> ->]|Hin].
    + exists ms. split; [left; reflexivity|assumption].
    + destruct (IH Hin) as (ms' & Hin' & Hx'). exists ms'. split; [right|]; assumption.
Qed.

Lemma genre_name_known g name : genre_name g = Returned name -> In name genre_names.
Proof.
  unfold genre_name, genre_names. destruct (hashable g); [|discriminate].
  destruct (find _ GENRE_MAP) as [kv|] eqn:Hf; intros [= <-].
  - apply find_some in Hf as [Hin _]. apply in_app_iff. left. apply in_map. assumption.
  - apply in_app_iff. right. left. reflexivity.
Qed.

Lemma genre_name_raises g e : genre_name g = Raised e -> e = TypeError.
Proof. unfold genre_name. destruct (hashable g); [discriminate|]. intros [= <-]. reflexivity. Qed.

Lemma group_genres_spec items m : forall gs groups groups',
  In m items -> groups_ok items groups ->
  group_genres m gs groups = Returned groups' ->
  groups_ok items groups'
  /\ entries groups' = (entries groups + length gs)%nat
  /\ (forall n x, member n x groups -> member n x groups')
  /\ (forall g name, In g gs -> genre_name g = Returned name -> member name m groups').
Proof.
  induction gs as [|g gs IH]; intros groups groups' Hm Hok; simpl.
  - intros [= <-]. repeat split; [apply Hok|apply Hok|lia|auto|intros ? ? []].
  - destruct (genre_name g) as [name|e] eqn:Hg; simpl; [|discriminate].
    intros Hrun.
    pose proof (group_append_ok items name m groups Hok (genre_name_known g name Hg) Hm)
      as Hok1.
    destruct (IH _ _ Hm Hok1 Hrun) as (Hok' & Hcount & Hmono & Hnew).
    split; [exact Hok'|]. split; [|split].
    + rewrite Hcount, group_append_entries. lia.
    + intros n x Hx. apply Hmono, member_append_mono. assumption.
    + intros g' name' [<-|Hin] Hg'.
      * rewrite Hg in Hg'. injection Hg' as <-. apply Hmono, member_append_same.
      * eapply Hnew; eassumption.
Qed.

Lemma group_genres_raises m : forall gs groups e,
  group_genres m gs groups = Raised e -> e = TypeError.
Proof.
  induction gs as [|g gs IH]; intros groups e; simpl; [discriminate|].
  destruct (genre_name g) as [name|e'] eqn:Hg; simpl.
  - apply IH.
  - intros [= <-]. eapply genre_name_raises; eassumption.
Qed.

Lemma group_movies_spec all : forall items groups groups',
  incl items all -> groups_ok all groups ->
  group_movies items groups = Returned groups' ->
  groups_ok all groups'
  /\ entries groups' = (entries groups + list_sum (map (fun m => length (genre_ids m)) items))%nat
  /\ (forall n x, member n x groups -> member n x groups')
  /\ (forall m g name, In m items -> In g (genre_ids m) -> genre_name g = Returned name ->
        member name m groups').
Proof.
  induction items as [|m rest IH]; intros groups groups' Hincl Hok; simpl.
  - intros [= <-]. repeat split; [apply Hok|apply Hok|lia|auto|intros ? ? ? []].
  - destruct (py_get_default m "genre_ids" (VList [])) as [ids|e] eqn:Hids; simpl;
      [|discriminate].
    destruct (py_iter ids) as [gs|e] eqn:Hit; simpl; [|discriminate].
    destruct (group_genres m gs groups) as [groups1|e] eqn:Hg; simpl; [|discriminate].
    intros Hrun.
    assert (Hgs : genre_ids m = gs).
    { unfold genre_ids. rewrite Hids. simpl. rewrite Hit. reflexivity. }
    assert (Hm : In m all) by (apply Hincl; left; reflexivity).
    destruct (group_genres_spec all m gs groups groups1 Hm Hok Hg)
      as (Hok1 & Hcount1 & Hmono1 & Hnew1).
    assert (Hincl' : incl rest all) by (intros x Hx; apply Hincl; right; assumption).
    destruct (IH _ _ Hincl' Hok1 Hrun) as (Hok' & Hcount & Hmono & Hnew).
    split; [exact Hok'|]. split; [|split].
    + rewrite Hcount, Hcount1, Hgs. lia.
    + intros n x Hx. apply Hmono, Hmono1. assumption.
    + intros m' g name [<-|Hin] Hg' Hname.
      * apply Hmono. apply (Hnew1 g name); [|assumption]. rewrite <- Hgs. assumption.
      * eapply Hnew; eassumption.
Qed.

Lemma group_movies_raises : forall items groups e,
  group_movies items groups = Raised e -> e = AttributeError \/ e = TypeError.
Proof.
  induction items as [|m rest IH]; intros groups e; simpl; [discriminate|].
  destruct (py_get_default m "genre_ids" (VList [])) as [ids|e'] eqn:Hids; simpl.
  - destruct (py_iter ids) as [gs|e'] eqn:Hit; simpl.
    + destruct (group_genres m gs groups) as [groups1|e'] eqn:Hg; simpl; [apply IH|].
      intros [= <-]. right. eapply group_genres_raises; eassumption.
    + intros [= <-]. right. eapply py_iter_raises; eassumption.
  - intros [= <-]. left. destruct m; simpl in Hids; try discriminate;
      injection Hids as <-; reflexivity.
Qed.

Lemma groups_ok_nil items : groups_ok items [].
Proof. split; constructor. Qed.

(** X19: the genre groups of the front page. When the grouping returns,
    the groups have distinct names, each taken from [GENRE_MAP] or "Other";
    no group is empty; every member of a group is one of the movies; and
    the groups have as many entries in all as the movies have genre
    identifiers, so that a movie is entered once per identifier it lists.
    When the grouping does not return, it raised [AttributeError] (a movie
    that is no record) or [TypeError] (identifiers that cannot be run
    through, or one that cannot be a key). *)
Theorem genre_groups_sound (items : list pyval) :
  match group_movies items [] with
  | Returned groups =>
      List.NoDup (map fst groups)
      /\ (forall n ms, In (n, ms) groups ->
            In n genre_names /\ ms <> [] /\ forall x, In x ms -> In x items)
      /\ entries groups = list_sum (map (fun m => length (genre_ids m)) items)
  | Raised e => e = AttributeError \/ e = TypeError
  end.
Proof.
  destruct (group_movies items []) as [groups|e] eqn:Hrun.
  - destruct (group_movies_spec items items [] groups (incl_refl _) (groups_ok_nil _) Hrun)
      as ([Hnd Hall] & Hcount & _ & _).
    split; [exact Hnd|]. split; [|exact Hcount].
    intros n ms Hin. rewrite List.Forall_forall in Hall. exact (Hall (n, ms) Hin).
  - eapply group_movies_raises. eassumption.
Qed.

Lemma genre_name_mapped g name :
  In (g, name) GENRE_MAP -> genre_name (VInt g) = Returned name.
Proof.
  unfold GENRE_MAP. intros H.
  repeat (destruct H as [H|H]; [injection H as <- <-; reflexivity|]). destruct H.
Qed.

Lemma genre_name_unmapped g :
  (forall name, ~ In (g, name) GENRE_MAP) -> genre_name (VInt g) = Returned "Other".
Proof.
  intros Hno. unfold genre_name. simpl hashable. cbv iota.
  destruct (find _ GENRE_MAP) as [[k name]|] eqn:Hf; [|reflexivity].
  apply find_some in Hf as [Hin Hk]. simpl in Hk. apply Z.eqb_eq in Hk. subst k.
  exfalso. exact (Hno name Hin).
Qed.

(** X20: where a movie is filed. When the grouping returns, a movie that
    lists the integer [g] among its genre identifiers is in the group that
    [GENRE_MAP] names for [g], and in the group "Other" when [GENRE_MAP]
    has no entry for [g]; so a movie that lists several genres is in each
    of their groups. *)
Theorem genre_groups_complete (items : list pyval) (groups : list (string * list pyval))
    (m : pyval) (g : Z) :
  group_movies items [] = Returned groups ->
  In m items -> In (VInt g) (genre_ids m) ->
  (forall name, In (g, name) GENRE_MAP -> member name m groups)
  /\ ((forall name, ~ In (g, name) GENRE_MAP) -> member "Other" m groups).
Proof.
  intros Hrun Hm Hg.
  destruct (group_movies_spec items items [] groups (incl_refl _) (groups_ok_nil _) Hrun)
    as (_ & _ & _ & Hnew).
  split.
  - intros name Hin. apply (Hnew m (VInt g) name Hm Hg). apply genre_name_mapped. assumption.
  - intros Hno. apply (Hnew m (VInt g) "Other" Hm Hg). apply genre_name_unmapped. assumption.
Qed.

Example groups_of_two :
  group_movies [heat_genres; western] []
  = Returned [("Thriller", [heat_genres]); ("Drama", [heat_genres; western]);
              ("Other", [western])].
Proof. reflexivity. Qed.

Lemma genre_groups_complete_witness :
  member "Drama" western
    [("Thriller", [heat_genres]); ("Drama", [heat_genres; western]); ("Other", [western])]
  /\ member "Other" western
       [("Thriller", [heat_genres]); ("Drama", [heat_genres; western]); ("Other", [western])].
Proof.
  split.
  - apply (genre_groups_complete [heat_genres; western] _ western 18).
    + reflexivity.
    + right. left. reflexivity.
    + right. left. reflexivity.
    + right. right. left. reflexivity.
  - apply (genre_groups_complete [heat_genres; western] _ western 37).
    + reflexivity.
    + right. left. reflexivity.
    + left. reflexivity.
    + unfold GENRE_MAP. intros name H.
      repeat (destruct H as [H|H]; [discriminate H|]). destruct H.
Defined.

Lemma index_eq args search net d w :
  index args search net d w
  = match (if negb (String.eqb (query_of args) "")
           then search_movies (query_of args) search
           else Returned (VList [])) with
    | Returned results => front_page (query_of args) results net d w
    | Raised e => (Raised e, w)
    end.
Proof.
  unfold index, front_page, on_cache. run.
  destruct (negb (String.eqb (query_of args) "")).
  - destruct (search_movies (query_of args) search) as [results|e]; [|reflexivity].
    destruct (get_recent_movies net d (files w)) as [[mv|e] fs']; [|reflexivity].
    destruct (py_iter mv) as [items|e]; [|reflexivity]. simpl.
    destruct (group_movies items []); reflexivity.
  - destruct (get_recent_movies net d (files w)) as [[mv|e] fs']; [|reflexivity].
    destruct (py_iter mv) as [items|e]; [|reflexivity]. simpl.
    destruct (group_movies items []); reflexivity.
Qed.

(** X21: the search of the front page. With a blank query (missing, empty
    or ASCII white space only) no search is made: the page does not depend
    on what a search would answer. With a query of ASCII text that is not
    blank, a search whose connection fails makes the whole route raise
    [ConnectionError], and one whose answer is no JSON makes it raise
    [JSONDecodeError], in both cases before the cache is touched; a search
    answered with a status from 400 to 599 gives a page with no search
    result. *)
Theorem index_search (args : list (string * string)) (search : string -> attempt)
    (net : network) (d : disk) (w : world) :
  (query_of args = "" ->
   forall search', index args search net d w = index args search' net d w)
  /\ (is_ascii (query_text args) = true -> query_of args <> "" ->
      (search (query_of args) = ConnectFailed \/ search (query_of args) = ReadFailed ->
       index args search net d w = (Raised ConnectionError, w))
      /\ (forall st ra, search (query_of args) = Response st ra None ->
                        ~ 400 <= st < 600 ->
                        index args search net d w = (Raised JSONDecodeError, w))
      /\ (forall st ra body ctx,
            search (query_of args) = Response st ra body -> 400 <= st < 600 ->
            fst (index args search net d w) = Returned (IndexView ctx) ->
            IndexHtml.search_results ctx = Some (VList []))).
Proof.
  split.
  - intros Hq search'. rewrite !index_eq, Hq. reflexivity.
  - intros _ Hq. apply String.eqb_neq in Hq. rewrite index_eq, Hq. simpl.
    unfold search_movies, raise_for_status, response_json. split; [|split].
    + intros [-> | ->]; reflexivity.
    + intros st ra -> Hst. simpl.
      destruct (Z.leb_spec 400 st), (Z.ltb_spec st 600); simpl; try reflexivity. lia.
    + intros st ra body ctx -> Hst. simpl.
      destruct (Z.leb_spec 400 st), (Z.ltb_spec st 600); simpl; try lia.
      unfold front_page.
      destruct (get_recent_movies net d (files w)) as [[mv|e] fs']; simpl; [|discriminate].
      destruct (obind (py_iter mv) _); [|discriminate]. intros [= <-]. reflexivity.
Qed.

Lemma index_search_witness :
  index [("q", "heat")] (fun _ => ConnectFailed) net_live DiskOk world_ab
  = (Raised ConnectionError, world_ab)
  /\ index [("q", "  ")] (fun _ => ConnectFailed) net_live DiskOk world_ab
     = index [("q", "  ")] (fun _ => Response 200 false None) net_live DiskOk world_ab.
Proof.
  split.
  - destruct (index_search [("q", "heat")] (fun _ => ConnectFailed) net_live DiskOk world_ab)
      as [_ H].
    destruct H as [H _]; [reflexivity|discriminate|]. apply H. left. reflexivity.
  - destruct (index_search [("q", "  ")] (fun _ => ConnectFailed) net_live DiskOk world_ab)
      as [H _].
    apply H. reflexivity.
Defined.

(** X22: the front page from a reachable state. The route changes neither
    users nor bookings and leaves the state reachable. When it returns, the
    movies of the page are a list of complete records, namely what
    [get_recent_movies] returned; the genre groups are the grouping of
    exactly these movies; and the query shown, when the query is ASCII
    text, is that text without the white space around it. *)
Theorem index_page (args : list (string * string)) (search : string -> attempt)
    (net : network) (d : disk) (w : world) :
  reachable w ->
  reachable (snd (index args search net d w))
  /\ users (snd (index args search net d w)) = users w
  /\ bookings (snd (index args search net d w)) = bookings w
  /\ (forall ctx,
        fst (index args search net d w) = Returned (IndexView ctx) ->
        fst (get_recent_movies net d (files w)) = Returned (IndexHtml.movies ctx)
        /\ (exists movies,
              IndexHtml.movies ctx = VList movies /\ Forall complete_record movies
              /\ group_movies movies [] = Returned (IndexHtml.genre_movies ctx))
        /\ (is_ascii (query_text args) = true ->
            IndexHtml.search_query ctx = Some (py_strip (query_text args)))).
Proof.
  intros Hr.
  assert (Hr1 : reachable (set_files w (snd (get_recent_movies net d (files w))))).
  { rewrite <- on_cache_snd. apply (reachable_step w); [assumption|apply step_recent]. }
  pose proof (reachable_world_ok w Hr) as [_ Hc].
  destruct (get_recent_movies_ok net d (files w) Hc) as [Hres _].
  rewrite index_eq.
  destruct (if negb _ then _ else _) as [results|e]; simpl;
    [|repeat split; try assumption; discriminate].
  unfold front_page.
  destruct (get_recent_movies net d (files w)) as [[mv|e] fs']; simpl in *;
    [|repeat split; try assumption; discriminate].
  split; [assumption|]. split; [reflexivity|]. split; [reflexivity|].
  intros ctx Hctx. destruct Hres as (movies & -> & Hall). simpl in Hctx.
  destruct (group_movies movies []) as [groups|e] eqn:Hg; [|discriminate].
  injection Hctx as <-. simpl. split; [reflexivity|]. split; [|reflexivity].
  exists movies. repeat split; assumption.
Qed.

Lemma index_page_witness :
  reachable (snd (index [("q", "")] (fun _ => ConnectFailed) net_live DiskOk world_ab))
  /\ bookings (snd (index [("q", "")] (fun _ => ConnectFailed) net_live DiskOk world_ab))
     = bookings world_ab.
Proof.
  destruct (index_page [("q", "")] (fun _ => ConnectFailed) net_live DiskOk world_ab)
    as (H1 & _ & H2 & _).
  - apply (reachable_step world_a); [|apply step_register].
    apply (reachable_step initial); [apply reachable_initial|apply step_register].
  - split; assumption.
Defined.

(** X23: the session routes keep the store reachable: after [login],
    after [logout] and after [current_user], the store is a reachable
    state when it was one before, so that every invariant of the reachable
    states holds across these routes too. *)
Theorem session_routes_reachable (s : site) :
  reachable (store s) ->
  (forall args req check, reachable (store (snd (login args req check s))))
  /\ (forall net d, reachable (store (snd (logout net d s))))
  /\ reachable (store (snd (current_user s))).
Proof.
  intros Hr. split; [|split].
  - intros args req check. unfold login, form_item.
    destruct (method req); [exact Hr|]. run.
    destruct (form_get "email" (form req)) as [email|]; [|exact Hr].
    destruct (form_get "password" (form req)) as [pw|]; [|exact Hr].
    unfold on_store, user_first, login_user. simpl.
    destruct (find _ (users (store s))) as [u|]; [|exact Hr].
    destruct (check (User.password u) pw); exact Hr.
  - intros net d. unfold logout, with_session, logout_user, on_store. run. simpl.
    pose proof (reachable_step _ _ Hr (step_recent net d (store s))) as Hr1.
    destruct (on_cache (get_recent_movies net d) (store s)) as [[mv|e] w']; exact Hr1.
  - rewrite current_user_eq. destruct (session_user_id s) as [uid|]; [|exact Hr]. simpl.
    unfold load_user, user_get. run. destruct (py_int uid); exact Hr.
Qed.

Lemma session_routes_reachable_witness :
  reachable (store (snd (logout net_live DiskOk site_ab))).
Proof.
  destruct (session_routes_reachable site_ab) as (_ & H & _).
  - apply (reachable_step world_a); [|apply step_register].
    apply (reachable_step initial); [apply reachable_initial|apply step_register].
  - apply H.
Defined.


(** X24: the order of the checks of a booking, for a movie identifier in
    the 64-bit range of the store. A submission with all three fields
    given that repeats an existing booking is answered as a duplicate
    before its seats are read: even seats that are no number get the
    duplicate message, and nothing is raised or inserted. Seats of ASCII
    text that is no number, in a submission that is no duplicate, end the
    request in [ValueError] before the detail lookup: neither the bookings
    nor the cache change. *)
Theorem submission_checks_in_order (req : request) (movie_id : Z) (u : User.row)
    (clk : clock) (net : network) (d : disk) (w : world) :
  method req = POST ->
  fields_given req = true ->
  in_int64 movie_id = true ->
  ((exists b, In b (bookings w)
              /\ same_booking movie_id (User.id u)
                   (field_str (form_get "showtime" (form req)))
                   (field_str (form_get "date" (form req))) b = true) ->
   submit_booking req movie_id u clk w
   = (Returned (false, Some MSG_DUPLICATE, Some "error"), w)
   /\ bookings (snd (movie_page req movie_id u clk net d w)) = bookings w)
  /\ (existing req movie_id u w = None ->
      is_ascii (field_str (form_get "seats" (form req))) = true ->
      py_int (field_str (form_get "seats" (form req))) = Raised ValueError ->
      movie_page req movie_id u clk net d w = (Raised ValueError, w)).
Proof.
  intros Hm Hg Hi. split.
  - intros (b & Hb & Hsame).
    destruct (find_some_of _ _ b Hb Hsame) as [x Hx].
    pose proof (submit_duplicate req movie_id u clk w x Hg Hi Hx) as Hs.
    split; [exact Hs|].
    apply (movie_page_after_bookings _ _ _ _ net d _ _ _ Hm Hs).
  - intros He _ Hn.
    rewrite movie_page_eq, (post_part_POST _ _ _ _ Hm),
      (submit_bad_seats req movie_id u clk w ValueError Hg Hi He Hn).
    reflexivity.
Qed.

Lemma submission_checks_in_order_witness :
  submit_booking (book "abc" "18:00" "2026-01-02") 7 alice some_clock world_booked
  = (Returned (false, Some MSG_DUPLICATE, Some "error"), world_booked)
  /\ movie_page (book "abc" "18:00" "2026-01-02") 7 bob some_clock net_live DiskOk world_booked
     = (Raised ValueError, world_booked).
Proof.
  split.
  - destruct (submission_checks_in_order (book "abc" "18:00" "2026-01-02") 7 alice
                some_clock net_live DiskOk world_booked eq_refl eq_refl eq_refl) as [H _].
    apply H.
    exists (new_booking (book "2" "18:00" "2026-01-02") 7 alice some_clock 2 world_ab).
    split; [left; reflexivity|reflexivity].
  - destruct (submission_checks_in_order (book "abc" "18:00" "2026-01-02") 7 bob
                some_clock net_live DiskOk world_booked eq_refl eq_refl eq_refl) as [_ H].
    apply H; reflexivity.
Defined.

(** X25: integers beyond the 64-bit range of the store are refused by the
    driver, and the request ends in [OverflowError] with the state as it
    was. A POST with all three fields given, for a movie identifier
    outside the range, ends so at the duplicate check. A POST that is no
    duplicate and whose seats read as an integer outside the range ends so
    at the commit: nothing is inserted and the detail lookup does not run.
    A cancellation for an identifier outside the range ends so at the
    lookup. Hence no booking of a reachable state carries a movie
    identifier or a seat count outside the range. *)
Theorem overflow_refused (req : request) (movie_id : Z) (u : User.row) (clk : clock)
    (net : network) (d : disk) (w : world) :
  (method req = POST -> fields_given req = true -> in_int64 movie_id = false ->
   movie_page req movie_id u clk net d w = (Raised OverflowError, w))
  /\ (forall n,
        method req = POST -> fields_given req = true -> in_int64 movie_id = true ->
        existing req movie_id u w = None ->
        (String.length (field_str (form_get "seats" (form req)))
         <=? INT_MAX_STR_DIGITS)%nat = true ->
        py_int (field_str (form_get "seats" (form req))) = Returned n ->
        in_int64 n = false ->
        movie_page req movie_id u clk net d w = (Raised OverflowError, w))
  /\ (forall booking_id,
        in_int64 booking_id = false ->
        cancel_booking booking_id u w = (Raised OverflowError, w))
  /\ (reachable w ->
      forall b, In b (bookings w) ->
                in_int64 (Booking.movie_id b) = true /\ in_int64 (Booking.seats b) = true).
Proof.
  split; [|split; [|split]].
  - intros Hm Hg Hi.
    rewrite movie_page_eq, (post_part_POST _ _ _ _ Hm),
      (submit_unbound_movie req movie_id u clk w Hg Hi).
    reflexivity.
  - intros n Hm Hg Hi He _ Hn Hr.
    rewrite movie_page_eq, (post_part_POST _ _ _ _ Hm),
      (submit_unbound_seats req movie_id u clk w n Hg Hi He Hn Hr).
    reflexivity.
  - intros booking_id Hi. rewrite cancel_booking_eq, Hi. reflexivity.
  - intros Hr b Hb. pose proof (reachable_fits w Hr) as Hf.
    rewrite List.Forall_forall in Hf. exact (Hf b Hb).
Qed.

Lemma overflow_refused_witness :
  movie_page (book two_63 "18:00" "2026-01-02") 7 alice some_clock net_live DiskOk world_ab
  = (Raised OverflowError, world_ab)
  /\ cancel_booking TWO_63 alice world_booked = (Raised OverflowError, world_booked).
Proof.
  destruct (overflow_refused (book two_63 "18:00" "2026-01-02") 7 alice some_clock net_live
              DiskOk world_ab) as (_ & Hseats & _).
  destruct (overflow_refused (book two_63 "18:00" "2026-01-02") 7 alice some_clock net_live
              DiskOk world_booked) as (_ & _ & Hcancel & _).
  split.
  - apply (Hseats TWO_63); reflexivity.
  - apply Hcancel. reflexivity.
Defined.
